(** * Landscaper: import dependency resolver, execution controller and
    export constructor

    A shallow embedding of
    - [pkg/landscaper/installations/imports/helper.go]
      ([CheckCompletedSiblingDependents],
       [CheckCompletedSiblingDependentsOfParent], [getImportSource]),
    - the execution controller ([Reconcile], [Ensure],
      [HandleAnnotationsAndGeneration], [removeForceReconcileAnnotation],
      [handleError]),
    together with the properties the specification states about them.

    Go pointers that may be nil are [option]s, a Go [(T, error)] result is
    a sum [T + error], a [(bool, error)] pair is [bool * option error].
    The Kubernetes client and the helpers of other packages are taken as
    parameters; the recursion over objects fetched from the cluster is
    driven by a fuel argument, [None] meaning that the fuel ran out. *)

From stdpp Require Import base option list strings gmap.
From Stdlib Require Import ZArith Lia.

Local Open Scope string_scope.

(* ===================================================================== *)
(** ** API types ([lsv1alpha1]) *)
(* ===================================================================== *)

Module lsv1alpha1.

(** Modelled from the spec: the phase types are declared outside the
    given sources; the specification enumerates the phases of an
    installation or an execution.  The Go types
    [ComponentInstallationPhase] and [ExecutionPhase] are converted into
    one another by [handleError]; both are this enumeration. *)
Inductive Phase := PhaseInit | PhaseProgressing | PhaseCompleted | PhaseFailed | PhaseDeleteFailed.

#[global] Instance Phase_eq_dec : EqDecision Phase.
Proof. solve_decision. Defined.

Record ObjectReference := {
  ref_Name : string;
  ref_Namespace : string
}.

Record OwnerReference := {
  owner_Kind : string;
  owner_Name : string
}.

Record DataImport := {
  di_Name : string;
  di_DataRef : string
}.

Record ImportStatus := {
  is_Name : string;
  is_SourceRef : option ObjectReference;
  is_ConfigGeneration : string
}.

Record Installation := {
  inst_Name : string;
  inst_Namespace : string;
  inst_Labels : gmap string string;
  inst_Spec_Imports_Data : list DataImport;
  inst_Status_Phase : Phase;
  inst_Status_Imports : list ImportStatus
}.

End lsv1alpha1.
Export lsv1alpha1.

(** Go errors as they occur here: an error of the API server, and an error
    wrapped by [fmt.Errorf("...: %w", err)]. *)
Inductive StatusReason := ReasonNotFound | ReasonConflict | ReasonOther.

Inductive error :=
| ApiError (reason : StatusReason) (msg : string)
| Wrapf (prefix : string) (inner : error).

#[global] Instance StatusReason_eq_dec : EqDecision StatusReason.
Proof. solve_decision. Defined.
#[global] Instance error_eq_dec : EqDecision error.
Proof. solve_decision. Defined.

(* ===================================================================== *)
(** ** Helpers of [lsv1alpha1helper] and [installations] *)
(* ===================================================================== *)

Module lsv1alpha1helper.

(** Modelled from the spec: [IsCompletedInstallationPhase] is declared
    outside the given sources; the specification says it classifies
    [Completed], and only [Completed], as a satisfied dependency. *)
Definition IsCompletedInstallationPhase (phase : Phase) : bool :=
  bool_decide (phase = PhaseCompleted).

(** Modelled from the spec: [ReferenceIsObject] is declared outside the
    given sources; a reference describes an object when name and
    namespace agree. *)
Definition ReferenceIsObject (ref : ObjectReference) (obj : Installation) : bool :=
  bool_decide (ref_Name ref = inst_Name obj) && bool_decide (ref_Namespace ref = inst_Namespace obj).

End lsv1alpha1helper.

Module installations.

(** [InstallationBase] wraps the installation with its import status,
    indexed by import name. *)
Record InstallationBase := {
  Info : Installation;
  ImportStatus_Data : gmap string ImportStatus
}.

(** Modelled from the spec: [NewInstallationBase] is declared outside the
    given sources; it indexes the recorded import states by name, in the
    order of the status list. *)
Definition NewInstallationBase (inst : Installation) : InstallationBase :=
  {| Info := inst;
     ImportStatus_Data :=
       foldl (fun m st => <[is_Name st := st]> m) ∅ (inst_Status_Imports inst) |}.

(** Modelled from the spec: [CreateInternalInstallationBase] is declared
    outside the given sources; it wraps the fetched installation as
    [NewInstallationBase] does. *)
Definition CreateInternalInstallationBase (inst : Installation) : InstallationBase :=
  NewInstallationBase inst.

(** Modelled from the spec: [ImportStatus().GetData] is declared outside
    the given sources; it gives the state recorded for the import of that
    name, or an error when none is recorded. *)
Definition GetData (inst : InstallationBase) (name : string) : ImportStatus + error :=
  match ImportStatus_Data inst !! name with
  | Some st => inl st
  | None => inr (ApiError ReasonOther name)
  end.

End installations.
Export installations.

(* ===================================================================== *)
(** ** [imports/helper.go] *)
(* ===================================================================== *)

Module imports.
Import lsv1alpha1helper.

(** What the resolver reads from the cluster.  [Get] is [kubeClient.Get]
    on an installation; [GetParent], [GetDataImport] and
    [GetInstallationContextName] are the functions of package
    [installations] that the resolver calls with that client. *)
Record Client := {
  Get : ObjectReference -> Installation + error;
  GetParent : Installation -> option Installation + error;
  GetDataImport : string -> InstallationBase -> DataImport -> option OwnerReference + error;
  GetInstallationContextName : Installation -> string
}.

(** The outcome of one pass through the body of the [for] loop. *)
Inductive step :=
| Continue
| Return (r : bool * option error)
| OutOfFuel.

Section Resolver.
Context (kubeClient : Client).

(** [getImportSource] returns a reference to the owner of a data import. *)
Definition getImportSource (contextName : string) (inst : InstallationBase)
    (dataImport : DataImport) : option ObjectReference + error :=
  match GetData inst (di_Name dataImport) with
  | inl {| is_SourceRef := Some sourceRef |} => inl (Some sourceRef)
  | _ =>
    match GetDataImport kubeClient contextName inst dataImport with
    | inr err => inr err
    | inl None => inl None
    | inl (Some owner) =>
      if bool_decide (owner_Kind owner ≠ "Installation") then inl None
      else inl (Some {| ref_Name := owner_Name owner;
                        ref_Namespace := inst_Namespace (Info inst) |})
    end
  end.

(** The body of the loop of [CheckCompletedSiblingDependents]; [rec] is
    the recursive call on the fetched sibling. *)
Definition checkImport
    (rec : string -> option InstallationBase -> option (bool * option error))
    (contextName : string) (inst : InstallationBase) (dataImport : DataImport) : step :=
  match getImportSource contextName inst dataImport with
  | inr err => Return (false, Some err)
  | inl None => Continue
  | inl (Some sourceRef) =>
    if ReferenceIsObject sourceRef (Info inst) then Continue
    else
      match GetParent kubeClient (Info inst) with
      | inr err => Return (false, Some err)
      | inl parent =>
        if match parent with
           | Some p => ReferenceIsObject sourceRef p
           | None => false
           end
        then Continue
        else
          match Get kubeClient sourceRef with
          | inr err => Return (false, Some err)
          | inl sibling =>
            if negb (IsCompletedInstallationPhase (inst_Status_Phase sibling))
            then Return (false, None)
            else
              let intInst := CreateInternalInstallationBase sibling in
              match rec contextName (Some intInst) with
              | None => OutOfFuel
              | Some (_, Some err) => Return (false, Some err)
              | Some (false, None) => Return (false, None)
              | Some (true, None) => Continue
              end
          end
      end
  end.

Fixpoint checkImports
    (rec : string -> option InstallationBase -> option (bool * option error))
    (contextName : string) (inst : InstallationBase) (data : list DataImport)
    : option (bool * option error) :=
  match data with
  | [] => Some (true, None)
  | dataImport :: rest =>
    match checkImport rec contextName inst dataImport with
    | Continue => checkImports rec contextName inst rest
    | Return r => Some r
    | OutOfFuel => None
    end
  end.

(** [CheckCompletedSiblingDependents] checks if siblings that the
    installation depends on (imports data) are completed. *)
Fixpoint CheckCompletedSiblingDependents (fuel : nat) (contextName : string)
    (inst : option InstallationBase) : option (bool * option error) :=
  match inst with
  | None => Some (true, None)
  | Some inst =>
    checkImports
      (match fuel with
       | O => fun _ _ => None
       | S fuel' => CheckCompletedSiblingDependents fuel'
       end)
      contextName inst (inst_Spec_Imports_Data (Info inst))
  end.

(** [CheckCompletedSiblingDependentsOfParent] checks if siblings and
    siblings of the parent's parents that the parent depends on are
    completed. *)
Fixpoint CheckCompletedSiblingDependentsOfParent (fuel : nat)
    (parent : option InstallationBase) : option (bool * option error) :=
  match parent with
  | None => Some (true, None)
  | Some parent =>
    match fuel with
    | O => None
    | S fuel' =>
      let parentCtxName := GetInstallationContextName kubeClient (Info parent) in
      match CheckCompletedSiblingDependents fuel' parentCtxName (Some parent) with
      | None => None
      | Some (_, Some err) => Some (false, Some err)
      | Some (false, None) => Some (false, None)
      | Some (true, None) =>
        match GetParent kubeClient (Info parent) with
        | inr err => Some (false, Some (Wrapf "unable to get parent of parent" err))
        | inl None => Some (true, None)
        | inl (Some parentsParentInst) =>
          CheckCompletedSiblingDependentsOfParent fuel'
            (Some (NewInstallationBase parentsParentInst))
        end
      end
    end
  end.

End Resolver.
End imports.

(* ===================================================================== *)
(** ** The execution controller *)
(* ===================================================================== *)

Module execution.

(** Modelled from the spec: [lsv1alpha1.Error], the error recorded in a
    status, is declared outside the given sources.  Times are nanoseconds,
    as a Go [time.Duration] counts them. *)
Record Error := {
  Operation : string;
  Reason : string;
  Message : string;
  Codes : list string;
  LastTransitionTime : Z;
  LastUpdateTime : Z
}.

Record ExecutionStatus := {
  ObservedGeneration : Z;
  Phase : lsv1alpha1.Phase;
  LastError : option Error
}.

Record Execution := {
  Name : string;
  Namespace : string;
  Generation : Z;
  Annotations : gmap string string;
  Finalizers : list string;
  DeletionTimestamp : option Z;
  Status : ExecutionStatus
}.

#[global] Instance Error_eq_dec : EqDecision Error.
Proof. solve_decision. Defined.
#[global] Instance ExecutionStatus_eq_dec : EqDecision ExecutionStatus.
Proof. solve_decision. Defined.

(** Modelled from the spec: [lserrors.LsError], [NewError] and
    [NewWrappedError] are declared outside the given sources; an error of
    the landscaper carries its operation, reason and message, and possibly
    the error that caused it. *)
Record LsError := {
  ls_Operation : string;
  ls_Reason : string;
  ls_Message : string;
  ls_Cause : option error
}.

Definition NewError (operation reason message : string) : LsError :=
  {| ls_Operation := operation; ls_Reason := reason; ls_Message := message; ls_Cause := None |}.

Definition NewWrappedError (err : error) (operation reason message : string) : LsError :=
  {| ls_Operation := operation; ls_Reason := reason; ls_Message := message; ls_Cause := Some err |}.

(** What [Reconcile] hands back to the work queue: the error of a write
    to the cluster or a landscaper error. *)
Inductive reconcileError :=
| ApiErr (err : error)
| LsErr (err : LsError).

(** [err.Error()] *)
Fixpoint Error_string (err : error) : string :=
  match err with
  | ApiError _ msg => msg
  | Wrapf prefix inner => prefix ++ ": " ++ Error_string inner
  end.

Definition IsNotFound (err : error) : bool :=
  match err with ApiError ReasonNotFound _ => true | _ => false end.

Definition IsConflict (err : error) : bool :=
  match err with ApiError ReasonConflict _ => true | _ => false end.

(** *** Constants and predicates of [lsv1alpha1] and its helper *)

(** Modelled from the spec: the annotation keys, the operations and the
    finalizer are constants of [lsv1alpha1], declared outside the given
    sources; only that they are pairwise different matters below. *)
Definition OperationAnnotation : string := "landscaper.gardener.cloud/operation".
Definition IgnoreAnnotation : string := "landscaper.gardener.cloud/ignore".
Definition ReconcileOperation : string := "reconcile".
Definition ForceReconcileOperation : string := "force-reconcile".
Definition LandscaperFinalizer : string := "finalizer.landscaper.gardener.cloud".
Definition EventTypeWarning : string := "Warning".

Definition Second : Z := 1000000000.
Definition Minute : Z := 60 * Second.

(** Modelled from the spec: [HasOperation] is declared outside the given
    sources.  The operation requested of the controller is the value of
    the one annotation [OperationAnnotation], which is the key that both
    [HandleAnnotationsAndGeneration] and [removeForceReconcileAnnotation]
    delete. *)
Definition HasOperation (exec : Execution) (op : string) : bool :=
  bool_decide (Annotations exec !! OperationAnnotation = Some op).

(** Modelled from the spec: [HasIgnoreAnnotation] is declared outside the
    given sources; the ignore annotation is set when its value is true. *)
Definition HasIgnoreAnnotation (exec : Execution) : bool :=
  bool_decide (Annotations exec !! IgnoreAnnotation = Some "true").

(** Modelled from the spec: [IsCompletedExecutionPhase] is declared
    outside the given sources; the specification says it classifies
    [Completed], and only [Completed], as completed. *)
Definition IsCompletedExecutionPhase (phase : lsv1alpha1.Phase) : bool :=
  bool_decide (phase = PhaseCompleted).

(** [exec.DeletionTimestamp.IsZero()] *)
Definition IsZero (t : option Z) : bool :=
  match t with
  | None => true
  | Some t => bool_decide (t = 0%Z)
  end.

Definition HasFinalizer (exec : Execution) (finalizer : string) : bool :=
  bool_decide (finalizer ∈ Finalizers exec).

Definition set_Status (exec : Execution) (st : ExecutionStatus) : Execution :=
  {| Name := Name exec; Namespace := Namespace exec; Generation := Generation exec;
     Annotations := Annotations exec; Finalizers := Finalizers exec;
     DeletionTimestamp := DeletionTimestamp exec; Status := st |}.

Definition set_Annotations (exec : Execution) (a : gmap string string) : Execution :=
  {| Name := Name exec; Namespace := Namespace exec; Generation := Generation exec;
     Annotations := a; Finalizers := Finalizers exec;
     DeletionTimestamp := DeletionTimestamp exec; Status := Status exec |}.

(** [controllerutil.AddFinalizer] *)
Definition AddFinalizer (exec : Execution) (finalizer : string) : Execution :=
  if HasFinalizer exec finalizer then exec
  else
    {| Name := Name exec; Namespace := Namespace exec; Generation := Generation exec;
       Annotations := Annotations exec; Finalizers := Finalizers exec ++ [finalizer];
       DeletionTimestamp := DeletionTimestamp exec; Status := Status exec |}.

(** *** The error and backoff policy ([lserrors]) *)

(** Modelled from the spec: [TryUpdateLsError] is declared outside the
    given sources.  It merges the new error into the recorded one: the
    merged error carries the new operation, reason and message and is
    updated at [now]; it keeps the time at which the recorded error was
    first seen when that is the same error (the same operation), and
    starts at [now] otherwise. *)
Definition TryUpdateLsError (now : Z) (lastErr : option Error) (err : LsError) : option Error :=
  Some {| Operation := ls_Operation err;
          Reason := ls_Reason err;
          Message := ls_Message err;
          Codes := [];
          LastTransitionTime :=
            match lastErr with
            | Some l => if bool_decide (Operation l = ls_Operation err)
                        then LastTransitionTime l else now
            | None => now
            end;
          LastUpdateTime := now |}.

(** How long the recorded error has persisted. *)
Definition persistedFor (e : Error) : Z := LastUpdateTime e - LastTransitionTime e.

(** Modelled from the spec: [GetPhaseForLastError] is declared outside
    the given sources.  Without an error the phase stands; the phase
    escalates to [Failed] only once the error has persisted past the
    threshold, and stands as long as it has not. *)
Definition GetPhaseForLastError (phase : lsv1alpha1.Phase) (lastError : option Error) (d : Z)
    : lsv1alpha1.Phase :=
  match lastError with
  | None => phase
  | Some e => if bool_decide (d < persistedFor e)%Z then PhaseFailed else phase
  end.

(** *** Effects *)

(** The identifiers of the write calls ([read_write_layer]). *)
Inductive WriteID := W000025 | W000027 | W000029 | W000031 | W000033.

#[global] Instance WriteID_eq_dec : EqDecision WriteID.
Proof. solve_decision. Defined.

(** What one invocation does to the outside, in order: writes to the
    cluster (with the object as written), events, and the calls into the
    execution operation (with the object as handed over). *)
Inductive effect :=
| UpdateExecutionStatus (id : WriteID) (exec : Execution)
| UpdateExecution (id : WriteID) (exec : Execution)
| PatchExecution (id : WriteID) (exec old : Execution)
| Event (exec : Execution) (eventtype reason message : string)
| OpDelete (forceReconcile : bool) (exec : Execution)
| OpHandleDeployItemPhaseAndGenerationChanges (forceReconcile : bool) (exec : Execution)
| OpReconcile (forceReconcile : bool) (exec : Execution).

Definition isStatusWrite (e : effect) : bool :=
  match e with UpdateExecutionStatus _ _ => true | _ => false end.

Definition isWrite (e : effect) : bool :=
  match e with
  | UpdateExecutionStatus _ _ | UpdateExecution _ _ | PatchExecution _ _ _ => true
  | _ => false
  end.

Definition isEvent (e : effect) : bool :=
  match e with Event _ _ _ _ => true | _ => false end.

Definition isOpCall (e : effect) : bool :=
  match e with
  | OpDelete _ _ | OpHandleDeployItemPhaseAndGenerationChanges _ _ | OpReconcile _ _ => true
  | _ => false
  end.

(** The execution an operation call was handed. *)
Definition opCallExec (e : effect) : option Execution :=
  match e with
  | OpDelete _ x | OpHandleDeployItemPhaseAndGenerationChanges _ x | OpReconcile _ x => Some x
  | _ => None
  end.

(** The collaborators of the controller: the API server, which accepts a
    write or answers with an error; the clock; and the execution
    operation, whose methods change the execution they were created with
    and may fail. *)
Record Cluster := {
  GetExecution : ObjectReference -> Execution + error;
  writeError : WriteID -> option error;
  Now : Z;
  op_Delete : bool -> Execution -> Execution * option LsError;
  op_HandleDeployItemPhaseAndGenerationChanges : bool -> Execution -> Execution * option error;
  op_Reconcile : bool -> Execution -> Execution * option LsError
}.

(** The execution object behind the pointer [exec] and the effects so
    far are threaded through the calls. *)
Definition state : Type := Execution * list effect.
Definition M (A : Type) : Type := state -> A * state.

#[global] Instance M_ret : MRet M := fun A (a : A) (s : state) => (a, s).
#[global] Instance M_bind : MBind M :=
  fun A B (f : A -> M B) (m : M A) (s : state) => let '(a, s') := m s in f a s'.

Definition getExec : M Execution := fun s => (s.1, s).
Definition setExec (exec : Execution) : M unit := fun s => (tt, (exec, s.2)).
Definition emit (e : effect) : M unit := fun s => (tt, (s.1, (s.2 ++ [e])%list)).

Section Controller.
Context (c : Cluster).

(** The writer of [read_write_layer]: the write goes to the API server
    with the object as it is now, and the server's verdict comes back. *)
Definition Writer_UpdateExecutionStatus (id : WriteID) : M (option error) :=
  exec ← getExec; _ ← emit (UpdateExecutionStatus id exec); mret (writeError c id).

Definition Writer_UpdateExecution (id : WriteID) : M (option error) :=
  exec ← getExec; _ ← emit (UpdateExecution id exec); mret (writeError c id).

Definition Writer_PatchExecution (id : WriteID) (old : Execution) : M (option error) :=
  exec ← getExec; _ ← emit (PatchExecution id exec old); mret (writeError c id).

Definition eventRecorder_Event (eventtype reason message : string) : M unit :=
  exec ← getExec; emit (Event exec eventtype reason message).

(** The methods of the operation created by [execution.NewOperation]
    for [exec] with the flag [forceReconcile]. *)
Definition Operation_Delete (forceReconcile : bool) : M (option LsError) :=
  exec ← getExec; _ ← emit (OpDelete forceReconcile exec);
  let '(exec', err) := op_Delete c forceReconcile exec in
  _ ← setExec exec'; mret err.

Definition Operation_HandleDeployItemPhaseAndGenerationChanges (forceReconcile : bool)
    : M (option error) :=
  exec ← getExec; _ ← emit (OpHandleDeployItemPhaseAndGenerationChanges forceReconcile exec);
  let '(exec', err) := op_HandleDeployItemPhaseAndGenerationChanges c forceReconcile exec in
  _ ← setExec exec'; mret err.

Definition Operation_Reconcile (forceReconcile : bool) : M (option LsError) :=
  exec ← getExec; _ ← emit (OpReconcile forceReconcile exec);
  let '(exec', err) := op_Reconcile c forceReconcile exec in
  _ ← setExec exec'; mret err.

(** [HandleAnnotationsAndGeneration] is meant to be called at the
    beginning of the reconcile loop.  If a reconcile is needed due to
    the reconcile annotation or a change in the generation, it sets the
    phase to Init and removes the reconcile annotation. *)
Definition HandleAnnotationsAndGeneration : M (option LsError) :=
  let operation := "HandleAnnotationsAndGeneration" in
  exec ← getExec;
  let hasReconcileAnnotation := HasOperation exec ReconcileOperation in
  let hasForceReconcileAnnotation := HasOperation exec ForceReconcileOperation in
  err ← (if hasReconcileAnnotation || hasForceReconcileAnnotation
            || bool_decide (ObservedGeneration (Status exec) ≠ Generation exec)
         then
           _ ← setExec (set_Status exec
                  {| ObservedGeneration := Generation exec;
                     Phase := PhaseInit;
                     LastError := LastError (Status exec) |});
           err ← Writer_UpdateExecutionStatus W000033;
           mret (match err with
                 | Some err => Some (NewWrappedError err operation "update execution status"
                                       (Error_string err))
                 | None => None
                 end)
         else mret None);
  match err with
  | Some err => mret (Some err)
  | None =>
    if hasReconcileAnnotation then
      exec ← getExec;
      _ ← setExec (set_Annotations exec (delete OperationAnnotation (Annotations exec)));
      err ← Writer_UpdateExecution W000027;
      mret (match err with
            | Some err => Some (NewWrappedError err operation "update execution"
                                  (Error_string err))
            | None => None
            end)
    else mret None
  end.

Definition Ensure : M (option LsError) :=
  err ← HandleAnnotationsAndGeneration;
  match err with
  | Some err => mret (Some err)
  | None =>
    exec ← getExec;
    err ← (if IsZero (DeletionTimestamp exec) && negb (HasFinalizer exec LandscaperFinalizer)
           then
             _ ← setExec (AddFinalizer exec LandscaperFinalizer);
             err ← Writer_UpdateExecution W000025;
             mret (match err with
                   | Some err => Some (NewError "Reconcile" "AddFinalizer" (Error_string err))
                   | None => None
                   end)
           else mret None);
    match err with
    | Some err => mret (Some err)
    | None =>
      exec ← getExec;
      let forceReconcile := HasOperation exec ForceReconcileOperation in
      if negb (IsZero (DeletionTimestamp exec)) then Operation_Delete forceReconcile
      else if IsCompletedExecutionPhase (Phase (Status exec)) then
        err ← Operation_HandleDeployItemPhaseAndGenerationChanges forceReconcile;
        match err with
        | Some err =>
          mret (Some (NewWrappedError err "Reconcile"
                        "HandleDeployItemPhaseAndGenerationChanges" (Error_string err)))
        | None =>
          exec ← getExec;
          if IsCompletedExecutionPhase (Phase (Status exec)) then mret None
          else Operation_Reconcile forceReconcile
        end
      else Operation_Reconcile forceReconcile
    end
  end.

Definition removeForceReconcileAnnotation : M (option LsError) :=
  exec ← getExec;
  if HasOperation exec ForceReconcileOperation then
    let old := exec in
    _ ← setExec (set_Annotations exec (delete OperationAnnotation (Annotations exec)));
    err ← Writer_PatchExecution W000029 old;
    match err with
    | Some err =>
      _ ← eventRecorder_Event EventTypeWarning "RemoveForceReconcileAnnotation" (Error_string err);
      mret (Some (NewWrappedError err "Reconcile" "RemoveForceReconcileAnnotation"
                    (Error_string err)))
    | None => mret None
    end
  else mret None.

Definition handleError (err : option LsError) (oldExec : Execution) (isDelete : bool)
    : M (option reconcileError) :=
  if isDelete && bool_decide (err = None :> option LsError) then mret None
  else
    _ ← match err with
        | Some err' =>
          exec ← getExec;
          setExec (set_Status exec
             {| ObservedGeneration := ObservedGeneration (Status exec);
                Phase := Phase (Status exec);
                LastError := TryUpdateLsError (Now c) (LastError (Status exec)) err' |})
        | None => mret tt
        end;
    exec ← getExec;
    _ ← setExec (set_Status exec
           {| ObservedGeneration := ObservedGeneration (Status exec);
              Phase := GetPhaseForLastError (Phase (Status exec)) (LastError (Status exec))
                         (5 * Minute);
              LastError := LastError (Status exec) |});
    exec ← getExec;
    _ ← match LastError (Status exec) with
        | Some lastErr => eventRecorder_Event EventTypeWarning (Reason lastErr) (Message lastErr)
        | None => mret tt
        end;
    if bool_decide (Status oldExec ≠ Status exec) then
      updateErr ← Writer_UpdateExecutionStatus W000031;
      match updateErr with
      | Some updateErr => mret (Some (ApiErr updateErr))
      | None => mret (LsErr <$> err)
      end
    else mret (LsErr <$> err).

(** [Reconcile]: the error handed to the work queue, the execution as
    it is at the end (if one was fetched) and the effects of the
    invocation. *)
Definition Reconcile (req : ObjectReference)
    : option reconcileError * option Execution * list effect :=
  match GetExecution c req with
  | inr err =>
    if IsNotFound err then (None, None, [])
    else (Some (ApiErr err), None, [])
  | inl exec =>
    (* don't reconcile if ignore annotation is set and execution is not currently running *)
    if HasIgnoreAnnotation exec && IsCompletedExecutionPhase (Phase (Status exec))
    then (None, Some exec, [])
    else
      let oldExec := exec in
      let '(err, (exec', effects)) :=
        (lsError ← Ensure;
         lsErr2 ← removeForceReconcileAnnotation;
         (* lsError is more important than lsErr2 *)
         let lsError := match lsError with
                        | None => lsErr2
                        | Some _ => lsError
                        end in
         exec ← getExec;
         let isDelete := negb (IsZero (DeletionTimestamp exec)) in
         handleError lsError oldExec isDelete) (exec, []) in
      (err, Some exec', effects)
  end.

End Controller.
End execution.

(* ===================================================================== *)
(** ** The export constructor *)
(* ===================================================================== *)

Module exports.
Import lsv1alpha1helper.

(** Modelled from the spec: [lsv1alpha1.DataObjectSourceType] and its
    constants are declared outside the given sources; in Go it is a type
    of strings.  The tests of the constructor name one source type,
    [ExportDataObjectSourceType], and expect it on every data object that
    [Construct] returns, whether its value was produced by the execution
    or by another installation. *)
Definition DataObjectSourceType : Type := string.
Definition ExportDataObjectSourceType : DataObjectSourceType := "export".

Record DataObject := {
  Key : string;
  Data : string;
  Metadata_SourceType : DataObjectSourceType;
  SourceRef : option ObjectReference
}.

(** What [Construct] reads for an installation: the export keys it
    declares, in order; the values its own execution produced; and the
    installations sharing its parent context, each with the values it
    currently exports. *)
Record Context := {
  declaredExports : list string;
  executionOutput : gmap string string;
  siblings : list (Installation * gmap string string)
}.

Definition refOf (inst : Installation) : ObjectReference :=
  {| ref_Name := inst_Name inst; ref_Namespace := inst_Namespace inst |}.

(** The completed siblings that export the key, each with its value. *)
Fixpoint exporters (key : string) (sibs : list (Installation * gmap string string))
    : list (Installation * string) :=
  match sibs with
  | [] => []
  | (sib, exported) :: rest =>
    if IsCompletedInstallationPhase (inst_Status_Phase sib) then
      match exported !! key with
      | Some v => (sib, v) :: exporters key rest
      | None => exporters key rest
      end
    else exporters key rest
  end.

(** Modelled from the spec: the search among the completed siblings for
    one that exports the key (step 2 of the Export Constructor), which is
    not part of the given sources.  A key without a source is an error
    (step 4), and so is a key that two siblings export: duplicate keys
    from different sources are a conflict. *)
Definition fromSiblings (key : string) (sibs : list (Installation * gmap string string))
    : DataObject + error :=
  match exporters key sibs with
  | [] => inr (ApiError ReasonOther (String.append "no source for export " key))
  | [(sib, v)] =>
    inl {| Key := key; Data := v;
           Metadata_SourceType := ExportDataObjectSourceType;
           SourceRef := Some (refOf sib) |}
  | _ :: _ :: _ => inr (ApiError ReasonOther (String.append "more than one source for export " key))
  end.

(** Modelled from the spec: the source of one declared export key.  The
    value of the installation's own execution has priority over the value
    of a sibling (step 3). *)
Definition resolveKey (ctx : Context) (key : string) : DataObject + error :=
  match executionOutput ctx !! key with
  | Some v => inl {| Key := key; Data := v;
                     Metadata_SourceType := ExportDataObjectSourceType;
                     SourceRef := None |}
  | None => fromSiblings key (siblings ctx)
  end.

(** Modelled from the spec: [Construct] itself is not part of the given
    sources (only its tests are).  The declared export keys are resolved
    in their order (step 5); the keys of the emitted set are unique, so
    that a key declared twice is a conflict; the construction fails with
    the first key that has no source or more than one. *)
Fixpoint constructKeys (ctx : Context) (keys : list string) : list DataObject + error :=
  match keys with
  | [] => inl []
  | key :: rest =>
    if bool_decide (key ∈ rest)
    then inr (ApiError ReasonOther (String.append "export declared twice " key))
    else
      match resolveKey ctx key with
      | inr err => inr err
      | inl do =>
        match constructKeys ctx rest with
        | inl dos => inl (do :: dos)
        | inr err => inr err
        end
      end
  end.

Definition Construct (ctx : Context) : list DataObject + error :=
  constructKeys ctx (declaredExports ctx).

(** C7 as stated, for the export set of an installation whose
    execution produced [valExec] under [root.y] and whose sibling [b]
    exports [valB] under [root.z]: two data objects, the source type of
    the first telling that an execution produced it, the source type of
    the second that an installation exports it, with a reference to [b].
    The two source types are different values of the enumeration. *)
Definition attributedPerKey (res : list DataObject + error) (valExec valB : string)
    (b : Installation) : Prop :=
  exists y z,
    res = inl [y; z]
    /\ Key y = "root.y" /\ Data y = valExec
    /\ Key z = "root.z" /\ Data z = valB /\ SourceRef z = Some (refOf b)
    /\ Metadata_SourceType y <> Metadata_SourceType z.

End exports.

(* ===================================================================== *)
(** ** A fake client and stores of installations *)
(* ===================================================================== *)

Module fixtures.
Import imports lsv1alpha1helper.

(** The label that names the parent of an installation. *)
Definition EncompassedByLabel : string := "landscaper.gardener.cloud/encompassed-by".

(** A fake client over a list of installations, as the tests build one
    from their test data: an installation is found by name and namespace,
    its parent is named by the label [EncompassedByLabel]. *)
Definition fakeGet (objs : list Installation) (key : ObjectReference) : Installation + error :=
  match List.find (fun i => ReferenceIsObject key i) objs with
  | Some i => inl i
  | None => inr (ApiError ReasonNotFound (ref_Name key))
  end.

Definition fakeGetParent (objs : list Installation) (inst : Installation)
    : option Installation + error :=
  match inst_Labels inst !! EncompassedByLabel with
  | None => inl None
  | Some p =>
    match fakeGet objs {| ref_Name := p; ref_Namespace := inst_Namespace inst |} with
    | inl i => inl (Some i)
    | inr err => inr err
    end
  end.

Definition fakeClient (objs : list Installation) : Client :=
  {| Get := fakeGet objs;
     GetParent := fakeGetParent objs;
     GetDataImport := fun _ _ _ => inl None;
     GetInstallationContextName := fun inst =>
       match inst_Labels inst !! EncompassedByLabel with
       | None => ""
       | Some p => "Inst." ++ p
       end |}.

Definition mkInst (name : string) (parent : option string) (phase : Phase)
    (sources : list (string * string)) : Installation :=
  {| inst_Name := name;
     inst_Namespace := "test1";
     inst_Labels := match parent with
                    | Some p => {[ EncompassedByLabel := p ]}
                    | None => ∅
                    end;
     inst_Spec_Imports_Data :=
       (fun '(n, _) => {| di_Name := n; di_DataRef := n |}) <$> sources;
     inst_Status_Phase := phase;
     inst_Status_Imports :=
       (fun '(n, src) => {| is_Name := n;
                           is_SourceRef := Some {| ref_Name := src; ref_Namespace := "test1" |};
                           is_ConfigGeneration := "" |}) <$> sources |}.

Definition root := mkInst "root" None PhaseProgressing [].
Definition chain_c := mkInst "c" (Some "root") PhaseCompleted [("c.in", "root")].
Definition chain_b := mkInst "b" (Some "root") PhaseCompleted [("b.in", "c")].
Definition chain_a := mkInst "a" (Some "root") PhaseCompleted [("a.self", "a"); ("a.in", "b")].
Definition chainStore := [root; chain_a; chain_b; chain_c].

(** [a] imports from the completed [c], then from [b], which is still
    progressing. *)
Definition inc_c := mkInst "c" (Some "root") PhaseCompleted [].
Definition inc_b := mkInst "b" (Some "root") PhaseProgressing [].
Definition inc_a :=
  mkInst "a" (Some "root") PhaseCompleted [("a.c", "c"); ("a.b", "b"); ("a.later", "c")].
Definition incompleteStore := [root; inc_a; inc_b; inc_c].

(** [a] imports from an installation that is not in the store. *)
Definition lost_a := mkInst "a" (Some "root") PhaseCompleted [("a.gone", "gone")].
Definition lostStore := [root; lost_a].

(** [a] imports from the completed [b], whose own source [c] is not
    completed. *)
Definition deep_c := mkInst "c" (Some "root") PhaseProgressing [].
Definition deep_b := mkInst "b" (Some "root") PhaseCompleted [("b.in", "c")].
Definition deep_a := mkInst "a" (Some "root") PhaseCompleted [("a.in", "b")].
Definition deepStore := [root; deep_a; deep_b; deep_c].

(** Three levels: the grandparent [g] imports from its sibling [u], which
    is still progressing; the parent [p] of the installation at hand is a
    child of [g] and imports from its completed sibling [s]. *)
Definition up_u := mkInst "u" (Some "root") PhaseProgressing [].
Definition up_g := mkInst "g" (Some "root") PhaseProgressing [("g.in", "u")].
Definition up_s := mkInst "s" (Some "g") PhaseCompleted [].
Definition up_p := mkInst "p" (Some "g") PhaseProgressing [("p.in", "s")].
Definition upStore := [root; up_g; up_u; up_p; up_s].

(** Two completed installations importing from one another. *)
Definition cyc_a := mkInst "a" None PhaseCompleted [("a.in", "b")].
Definition cyc_b := mkInst "b" None PhaseCompleted [("b.in", "a")].
Definition cycleStore := [cyc_a; cyc_b].
End fixtures.


Module imports_spec.
Import imports lsv1alpha1helper.
Section Spec.
Context (kubeClient : Client).

(** The recursive call available to the loop with [fuel] left. *)
Definition recursiveCall (fuel : nat)
    : string -> option InstallationBase -> option (bool * option error) :=
  match fuel with
  | O => fun _ _ => None
  | S fuel' => CheckCompletedSiblingDependents kubeClient fuel'
  end.

(** The sibling installation a declared data import resolves to: its
    source reference is known, is neither the installation itself nor
    its direct parent, and the installation it names was fetched. *)
Definition siblingSource (contextName : string) (inst : InstallationBase)
    (dataImport : DataImport) : option Installation :=
  match getImportSource kubeClient contextName inst dataImport with
  | inl (Some sourceRef) =>
    if ReferenceIsObject sourceRef (Info inst) then None
    else
      match GetParent kubeClient (Info inst) with
      | inl parent =>
        if match parent with
           | Some p => ReferenceIsObject sourceRef p
           | None => false
           end
        then None
        else
          match Get kubeClient sourceRef with
          | inl sibling => Some sibling
          | inr _ => None
          end
      | inr _ => None
      end
  | _ => None
  end.

(** The error of the first store lookup that fails while a declared
    data import is resolved and its source fetched. *)
Definition lookupError (contextName : string) (inst : InstallationBase)
    (dataImport : DataImport) : option error :=
  match getImportSource kubeClient contextName inst dataImport with
  | inr err => Some err
  | inl None => None
  | inl (Some sourceRef) =>
    if ReferenceIsObject sourceRef (Info inst) then None
    else
      match GetParent kubeClient (Info inst) with
      | inr err => Some err
      | inl parent =>
        if match parent with
           | Some p => ReferenceIsObject sourceRef p
           | None => false
           end
        then None
        else
          match Get kubeClient sourceRef with
          | inl _ => None
          | inr err => Some err
          end
      end
  end.

(** The direct and transitive sibling dependencies of an installation. *)
Inductive dependsOn (contextName : string) : InstallationBase -> Installation -> Prop :=
| dependsOn_direct inst dataImport sibling :
    dataImport ∈ inst_Spec_Imports_Data (Info inst) ->
    siblingSource contextName inst dataImport = Some sibling ->
    dependsOn contextName inst sibling
| dependsOn_trans inst dataImport sibling sibling' :
    dataImport ∈ inst_Spec_Imports_Data (Info inst) ->
    siblingSource contextName inst dataImport = Some sibling ->
    dependsOn contextName (CreateInternalInstallationBase sibling) sibling' ->
    dependsOn contextName inst sibling'.

(** [CheckCompletedSiblingDependents] returns [r] on the installation. *)
Definition siblingsReturn (contextName : string) (inst : InstallationBase)
    (r : bool * option error) : Prop :=
  exists fuel, CheckCompletedSiblingDependents kubeClient fuel contextName (Some inst) = Some r.

(** The sibling dependents of an ancestor, checked under the
    ancestor's own context, are satisfied. *)
Definition satisfied (a : InstallationBase) : Prop :=
  siblingsReturn (GetInstallationContextName kubeClient (Info a)) a (true, None).

Definition unsatisfied (a : InstallationBase) : Prop :=
  siblingsReturn (GetInstallationContextName kubeClient (Info a)) a (false, None).

(** [CheckCompletedSiblingDependentsOfParent] returns [r]. *)
Definition parentReturns (parent : option InstallationBase) (r : bool * option error) : Prop :=
  exists fuel, CheckCompletedSiblingDependentsOfParent kubeClient fuel parent = Some r.

(** The parent and every further ancestor, reached by taking the
    parent's parent until no parent exists. *)
Inductive ancestors : InstallationBase -> list InstallationBase -> Prop :=
| ancestors_last parent :
    GetParent kubeClient (Info parent) = inl None ->
    ancestors parent [parent]
| ancestors_next parent parentsParentInst l :
    GetParent kubeClient (Info parent) = inl (Some parentsParentInst) ->
    ancestors (NewInstallationBase parentsParentInst) l ->
    ancestors parent (parent :: l).

(** Some ancestor level is unsatisfied while all levels below it are
    satisfied. *)
Inductive unsatisfiedLevel : InstallationBase -> Prop :=
| unsatisfied_here parent :
    unsatisfied parent -> unsatisfiedLevel parent
| unsatisfied_above parent parentsParentInst :
    satisfied parent ->
    GetParent kubeClient (Info parent) = inl (Some parentsParentInst) ->
    unsatisfiedLevel (NewInstallationBase parentsParentInst) ->
    unsatisfiedLevel parent.

(** The resolver recurses from an installation into a sibling source. *)
Definition recursesInto (contextName : string) (sibling inst : InstallationBase) : Prop :=
  exists dataImport s,
    dataImport ∈ inst_Spec_Imports_Data (Info inst) /\
    siblingSource contextName inst dataImport = Some s /\
    sibling = CreateInternalInstallationBase s.

(** The walk to the parent's parent. *)
Definition parentOf (pp p : InstallationBase) : Prop :=
  exists i, GetParent kubeClient (Info p) = inl (Some i) /\ pp = NewInstallationBase i.

(** The loop over the imports of the installation reaches the recursion
    into the completed sibling [sibling]: it is the source of an import,
    and no import before that one makes the loop return, whatever the
    depth of recursion allowed. *)
Definition reachesRecursion (contextName : string) (inst : InstallationBase)
    (sibling : Installation) : Prop :=
  exists pre dataImport post,
    inst_Spec_Imports_Data (Info inst) = (pre ++ dataImport :: post)%list
    /\ (forall fuel,
          Forall (fun d => forall r,
                    checkImport kubeClient (recursiveCall fuel) contextName inst d <> Return r)
            pre)
    /\ siblingSource contextName inst dataImport = Some sibling
    /\ inst_Status_Phase sibling = PhaseCompleted.

End Spec.
End imports_spec.

(* ===================================================================== *)
(** ** Notions used to state the properties of the controller *)
(* ===================================================================== *)

Module execution_spec.
Import execution.
Local Open Scope list_scope.

(** A reconcile is required: reconcile annotation, force-reconcile
    annotation or outdated generation. *)
Definition reconcileRequired (exec : Execution) : bool :=
  HasOperation exec ReconcileOperation || HasOperation exec ForceReconcileOperation
  || bool_decide (ObservedGeneration (Status exec) ≠ Generation exec).

(** The status [HandleAnnotationsAndGeneration] sets. *)
Definition normalizedStatus (exec : Execution) : ExecutionStatus :=
  {| ObservedGeneration := Generation exec;
     Phase := PhaseInit;
     LastError := LastError (Status exec) |}.

(** The flag an operation call was created with. *)
Definition opCallForce (e : effect) : option bool :=
  match e with
  | OpDelete f _ | OpHandleDeployItemPhaseAndGenerationChanges f _ | OpReconcile f _ => Some f
  | _ => None
  end.

Definition isPatch (e : effect) : bool :=
  match e with PatchExecution _ _ _ => true | _ => false end.

(** The part of [Ensure] that follows the finalizer: the operation is
    created and deletes, checks the deploy items, or reconciles. *)
Definition mainWork (c : Cluster) : M (option LsError) :=
  exec ← getExec;
  let forceReconcile := HasOperation exec ForceReconcileOperation in
  if negb (IsZero (DeletionTimestamp exec)) then Operation_Delete c forceReconcile
  else if IsCompletedExecutionPhase (Phase (Status exec)) then
    err ← Operation_HandleDeployItemPhaseAndGenerationChanges c forceReconcile;
    match err with
    | Some err =>
      mret (Some (NewWrappedError err "Reconcile"
                    "HandleDeployItemPhaseAndGenerationChanges" (Error_string err)))
    | None =>
      exec ← getExec;
      if IsCompletedExecutionPhase (Phase (Status exec)) then mret None
      else Operation_Reconcile c forceReconcile
    end
  else Operation_Reconcile c forceReconcile.

(** The error on record once [handleError] has merged the error of the
    invocation into it. *)
Definition mergedLastError (c : Cluster) (err : option LsError) (exec : Execution)
    : option Error :=
  match err with
  | Some err' => TryUpdateLsError (Now c) (LastError (Status exec)) err'
  | None => LastError (Status exec)
  end.

(** The status [handleError] arrives at. *)
Definition handledStatus (c : Cluster) (err : option LsError) (exec : Execution)
    : ExecutionStatus :=
  {| ObservedGeneration := ObservedGeneration (Status exec);
     Phase := GetPhaseForLastError (Phase (Status exec)) (mergedLastError c err exec) (5 * Minute);
     LastError := mergedLastError c err exec |}.

(** An effect that is neither a call of the operation, nor a patch, nor
    an event: an update of the execution or of its status. *)
Definition plainWrite (e : effect) : Prop :=
  isOpCall e = false /\ isPatch e = false /\ isEvent e = false.

(** The warning event for a recorded error. *)
Definition lastErrorEvents (exec : Execution) : list effect :=
  match LastError (Status exec) with
  | Some lastErr => [Event exec EventTypeWarning (Reason lastErr) (Message lastErr)]
  | None => []
  end.

(** What a write that the API server accepted leaves in the store: a
    status update replaces the status, an update or a patch replaces the
    rest of the object. *)
Definition applyWrite (c : Cluster) (stored : Execution) (e : effect) : Execution :=
  match e with
  | UpdateExecutionStatus id x =>
    match writeError c id with
    | None => set_Status stored (Status x)
    | Some _ => stored
    end
  | UpdateExecution id x | PatchExecution id x _ =>
    match writeError c id with
    | None => set_Status x (Status stored)
    | Some _ => stored
    end
  | _ => stored
  end.

#[global] Instance ObjectReference_eq_dec : EqDecision ObjectReference.
Proof. solve_decision. Defined.

(** The cluster as one invocation of [Reconcile] leaves it, nothing else
    changing: the execution is stored as the invocation wrote it. *)
Definition afterInvocation (c : Cluster) (req : ObjectReference) : Cluster :=
  match GetExecution c req with
  | inr _ => c
  | inl exec =>
    let stored := foldl (applyWrite c) exec (Reconcile c req).2 in
    {| GetExecution := fun r => if bool_decide (r = req) then inl stored else GetExecution c r;
       writeError := writeError c;
       Now := Now c;
       op_Delete := op_Delete c;
       op_HandleDeployItemPhaseAndGenerationChanges :=
         op_HandleDeployItemPhaseAndGenerationChanges c;
       op_Reconcile := op_Reconcile c |}
  end.

(** The execution operation leaves the annotations of the execution as
    they are. *)
Definition operationKeepsAnnotations (c : Cluster) : Prop :=
  (forall f x, Annotations (op_Delete c f x).1 = Annotations x)
  /\ (forall f x,
        Annotations (op_HandleDeployItemPhaseAndGenerationChanges c f x).1 = Annotations x)
  /\ (forall f x, Annotations (op_Reconcile c f x).1 = Annotations x).

(** An invocation performs no status write and emits no event. *)
Definition silent (effects : list effect) : Prop :=
  Forall (fun e => isStatusWrite e = false /\ isEvent e = false) effects.

(** The second of two invocations in succession is silent. *)
Definition secondInvocationSilent (c : Cluster) (req : ObjectReference) : Prop :=
  silent (Reconcile (afterInvocation c req) req).2.

End execution_spec.

(* ===================================================================== *)
(** ** A fake cluster and executions *)
(* ===================================================================== *)

Module execution_fixtures.
Import execution.

(** A cluster that stores one execution, rejects the writes [bad] names,
    and whose execution operation finds nothing to do. *)
Definition fakeCluster (exec : Execution) (bad : WriteID -> option error) : Cluster :=
  {| GetExecution := fun _ => inl exec;
     writeError := bad;
     Now := 1000 * Second;
     op_Delete := fun _ e => (e, None);
     op_HandleDeployItemPhaseAndGenerationChanges := fun _ e => (e, None);
     op_Reconcile := fun _ e => (e, None) |}.

Definition allAccepted : WriteID -> option error := fun _ => None.

Definition rejecting (id : WriteID) : WriteID -> option error :=
  fun id' => if bool_decide (id' = id) then Some (ApiError ReasonConflict "the object has been modified")
             else None.

Definition req : ObjectReference := {| ref_Name := "exec"; ref_Namespace := "test1" |}.

Definition mkExec (annotations : gmap string string) (finalizers : list string)
    (observed : Z) (phase : lsv1alpha1.Phase) (lastError : option Error) : Execution :=
  {| Name := "exec"; Namespace := "test1"; Generation := 3;
     Annotations := annotations; Finalizers := finalizers;
     DeletionTimestamp := None;
     Status := {| ObservedGeneration := observed; Phase := phase; LastError := lastError |} |}.

(** An error first seen a minute before it was last updated. *)
Definition recentError : Error :=
  {| Operation := "Reconcile";
     Reason := "HandleDeployItemPhaseAndGenerationChanges";
     Message := "deploy item not found";
     Codes := [];
     LastTransitionTime := 900 * Second;
     LastUpdateTime := 960 * Second |}.

(** Completed, up to date, nothing requested. *)
Definition settledExec : Execution :=
  mkExec ∅ [LandscaperFinalizer] 3 PhaseCompleted None.

(** Completed, up to date, nothing requested, with an error on record. *)
Definition settledWithError : Execution :=
  mkExec ∅ [LandscaperFinalizer] 3 PhaseCompleted (Some recentError).

Definition forceExec : Execution :=
  mkExec {[ OperationAnnotation := ForceReconcileOperation ]} [LandscaperFinalizer] 3
    PhaseCompleted None.

Definition reconcileExec : Execution :=
  mkExec {[ OperationAnnotation := ReconcileOperation ]} [LandscaperFinalizer] 3
    PhaseCompleted None.

(** Freshly created: no finalizer, generation not yet observed. *)
Definition newExec : Execution := mkExec ∅ [] 0 PhaseInit None.

(** Up to date and progressing, without the finalizer. *)
Definition bareExec : Execution := mkExec ∅ [] 3 PhaseProgressing None.

Definition failure : LsError := NewError "Reconcile" "DeployItems" "deploy item failed".

(** An error of the same operation first seen four hundred seconds before
    the clock of the fake cluster. *)
Definition oldError : Error :=
  {| Operation := "Reconcile";
     Reason := "DeployItems";
     Message := "deploy item failed";
     Codes := [];
     LastTransitionTime := 600 * Second;
     LastUpdateTime := 940 * Second |}.

Definition progressingRecent : Execution :=
  mkExec ∅ [LandscaperFinalizer] 3 PhaseProgressing (Some recentError).

(** Completed, up to date, nothing requested, with an error on record
    that has persisted past the threshold; and the same, escalated. *)
Definition settledWithOldError : Execution :=
  mkExec ∅ [LandscaperFinalizer] 3 PhaseCompleted (Some oldError).

Definition escalatedExec : Execution :=
  mkExec ∅ [LandscaperFinalizer] 3 PhaseFailed (Some oldError).

Definition progressingOld : Execution :=
  mkExec ∅ [LandscaperFinalizer] 3 PhaseProgressing (Some oldError).

(** An error of the same operation first seen exactly five minutes before
    the clock of the fake cluster. *)
Definition thresholdError : Error :=
  {| Operation := "Reconcile";
     Reason := "DeployItems";
     Message := "deploy item failed";
     Codes := [];
     LastTransitionTime := 700 * Second;
     LastUpdateTime := 940 * Second |}.

Definition progressingAtThreshold : Execution :=
  mkExec ∅ [LandscaperFinalizer] 3 PhaseProgressing (Some thresholdError).

End execution_fixtures.

(* ===================================================================== *)
(** ** An installation with an execution and a sibling that export *)
(* ===================================================================== *)

Module exports_fixtures.
Import exports fixtures.

(** The sibling [b], completed, exports [root.z]; the sibling [c] is still
    progressing and would export [root.z] as well. *)
Definition sibling_b : Installation := mkInst "b" (Some "root") PhaseCompleted [].
Definition sibling_c : Installation := mkInst "c" (Some "root") PhaseProgressing [].

(** The installation [root] declares the exports [root.y] and [root.z];
    its own execution produced [root.y] only. *)
Definition rootContext : Context :=
  {| declaredExports := ["root.y"; "root.z"];
     executionOutput := {[ "root.y" := "val-exec" ]};
     siblings := [(sibling_c, {[ "root.z" := "val-c" ]});
                  (sibling_b, {[ "root.z" := "val-b" ]})] |}.

(** As [rootContext], with a second completed sibling that exports
    [root.z]. *)
Definition sibling_d : Installation := mkInst "d" (Some "root") PhaseCompleted [].

Definition twoExportersContext : Context :=
  {| declaredExports := ["root.y"; "root.z"];
     executionOutput := {[ "root.y" := "val-exec" ]};
     siblings := [(sibling_b, {[ "root.z" := "val-b" ]});
                  (sibling_d, {[ "root.z" := "val-d" ]})] |}.

(** The three states of the tests of the constructor: [test2/root], whose
    execution produces both exports; [test1/root], whose exports come
    from the installations [b] and [c]; and [test3/root], with one export
    of the execution and one of the installation [a]. *)
Definition completed (name : string) : Installation :=
  mkInst name (Some "root") PhaseCompleted [].

Definition test2Root : Context :=
  {| declaredExports := ["root.y"; "root.z"];
     executionOutput := {[ "root.y" := "val-exec"; "root.z" := "val-exec" ]};
     siblings := [] |}.

Definition test1Root : Context :=
  {| declaredExports := ["root.y"; "root.z"];
     executionOutput := ∅;
     siblings := [(completed "b", {[ "root.z" := "val-b" ]});
                  (completed "c", {[ "root.y" := "val-c" ]})] |}.

Definition test3Root : Context :=
  {| declaredExports := ["root.y"; "root.z"];
     executionOutput := {[ "root.y" := "val-exec" ]};
     siblings := [(completed "a", {[ "root.z" := "val-a" ]})] |}.

End exports_fixtures.

(* ===================================================================== *)
(** ** The helm chart registry client ([GetChart]) *)
(* ===================================================================== *)

Module registry.

(** A layer of an OCI manifest, and the manifest, as far as [GetChart]
    reads them. *)
Record Descriptor := {
  MediaType : string;
  Digest : string
}.

Record Manifest := {
  Layers : list Descriptor
}.

(** The calls [GetChart] makes on the OCI client, in order. *)
Inductive call :=
| CallGetManifest (ref : string)
| CallFetch (ref : string) (desc : Descriptor).

(** An error of [GetChart]: one it makes itself with [errors.New], or the
    error of the OCI client or of the chart loader, passed on. *)
Inductive chartError :=
| ErrorsNew (msg : string)
| Passed (err : error).

(** The outcome of [GetChart]: a chart, an error, or the panic of an index
    out of range. *)
Inductive outcome (Chart : Type) :=
| Loaded (chart : Chart)
| Failed (err : chartError)
| IndexOutOfRange.
Arguments Loaded {Chart} chart.
Arguments Failed {Chart} err.
Arguments IndexOutOfRange {Chart}.

Section Client.
(** The charts of helm, the media type of a chart layer and the loader
    of chart archives are declared outside the given sources. *)
Context {Chart : Type}.
Context (HelmChartContentLayerMediaType : string).
Context (LoadArchive : list Byte.byte -> Chart + error).

(** [oci.Client], as [GetChart] uses it; [Fetch] gives what it wrote to
    the buffer. *)
Record ociClient := {
  oci_GetManifest : string -> Manifest + error;
  oci_Fetch : string -> Descriptor -> list Byte.byte + error
}.

Record Client := {
  oci : ociClient
}.

(** [GetChart] pulls a chart from a oci registry with the given ref. *)
Definition GetChart (c : Client) (ref : string) : outcome Chart * list call :=
  match oci_GetManifest (oci c) ref with
  | inr err => (Failed (Passed err), [CallGetManifest ref])
  | inl manifest =>
    if bool_decide (length (Layers manifest) ≠ 1)
    then (Failed (ErrorsNew "unexpected number of layers"), [CallGetManifest ref])
    else
      match Layers manifest !! 0 with
      | None => (IndexOutOfRange, [CallGetManifest ref])
      | Some layer0 =>
        if bool_decide (MediaType layer0 ≠ HelmChartContentLayerMediaType)
        then (Failed (ErrorsNew "unexpected media type of content"), [CallGetManifest ref])
        else
          match oci_Fetch (oci c) ref layer0 with
          | inr err => (Failed (Passed err), [CallGetManifest ref; CallFetch ref layer0])
          | inl data =>
            (match LoadArchive data with
             | inl chart => Loaded chart
             | inr err => Failed (Passed err)
             end,
             [CallGetManifest ref; CallFetch ref layer0])
          end
      end
  end.

End Client.
End registry.

(* ===================================================================== *)
(** ** Further notions and fixtures *)
(* ===================================================================== *)

Module more_spec.
Import imports imports_spec lsv1alpha1helper.
Local Open Scope list_scope.

(** The client with another [Get] and [GetParent]. *)
Definition withGetAndGetParent (kubeClient : Client)
    (get : ObjectReference -> Installation + error)
    (getParent : Installation -> option Installation + error) : Client :=
  {| Get := get;
     GetParent := getParent;
     GetDataImport := GetDataImport kubeClient;
     GetInstallationContextName := GetInstallationContextName kubeClient |}.

(** The source of the import is the installation itself or its direct
    parent, or the import has no installation as its source. *)
Definition fromSelfOrParent (kubeClient : Client) (contextName : string)
    (inst : InstallationBase) (dataImport : DataImport) : Prop :=
  match getImportSource kubeClient contextName inst dataImport with
  | inr _ => False
  | inl None => True
  | inl (Some sourceRef) =>
    ReferenceIsObject sourceRef (Info inst) = true
    \/ exists p, GetParent kubeClient (Info inst) = inl (Some p)
                 /\ ReferenceIsObject sourceRef p = true
  end.

(** No source is recorded for the import, and the store knows no owner of
    it, or one that is not an installation. *)
Definition manuallyProvided (kubeClient : Client) (contextName : string)
    (inst : InstallationBase) (dataImport : DataImport) : Prop :=
  match ImportStatus_Data inst !! di_Name dataImport with
  | Some st => is_SourceRef st = None
  | None => True
  end
  /\ match GetDataImport kubeClient contextName inst dataImport with
     | inr _ => False
     | inl None => True
     | inl (Some owner) => owner_Kind owner <> "Installation"
     end.

End more_spec.

Module execution_more_spec.
Import execution.

(** The update that persists the added finalizer. *)
Definition isFinalizerWrite (e : effect) : bool :=
  match e with UpdateExecution W000025 _ => true | _ => false end.

(** The status write at the end of the invocation. *)
Definition isFinalStatusWrite (e : effect) : bool :=
  match e with UpdateExecutionStatus W000031 _ => true | _ => false end.

Definition isDeleteCall (e : effect) : bool :=
  match e with OpDelete _ _ => true | _ => false end.

(** The error [Reconcile] hands to [handleError]: that of [Ensure], or
    else that of [removeForceReconcileAnnotation]. *)
Definition primaryError (c : Cluster) (exec : Execution) : option LsError :=
  let e := Ensure c (exec, []) in
  match e.1 with
  | Some err => Some err
  | None => (removeForceReconcileAnnotation c e.2).1
  end.

End execution_more_spec.

Module more_fixtures.
Import imports fixtures execution execution_fixtures registry.

(** A client that knows the owners of imports but cannot fetch any
    installation. *)
Definition ownersOnly (owner : option OwnerReference) : imports.Client :=
  {| Get := fun key => inr (ApiError ReasonNotFound (ref_Name key));
     GetParent := fun _ => inr (ApiError ReasonOther "no parents");
     GetDataImport := fun _ _ _ => inl owner;
     GetInstallationContextName := fun _ => "" |}.

(** An installation with two data imports and nothing recorded about
    them. *)
Definition manual_a : Installation :=
  {| inst_Name := "a"; inst_Namespace := "test1"; inst_Labels := ∅;
     inst_Spec_Imports_Data := [ {| di_Name := "a.x"; di_DataRef := "x" |};
                                 {| di_Name := "a.y"; di_DataRef := "y" |} ];
     inst_Status_Phase := PhaseProgressing;
     inst_Status_Imports := [] |}.

(** Marked for deletion, up to date, nothing requested. *)
Definition deletingExec : Execution :=
  {| Name := "exec"; Namespace := "test1"; Generation := 3;
     Annotations := ∅; Finalizers := [LandscaperFinalizer];
     DeletionTimestamp := Some 5%Z;
     Status := {| ObservedGeneration := 3; Phase := PhaseProgressing; LastError := None |} |}.

(** Completed and ignored, although marked for deletion and asked to
    reconcile. *)
Definition ignoredExec : Execution :=
  {| Name := "exec"; Namespace := "test1"; Generation := 3;
     Annotations := {[ IgnoreAnnotation := "true"; OperationAnnotation := ReconcileOperation ]};
     Finalizers := [LandscaperFinalizer];
     DeletionTimestamp := Some 5%Z;
     Status := {| ObservedGeneration := 2; Phase := PhaseCompleted; LastError := None |} |}.

(** A cluster whose execution operation fails the check of the deploy
    items. *)
Definition deployItemsFailing (exec : Execution) : Cluster :=
  {| GetExecution := fun _ => inl exec;
     writeError := allAccepted;
     Now := 1000 * Second;
     op_Delete := fun _ e => (e, None);
     op_HandleDeployItemPhaseAndGenerationChanges :=
       fun _ e => (e, Some (ApiError ReasonOther "deploy item not found"));
     op_Reconcile := fun _ e => (e, None) |}.

(** A cluster whose reconcile fails with [failure]. *)
Definition reconcileFailing (exec : Execution) (bad : WriteID -> option error) : Cluster :=
  {| GetExecution := fun _ => inl exec;
     writeError := bad;
     Now := 1000 * Second;
     op_Delete := fun _ e => (e, None);
     op_HandleDeployItemPhaseAndGenerationChanges := fun _ e => (e, None);
     op_Reconcile := fun _ e => (e, Some failure) |}.

(** Progressing, up to date, with the force-reconcile annotation. *)
Definition forceProgressing : Execution :=
  mkExec {[ OperationAnnotation := ForceReconcileOperation ]} [LandscaperFinalizer] 3
    PhaseProgressing None.

(** A registry that holds one chart of one layer. *)
Definition helmMediaType : string := "application/tar+gzip".
Definition chartLayer : Descriptor := {| MediaType := helmMediaType; Digest := "sha256:c" |}.
Definition configLayer : Descriptor := {| MediaType := "application/json"; Digest := "sha256:j" |}.

Definition fakeOci (layers : list Descriptor) : ociClient :=
  {| oci_GetManifest := fun _ => inl {| Layers := layers |};
     oci_Fetch := fun _ desc => inl [] |}.

Definition loadAny : list Byte.byte -> string + error := fun _ => inl "chart".

End more_fixtures.

Module imports_proofs.
Import imports imports_spec lsv1alpha1helper.
Local Open Scope list_scope.

Section Proofs.
Context (kubeClient : Client).

Abbreviation CheckSiblings := (CheckCompletedSiblingDependents kubeClient).
Abbreviation CheckOfParent := (CheckCompletedSiblingDependentsOfParent kubeClient).

Lemma Check_unfold fuel contextName inst :
  CheckSiblings fuel contextName (Some inst) =
  checkImports kubeClient (recursiveCall kubeClient fuel) contextName inst
    (inst_Spec_Imports_Data (Info inst)).
Proof. destruct fuel; reflexivity. Qed.

(** A loop step that returns never returns [true]. *)
Lemma checkImport_Return_false rec contextName inst d r :
  checkImport kubeClient rec contextName inst d = Return r -> r.1 = false.
Proof.
  unfold checkImport. intros H.
  repeat case_match; simplify_eq; reflexivity.
Qed.

Lemma checkImports_app rec contextName inst pre post :
  Forall (fun d => checkImport kubeClient rec contextName inst d = Continue) pre ->
  checkImports kubeClient rec contextName inst (pre ++ post) =
  checkImports kubeClient rec contextName inst post.
Proof.
  induction 1 as [|d pre Hd _ IH]; simpl; [reflexivity|].
  rewrite Hd. exact IH.
Qed.

Section Mono.
Variables rec1 rec2 : string -> option InstallationBase -> option (bool * option error).
Hypothesis rec_le : forall contextName inst r,
  rec1 contextName inst = Some r -> rec2 contextName inst = Some r.

Lemma checkImport_mono contextName inst d :
  checkImport kubeClient rec1 contextName inst d <> OutOfFuel ->
  checkImport kubeClient rec2 contextName inst d =
  checkImport kubeClient rec1 contextName inst d.
Proof.
  unfold checkImport.
  destruct (getImportSource _ _ _ _) as [[sourceRef|]|]; try reflexivity.
  destruct (ReferenceIsObject sourceRef (Info inst)); try reflexivity.
  destruct (GetParent _ _) as [parent|]; try reflexivity.
  destruct (match parent with Some p => _ | None => _ end); try reflexivity.
  destruct (Get _ _) as [sibling|]; try reflexivity.
  destruct (negb _); try reflexivity.
  cbv zeta.
  destruct (rec1 contextName _) as [r|] eqn:E1; [|congruence].
  intros _. rewrite (rec_le _ _ _ E1). reflexivity.
Qed.

Lemma checkImports_mono contextName inst data r :
  checkImports kubeClient rec1 contextName inst data = Some r ->
  checkImports kubeClient rec2 contextName inst data = Some r.
Proof.
  induction data as [|d data IH]; simpl; [done|].
  intros H.
  rewrite checkImport_mono by (intros E; rewrite E in H; discriminate).
  destruct (checkImport kubeClient rec1 contextName inst d); auto.
Qed.
End Mono.

Lemma Check_S fuel : forall contextName inst r,
  CheckSiblings fuel contextName inst = Some r -> CheckSiblings (S fuel) contextName inst = Some r.
Proof.
  induction fuel as [|fuel IH]; intros contextName [inst|] r H; try exact H.
  - rewrite Check_unfold in *.
    eapply checkImports_mono; [|exact H]. simpl. discriminate.
  - rewrite Check_unfold in *.
    eapply checkImports_mono; [|exact H]. exact IH.
Qed.

Lemma Check_le fuel fuel' contextName inst r :
  fuel <= fuel' ->
  CheckSiblings fuel contextName inst = Some r -> CheckSiblings fuel' contextName inst = Some r.
Proof. induction 1; auto using Check_S. Qed.

Lemma CheckOfParent_S fuel : forall parent r,
  CheckOfParent fuel parent = Some r -> CheckOfParent (S fuel) parent = Some r.
Proof.
  induction fuel as [|fuel IH]; intros [parent|] r H; try exact H; try discriminate.
  cbn [CheckCompletedSiblingDependentsOfParent] in H.
  destruct (CheckSiblings fuel _ (Some parent)) as [[b e]|] eqn:E; [|discriminate].
  change (CheckOfParent (S (S fuel)) (Some parent)) with
    (let parentCtxName := GetInstallationContextName kubeClient (Info parent) in
     match CheckSiblings (S fuel) parentCtxName (Some parent) with
     | None => None
     | Some (_, Some err) => Some (false, Some err)
     | Some (false, None) => Some (false, None)
     | Some (true, None) =>
       match GetParent kubeClient (Info parent) with
       | inr err => Some (false, Some (Wrapf "unable to get parent of parent" err))
       | inl None => Some (true, None)
       | inl (Some parentsParentInst) =>
         CheckOfParent (S fuel) (Some (NewInstallationBase parentsParentInst))
       end
     end).
  cbv zeta. rewrite (Check_S _ _ _ _ E).
  destruct e; [exact H|]. destruct b; [|exact H].
  destruct (GetParent kubeClient (Info parent)) as [[pp|]|]; auto.
Qed.

Lemma CheckOfParent_le fuel fuel' parent r :
  fuel <= fuel' ->
  CheckOfParent fuel parent = Some r -> CheckOfParent fuel' parent = Some r.
Proof. induction 1; auto using CheckOfParent_S. Qed.

Lemma siblingsReturn_det contextName inst r r' :
  siblingsReturn kubeClient contextName inst r ->
  siblingsReturn kubeClient contextName inst r' -> r = r'.
Proof.
  intros [f H] [f' H'].
  apply (Check_le _ (f `max` f')) in H; [|lia].
  apply (Check_le _ (f `max` f')) in H'; [|lia]. congruence.
Qed.


Lemma checkImports_true rec contextName inst data e :
  checkImports kubeClient rec contextName inst data = Some (true, e) ->
  e = None /\
  Forall (fun d => checkImport kubeClient rec contextName inst d = Continue) data.
Proof.
  induction data as [|d data IH]; simpl.
  - intros [= <-]. split; [reflexivity | constructor].
  - destruct (checkImport kubeClient rec contextName inst d) as [|r|] eqn:E; try discriminate.
    + intros H. destruct (IH H) as [-> Hall]. split; [reflexivity|]. by constructor.
    + intros [= ->]. apply checkImport_Return_false in E. discriminate.
Qed.

Lemma checkImport_incomplete rec contextName inst d sibling :
  siblingSource kubeClient contextName inst d = Some sibling ->
  inst_Status_Phase sibling <> PhaseCompleted ->
  checkImport kubeClient rec contextName inst d = Return (false, None).
Proof.
  unfold siblingSource, checkImport, IsCompletedInstallationPhase.
  intros H Hphase.
  destruct (getImportSource _ _ _ _) as [[sourceRef|]|]; try discriminate.
  destruct (ReferenceIsObject sourceRef (Info inst)); try discriminate.
  destruct (GetParent _ _) as [parent|]; try discriminate.
  destruct (match parent with Some p => _ | None => _ end); try discriminate.
  destruct (Get _ _) as [s|]; try discriminate.
  injection H as ->.
  rewrite bool_decide_eq_false_2 by assumption. reflexivity.
Qed.

Lemma checkImport_completed rec contextName inst d sibling :
  siblingSource kubeClient contextName inst d = Some sibling ->
  inst_Status_Phase sibling = PhaseCompleted ->
  checkImport kubeClient rec contextName inst d =
  match rec contextName (Some (CreateInternalInstallationBase sibling)) with
  | None => OutOfFuel
  | Some (_, Some err) => Return (false, Some err)
  | Some (false, None) => Return (false, None)
  | Some (true, None) => Continue
  end.
Proof.
  unfold siblingSource, checkImport, IsCompletedInstallationPhase.
  intros H Hphase.
  destruct (getImportSource _ _ _ _) as [[sourceRef|]|]; try discriminate.
  destruct (ReferenceIsObject sourceRef (Info inst)); try discriminate.
  destruct (GetParent _ _) as [parent|]; try discriminate.
  destruct (match parent with Some p => _ | None => _ end); try discriminate.
  destruct (Get _ _) as [s|]; try discriminate.
  injection H as ->.
  rewrite bool_decide_eq_true_2 by assumption. reflexivity.
Qed.

Lemma checkImport_lookupError rec contextName inst d err :
  lookupError kubeClient contextName inst d = Some err ->
  checkImport kubeClient rec contextName inst d = Return (false, Some err).
Proof.
  unfold lookupError, checkImport.
  intros H.
  destruct (getImportSource _ _ _ _) as [[sourceRef|]|]; simplify_eq; try reflexivity.
  destruct (ReferenceIsObject sourceRef (Info inst)); try discriminate.
  destruct (GetParent _ _) as [parent|]; simplify_eq; try reflexivity.
  destruct (match parent with Some p => _ | None => _ end); try discriminate.
  destruct (Get _ _) as [s|]; simplify_eq; reflexivity.
Qed.

(** A sibling source that let the loop continue is completed, and the
    recursive check on it reported satisfied. *)
Lemma checkImport_Continue_sibling rec contextName inst d sibling :
  siblingSource kubeClient contextName inst d = Some sibling ->
  checkImport kubeClient rec contextName inst d = Continue ->
  inst_Status_Phase sibling = PhaseCompleted /\
  rec contextName (Some (CreateInternalInstallationBase sibling)) = Some (true, None).
Proof.
  intros Hsrc Hstep.
  destruct (decide (inst_Status_Phase sibling = PhaseCompleted)) as [Hc|Hc].
  - split; [exact Hc|].
    rewrite (checkImport_completed _ _ _ _ _ Hsrc Hc) in Hstep.
    destruct (rec contextName _) as [[[] []]|]; congruence.
  - rewrite (checkImport_incomplete _ _ _ _ _ Hsrc Hc) in Hstep. discriminate.
Qed.

Lemma checkImports_false_on_member rec contextName inst data d r0 r :
  d ∈ data ->
  checkImport kubeClient rec contextName inst d = Return r0 ->
  checkImports kubeClient rec contextName inst data = Some r ->
  r.1 = false.
Proof.
  intros Hin Hd Hr. destruct r as [[] e]; [|reflexivity].
  apply checkImports_true in Hr as [_ Hall].
  rewrite Forall_forall in Hall. rewrite (Hall d Hin) in Hd. discriminate.
Qed.

(** C1. Every declared data import of an installation that resolves to a
    sibling whose phase is not Completed makes
    [CheckCompletedSiblingDependents] fail: reached after the imports
    before it passed, it returns [(false, nil)] at once, whatever imports
    follow; wherever it stands in the list, no result of the check is
    [true]. A store lookup that fails while an import is resolved aborts
    the check with [(false, that error)], as does an error of the check of
    a sibling; a result that carries an error is never [true]. *)
Theorem incomplete_sibling_short_circuits contextName inst :
  (forall fuel pre dataImport post sibling,
      inst_Spec_Imports_Data (Info inst) = pre ++ dataImport :: post ->
      Forall (fun d => checkImport kubeClient (recursiveCall kubeClient fuel)
                         contextName inst d = Continue) pre ->
      siblingSource kubeClient contextName inst dataImport = Some sibling ->
      inst_Status_Phase sibling <> PhaseCompleted ->
      CheckSiblings fuel contextName (Some inst) = Some (false, None))
  /\ (forall fuel dataImport sibling r,
      dataImport ∈ inst_Spec_Imports_Data (Info inst) ->
      siblingSource kubeClient contextName inst dataImport = Some sibling ->
      inst_Status_Phase sibling <> PhaseCompleted ->
      CheckSiblings fuel contextName (Some inst) = Some r ->
      r.1 = false)
  /\ (forall fuel pre dataImport post err,
      inst_Spec_Imports_Data (Info inst) = pre ++ dataImport :: post ->
      Forall (fun d => checkImport kubeClient (recursiveCall kubeClient fuel)
                         contextName inst d = Continue) pre ->
      lookupError kubeClient contextName inst dataImport = Some err ->
      CheckSiblings fuel contextName (Some inst) = Some (false, Some err))
  /\ (forall fuel pre dataImport post sibling b err,
      inst_Spec_Imports_Data (Info inst) = pre ++ dataImport :: post ->
      Forall (fun d => checkImport kubeClient (recursiveCall kubeClient (S fuel))
                         contextName inst d = Continue) pre ->
      siblingSource kubeClient contextName inst dataImport = Some sibling ->
      inst_Status_Phase sibling = PhaseCompleted ->
      CheckSiblings fuel contextName (Some (CreateInternalInstallationBase sibling)) = Some (b, Some err) ->
      CheckSiblings (S fuel) contextName (Some inst) = Some (false, Some err))
  /\ (forall fuel b err,
      CheckSiblings fuel contextName (Some inst) = Some (b, Some err) -> b = false).
Proof.
  repeat split.
  - intros fuel pre d post sibling Hdata Hpre Hsrc Hphase.
    rewrite Check_unfold, Hdata, checkImports_app by assumption.
    simpl. by rewrite (checkImport_incomplete _ _ _ _ _ Hsrc Hphase).
  - intros fuel d sibling r Hin Hsrc Hphase Hr.
    rewrite Check_unfold in Hr.
    eapply checkImports_false_on_member; [exact Hin| |exact Hr].
    by apply checkImport_incomplete with (sibling := sibling).
  - intros fuel pre d post err Hdata Hpre Herr.
    rewrite Check_unfold, Hdata, checkImports_app by assumption.
    simpl. by rewrite (checkImport_lookupError _ _ _ _ _ Herr).
  - intros fuel pre d post sibling b err Hdata Hpre Hsrc Hphase Hrec.
    rewrite Check_unfold, Hdata, checkImports_app by assumption.
    simpl. rewrite (checkImport_completed _ _ _ _ _ Hsrc Hphase).
    simpl. rewrite Hrec. by destruct b.
  - intros fuel [] err H; [|reflexivity].
    rewrite Check_unfold in H. apply checkImports_true in H as [[=] _].
Qed.

Lemma Check_true_sibling fuel contextName inst dataImport sibling :
  CheckSiblings fuel contextName (Some inst) = Some (true, None) ->
  dataImport ∈ inst_Spec_Imports_Data (Info inst) ->
  siblingSource kubeClient contextName inst dataImport = Some sibling ->
  inst_Status_Phase sibling = PhaseCompleted /\
  exists fuel', fuel = S fuel' /\
    CheckSiblings fuel' contextName (Some (CreateInternalInstallationBase sibling)) = Some (true, None).
Proof.
  intros H Hin Hsrc. rewrite Check_unfold in H.
  apply checkImports_true in H as [_ Hall].
  rewrite Forall_forall in Hall.
  destruct (checkImport_Continue_sibling _ _ _ _ _ Hsrc (Hall _ Hin)) as [Hc Hrec].
  split; [exact Hc|].
  destruct fuel as [|fuel']; [discriminate|]. eauto.
Qed.

Lemma dependsOn_completed contextName inst sibling :
  dependsOn kubeClient contextName inst sibling ->
  forall fuel, CheckSiblings fuel contextName (Some inst) = Some (true, None) ->
  inst_Status_Phase sibling = PhaseCompleted.
Proof.
  induction 1 as [inst d sibling Hin Hsrc | inst d sibling sibling' Hin Hsrc _ IH];
    intros fuel Hcheck;
    destruct (Check_true_sibling _ _ _ _ _ Hcheck Hin Hsrc) as [Hc (fuel' & -> & Hrec)].
  - exact Hc.
  - exact (IH _ Hrec).
Qed.

(** C2. [CheckCompletedSiblingDependents] returns [true] only if every
    direct and every transitive sibling dependency is in phase Completed:
    for each sibling source, itself Completed, the recursive check of that
    sibling's own sibling dependencies returned satisfied; and once the
    recursive check of a Completed sibling reports unsatisfied, the check
    returns [(false, nil)]. *)
Theorem true_only_if_all_dependencies_completed contextName inst :
  (forall fuel,
      CheckSiblings fuel contextName (Some inst) = Some (true, None) ->
      (forall sibling, dependsOn kubeClient contextName inst sibling ->
          inst_Status_Phase sibling = PhaseCompleted)
      /\ (forall dataImport sibling,
          dataImport ∈ inst_Spec_Imports_Data (Info inst) ->
          siblingSource kubeClient contextName inst dataImport = Some sibling ->
          exists fuel', fuel = S fuel' /\
            CheckSiblings fuel' contextName (Some (CreateInternalInstallationBase sibling))
            = Some (true, None)))
  /\ (forall fuel pre dataImport post sibling,
      inst_Spec_Imports_Data (Info inst) = pre ++ dataImport :: post ->
      Forall (fun d => checkImport kubeClient (recursiveCall kubeClient (S fuel))
                         contextName inst d = Continue) pre ->
      siblingSource kubeClient contextName inst dataImport = Some sibling ->
      inst_Status_Phase sibling = PhaseCompleted ->
      CheckSiblings fuel contextName (Some (CreateInternalInstallationBase sibling)) = Some (false, None) ->
      CheckSiblings (S fuel) contextName (Some inst) = Some (false, None)).
Proof.
  split.
  - intros fuel Hcheck. split.
    + intros sibling Hdep. exact (dependsOn_completed _ _ _ Hdep _ Hcheck).
    + intros d sibling Hin Hsrc.
      by destruct (Check_true_sibling _ _ _ _ _ Hcheck Hin Hsrc) as [_ ?].
  - intros fuel pre d post sibling Hdata Hpre Hsrc Hphase Hrec.
    rewrite Check_unfold, Hdata, checkImports_app by assumption.
    simpl. rewrite (checkImport_completed _ _ _ _ _ Hsrc Hphase).
    simpl. rewrite Hrec. reflexivity.
Qed.


Lemma CheckOfParent_unfold fuel parent :
  CheckOfParent (S fuel) (Some parent) =
  match CheckSiblings fuel (GetInstallationContextName kubeClient (Info parent)) (Some parent) with
  | None => None
  | Some (_, Some err) => Some (false, Some err)
  | Some (false, None) => Some (false, None)
  | Some (true, None) =>
    match GetParent kubeClient (Info parent) with
    | inr err => Some (false, Some (Wrapf "unable to get parent of parent" err))
    | inl None => Some (true, None)
    | inl (Some parentsParentInst) =>
      CheckOfParent fuel (Some (NewInstallationBase parentsParentInst))
    end
  end.
Proof. reflexivity. Qed.

Lemma ancestors_det parent l l' :
  ancestors kubeClient parent l -> ancestors kubeClient parent l' -> l = l'.
Proof.
  intros H. revert l'.
  induction H as [p Hp | p pp l Hp _ IH]; intros l' H'; inversion H'; subst;
    try congruence.
  f_equal. apply IH. congruence.
Qed.

Lemma CheckOfParent_true fuel : forall parent e,
  CheckOfParent fuel (Some parent) = Some (true, e) ->
  e = None /\
  exists l, ancestors kubeClient parent l /\ Forall (satisfied kubeClient) l.
Proof.
  induction fuel as [|fuel IH]; intros parent e H; [discriminate|].
  rewrite CheckOfParent_unfold in H.
  destruct (CheckSiblings fuel _ (Some parent)) as [[[] [err|]]|] eqn:E; try discriminate.
  assert (satisfied kubeClient parent) as Hsat by (by exists fuel).
  destruct (GetParent kubeClient (Info parent)) as [[pp|]|] eqn:Hp; try discriminate.
  - destruct (IH _ _ H) as [-> (l & Hl & Hall)].
    split; [reflexivity|]. exists (parent :: l). split.
    + by eapply ancestors_next.
    + by constructor.
  - injection H as <-. split; [reflexivity|]. exists [parent]. split.
    + by apply ancestors_last.
    + by repeat constructor.
Qed.

Lemma ancestors_satisfied_true parent l :
  ancestors kubeClient parent l -> Forall (satisfied kubeClient) l ->
  parentReturns kubeClient (Some parent) (true, None).
Proof.
  induction 1 as [p Hp | p pp l Hp _ IH]; intros Hall;
    apply Forall_cons in Hall as [[f Hf] Hall].
  - exists (S f). by rewrite CheckOfParent_unfold, Hf, Hp.
  - destruct (IH Hall) as [f' Hf'].
    exists (S (f `max` f')). rewrite CheckOfParent_unfold.
    rewrite (Check_le _ _ _ _ _ (Nat.le_max_l f f') Hf), Hp.
    exact (CheckOfParent_le _ _ _ _ (Nat.le_max_r f f') Hf').
Qed.

Lemma unsatisfiedLevel_false parent :
  unsatisfiedLevel kubeClient parent ->
  parentReturns kubeClient (Some parent) (false, None).
Proof.
  induction 1 as [p [f Hf] | p pp [f Hf] Hp _ [f' Hf']].
  - exists (S f). by rewrite CheckOfParent_unfold, Hf.
  - exists (S (f `max` f')). rewrite CheckOfParent_unfold.
    rewrite (Check_le _ _ _ _ _ (Nat.le_max_l f f') Hf), Hp.
    exact (CheckOfParent_le _ _ _ _ (Nat.le_max_r f f') Hf').
Qed.

(** C3. [CheckCompletedSiblingDependentsOfParent] returns [(true, nil)] on
    a nil parent; on a parent it returns [(true, nil)] if and only if the
    chain of ancestors, from the parent through each parent's parent up to
    the one without a parent, exists and the sibling dependents of every
    ancestor in it are satisfied. An ancestor level that is unsatisfied
    makes the result [false]: it is [(false, nil)] when the levels below
    are satisfied, and no result is [true] when any level is unsatisfied. *)
Theorem ancestors_checked_upwards :
  (forall fuel, CheckOfParent fuel None = Some (true, None))
  /\ (forall parent,
        parentReturns kubeClient (Some parent) (true, None) <->
        exists l, ancestors kubeClient parent l /\ Forall (satisfied kubeClient) l)
  /\ (forall parent,
        unsatisfiedLevel kubeClient parent ->
        parentReturns kubeClient (Some parent) (false, None))
  /\ (forall parent l a r,
        ancestors kubeClient parent l -> a ∈ l -> unsatisfied kubeClient a ->
        parentReturns kubeClient (Some parent) r -> r.1 = false).
Proof.
  split; [|split; [|split]].
  - by intros [|fuel].
  - intros parent. split.
    + intros [fuel H]. by destruct (CheckOfParent_true _ _ _ H) as [_ ?].
    + intros (l & Hl & Hall). by eapply ancestors_satisfied_true.
  - exact unsatisfiedLevel_false.
  - intros parent l a [[] e] Hl Hin Hunsat [fuel H]; [|reflexivity].
    destruct (CheckOfParent_true _ _ _ H) as [_ (l' & Hl' & Hall)].
    rewrite (ancestors_det _ _ _ Hl Hl') in Hin.
    rewrite Forall_forall in Hall.
    pose proof (siblingsReturn_det _ _ _ _ (Hall _ Hin) Hunsat). discriminate.
Qed.

Lemma recursiveCall_le fuel fuel' contextName inst r :
  fuel <= fuel' ->
  recursiveCall kubeClient fuel contextName inst = Some r ->
  recursiveCall kubeClient fuel' contextName inst = Some r.
Proof.
  destruct fuel as [|fuel]; [discriminate|].
  destruct fuel' as [|fuel']; [lia|]. simpl. intros Hle. apply Check_le. lia.
Qed.

(** A loop step on an import that does not resolve to a sibling does not
    reach the recursive call. *)
Lemma checkImport_no_sibling rec contextName inst d :
  siblingSource kubeClient contextName inst d = None ->
  checkImport kubeClient rec contextName inst d <> OutOfFuel.
Proof.
  unfold siblingSource, checkImport.
  destruct (getImportSource _ _ _ _) as [[sourceRef|]|]; try discriminate.
  destruct (ReferenceIsObject sourceRef (Info inst)); try discriminate.
  destruct (GetParent _ _) as [parent|]; try discriminate.
  destruct (match parent with Some p => _ | None => _ end); try discriminate.
  destruct (Get _ _) as [s|]; discriminate.
Qed.

Lemma checkImports_terminates contextName inst :
  (forall sibling, recursesInto kubeClient contextName sibling inst ->
      exists fuel r, CheckSiblings fuel contextName (Some sibling) = Some r) ->
  forall data, data ⊆ inst_Spec_Imports_Data (Info inst) ->
  exists fuel r,
    checkImports kubeClient (recursiveCall kubeClient fuel) contextName inst data = Some r.
Proof.
  intros Hrec. induction data as [|d data IH]; intros Hsub.
  - exists 0. eexists. reflexivity.
  - destruct IH as (f1 & r1 & H1); [set_solver|].
    assert (d ∈ inst_Spec_Imports_Data (Info inst)) as Hin by set_solver.
    destruct (siblingSource kubeClient contextName inst d) as [s|] eqn:Hsrc.
    + destruct (decide (inst_Status_Phase s = PhaseCompleted)) as [Hc|Hc].
      * destruct (Hrec (CreateInternalInstallationBase s)) as (f2 & r2 & H2).
        { exists d, s. done. }
        exists (S (f1 `max` f2)). simpl.
        rewrite (checkImport_completed _ _ _ _ _ Hsrc Hc).
        rewrite (Check_le _ _ _ _ _ (Nat.le_max_r f1 f2) H2).
        destruct r2 as [[] [err|]]; eauto.
        exists r1. eapply checkImports_mono; [|exact H1].
        intros c i r. apply (recursiveCall_le f1 (S (f1 `max` f2))). lia.
      * exists 0. simpl. rewrite (checkImport_incomplete _ _ _ _ _ Hsrc Hc). eauto.
    + exists f1. simpl.
      pose proof (checkImport_no_sibling (recursiveCall kubeClient f1) _ _ _ Hsrc).
      destruct (checkImport _ _ _ _ _); [eauto|eauto|done].
Qed.

Lemma Check_terminates_Acc contextName inst :
  Acc (recursesInto kubeClient contextName) inst ->
  exists fuel r, CheckSiblings fuel contextName (Some inst) = Some r.
Proof.
  induction 1 as [inst _ IH].
  destruct (checkImports_terminates contextName inst IH
              (inst_Spec_Imports_Data (Info inst))) as (f & r & H); [done|].
  exists f, r. by rewrite Check_unfold.
Qed.

Lemma CheckOfParent_terminates_Acc parent :
  (forall contextName inst, Acc (recursesInto kubeClient contextName) inst) ->
  Acc (parentOf kubeClient) parent ->
  exists fuel r, CheckOfParent fuel (Some parent) = Some r.
Proof.
  intros Hsib. induction 1 as [parent _ IH].
  destruct (Check_terminates_Acc (GetInstallationContextName kubeClient (Info parent))
              parent (Hsib _ _)) as (f & [b e] & Hf).
  destruct e as [err|].
  { exists (S f). eexists. rewrite CheckOfParent_unfold, Hf. by destruct b. }
  destruct b.
  2: { exists (S f). eexists. by rewrite CheckOfParent_unfold, Hf. }
  destruct (GetParent kubeClient (Info parent)) as [[pp|]|] eqn:Hp.
  - destruct (IH (NewInstallationBase pp)) as (f' & r & Hf'); [by exists pp|].
    exists (S (f `max` f')), r. rewrite CheckOfParent_unfold.
    rewrite (Check_le _ _ _ _ _ (Nat.le_max_l f f') Hf), Hp.
    exact (CheckOfParent_le _ _ _ _ (Nat.le_max_r f f') Hf').
  - exists (S f). eexists. by rewrite CheckOfParent_unfold, Hf, Hp.
  - exists (S f). eexists. by rewrite CheckOfParent_unfold, Hf, Hp.
Qed.

(** The loop runs out of fuel at the first import that does, when no
    import before it returns. *)
Lemma checkImports_out_of_fuel rec contextName inst pre d post :
  Forall (fun d' => forall r, checkImport kubeClient rec contextName inst d' <> Return r) pre ->
  checkImport kubeClient rec contextName inst d = OutOfFuel ->
  checkImports kubeClient rec contextName inst (pre ++ d :: post) = None.
Proof.
  intros Hpre Hd. induction Hpre as [|d' pre Hd' _ IH]; cbn.
  - by rewrite Hd.
  - destruct (checkImport kubeClient rec contextName inst d') as [|r|] eqn:E;
      [exact IH | by destruct (Hd' r) | reflexivity].
Qed.

(** Installations in each of which the loop reaches the recursion into
    another of them: the check returns on none. *)
Lemma Check_never_returns contextName (looping : InstallationBase -> Prop) :
  (forall inst, looping inst ->
     exists sibling, reachesRecursion kubeClient contextName inst sibling
                     /\ looping (CreateInternalInstallationBase sibling)) ->
  forall fuel inst, looping inst -> CheckSiblings fuel contextName (Some inst) = None.
Proof.
  intros Hloop. induction fuel as [|fuel IH]; intros inst Hin;
    destruct (Hloop inst Hin) as (s & (pre & d & post & Himp & Hpre & Hsrc & Hc) & Hs);
    rewrite Check_unfold, Himp; (apply checkImports_out_of_fuel; [apply Hpre|]);
    rewrite (checkImport_completed _ _ _ _ _ Hsrc Hc); cbn [recursiveCall].
  - reflexivity.
  - by rewrite (IH _ Hs).
Qed.

(** C8 (amended). There is no visited set and no bound on the recursion.
    On a store whose references from an installation to the sibling sources
    of its imports, and from an installation to its parent, are
    well-founded (no cycle, no infinite chain),
    [CheckCompletedSiblingDependents] and
    [CheckCompletedSiblingDependentsOfParent] return on every input. They
    do not return on every store: given installations in each of which
    the loop reaches the recursion into a completed sibling source that
    is again one of them (no import before it makes the loop return),
    [CheckCompletedSiblingDependents] returns on none of them, whatever
    the depth of recursion allowed; and
    [CheckCompletedSiblingDependentsOfParent] does not return on a parent
    on which [CheckCompletedSiblingDependents] does not return. *)
Theorem terminates_on_acyclic_store :
  ((forall contextName, well_founded (recursesInto kubeClient contextName)) ->
   well_founded (parentOf kubeClient) ->
   (forall contextName inst, exists fuel r, CheckSiblings fuel contextName inst = Some r)
   /\ (forall parent, exists fuel r, CheckOfParent fuel parent = Some r))
  /\ (forall contextName (looping : InstallationBase -> Prop),
        (forall inst, looping inst ->
           exists sibling, reachesRecursion kubeClient contextName inst sibling
                           /\ looping (CreateInternalInstallationBase sibling)) ->
        forall inst, looping inst ->
          ~ exists fuel r, CheckSiblings fuel contextName (Some inst) = Some r)
  /\ (forall parent,
        ~ (exists fuel r,
             CheckSiblings fuel (GetInstallationContextName kubeClient (Info parent))
               (Some parent) = Some r) ->
        ~ exists fuel r, CheckOfParent fuel (Some parent) = Some r).
Proof.
  split; [|split].
  - intros Hsib Hpar. split.
    + intros contextName [inst|].
      * apply Check_terminates_Acc, Hsib.
      * exists 0. eexists. reflexivity.
    + intros [parent|].
      * apply CheckOfParent_terminates_Acc; [intros; apply Hsib | apply Hpar].
      * exists 0. eexists. reflexivity.
  - intros contextName looping Hloop inst Hin (fuel & r & H).
    by rewrite (Check_never_returns contextName looping Hloop fuel inst Hin) in H.
  - intros parent Hnever ([|fuel] & r & H); [discriminate|].
    rewrite CheckOfParent_unfold in H.
    destruct (CheckSiblings fuel _ (Some parent)) as [r'|] eqn:E; [|discriminate].
    apply Hnever. eauto.
Qed.

End Proofs.
End imports_proofs.

(* --------------------------------------------------------------------- *)
(** *** The resolver on concrete stores *)
(* --------------------------------------------------------------------- *)

Module imports_examples.
Import imports imports_spec imports_proofs fixtures lsv1alpha1helper.
Local Open Scope list_scope.

Lemma fakeGet_elem_of objs ref s : fakeGet objs ref = inl s -> s ∈ objs.
Proof.
  unfold fakeGet.
  destruct (List.find _ objs) as [i|] eqn:E; intros [= <-].
  apply list_elem_of_In. by apply find_some in E as [? _].
Qed.

Lemma siblingSource_Get kubeClient contextName inst d s :
  siblingSource kubeClient contextName inst d = Some s ->
  exists ref, Get kubeClient ref = inl s.
Proof.
  unfold siblingSource. intros H.
  repeat case_match; simplify_eq; eauto.
Qed.

(** The installations the resolver recurses into, as a list. *)
Lemma recursesInto_elem_of kubeClient contextName y inst :
  recursesInto kubeClient contextName y inst ->
  y ∈ CreateInternalInstallationBase <$>
        omap (siblingSource kubeClient contextName inst) (inst_Spec_Imports_Data (Info inst)).
Proof.
  intros (d & s & Hin & Hsrc & ->).
  apply list_elem_of_fmap. exists s. split; [reflexivity|].
  apply list_elem_of_omap. eauto.
Qed.

Ltac no_more_sources H :=
  apply recursesInto_elem_of in H; vm_compute in H; by apply elem_of_nil in H.

Lemma chain_Acc_root contextName :
  Acc (recursesInto (fakeClient chainStore) contextName) (CreateInternalInstallationBase root).
Proof. constructor. intros y H. no_more_sources H. Qed.

Lemma chain_Acc_c contextName :
  Acc (recursesInto (fakeClient chainStore) contextName) (CreateInternalInstallationBase chain_c).
Proof. constructor. intros y H. no_more_sources H. Qed.

Lemma chain_Acc_b contextName :
  Acc (recursesInto (fakeClient chainStore) contextName) (CreateInternalInstallationBase chain_b).
Proof.
  constructor. intros y H. apply recursesInto_elem_of in H.
  assert (CreateInternalInstallationBase <$>
            omap (siblingSource (fakeClient chainStore) contextName
                    (CreateInternalInstallationBase chain_b))
                 (inst_Spec_Imports_Data (Info (CreateInternalInstallationBase chain_b)))
          = [CreateInternalInstallationBase chain_c]) as E by (vm_compute; reflexivity).
  rewrite E in H. apply list_elem_of_singleton in H as ->. apply chain_Acc_c.
Qed.

Lemma chain_Acc_a contextName :
  Acc (recursesInto (fakeClient chainStore) contextName) (CreateInternalInstallationBase chain_a).
Proof.
  constructor. intros y H. apply recursesInto_elem_of in H.
  assert (CreateInternalInstallationBase <$>
            omap (siblingSource (fakeClient chainStore) contextName
                    (CreateInternalInstallationBase chain_a))
                 (inst_Spec_Imports_Data (Info (CreateInternalInstallationBase chain_a)))
          = [CreateInternalInstallationBase chain_b]) as E by (vm_compute; reflexivity).
  rewrite E in H. apply list_elem_of_singleton in H as ->. apply chain_Acc_b.
Qed.

Lemma chain_sources_well_founded contextName :
  well_founded (recursesInto (fakeClient chainStore) contextName).
Proof.
  intros x. constructor. intros y (d & s & _ & Hsrc & ->).
  apply siblingSource_Get in Hsrc as [ref Hget].
  apply fakeGet_elem_of in Hget. unfold chainStore in Hget.
  repeat (apply elem_of_cons in Hget as [->|Hget]);
    [apply chain_Acc_root | apply chain_Acc_a | apply chain_Acc_b | apply chain_Acc_c
    | by apply elem_of_nil in Hget].
Qed.


Lemma fakeGetParent_elem_of objs inst p :
  fakeGetParent objs inst = inl (Some p) -> p ∈ objs.
Proof.
  unfold fakeGetParent. intros H.
  destruct (inst_Labels inst !! EncompassedByLabel); [|discriminate].
  destruct (fakeGet objs _) as [i|] eqn:E; simplify_eq.
  by apply fakeGet_elem_of in E.
Qed.

Lemma chain_parent_Acc_root :
  Acc (parentOf (fakeClient chainStore)) (NewInstallationBase root).
Proof. constructor. intros y (i & Hp & _). vm_compute in Hp. discriminate. Qed.

Lemma chain_parent_Acc_child name phase sources :
  Acc (parentOf (fakeClient chainStore))
    (NewInstallationBase (mkInst name (Some "root") phase sources)).
Proof.
  constructor. intros y (i & Hp & ->).
  assert (GetParent (fakeClient chainStore)
            (Info (NewInstallationBase (mkInst name (Some "root") phase sources)))
          = inl (Some root)) as E by reflexivity.
  rewrite E in Hp. injection Hp as <-. apply chain_parent_Acc_root.
Qed.

Lemma chain_parents_well_founded : well_founded (parentOf (fakeClient chainStore)).
Proof.
  intros x. constructor. intros y (i & Hp & ->).
  apply fakeGetParent_elem_of in Hp. unfold chainStore in Hp.
  repeat (apply elem_of_cons in Hp as [->|Hp]);
    [apply chain_parent_Acc_root | apply chain_parent_Acc_child ..
    | by apply elem_of_nil in Hp].
Qed.

(** In the cyclic store the check of [a] asks for the check of [b] and
    the check of [b] for the check of [a]. *)
Lemma cycle_step_a fuel :
  CheckCompletedSiblingDependents (fakeClient cycleStore) (S fuel) "" (Some (NewInstallationBase cyc_a))
  = match CheckCompletedSiblingDependents (fakeClient cycleStore) fuel ""
            (Some (NewInstallationBase cyc_b)) with
    | None => None
    | Some (_, Some err) => Some (false, Some err)
    | Some (false, None) => Some (false, None)
    | Some (true, None) => Some (true, None)
    end.
Proof.
  rewrite Check_unfold.
  change (inst_Spec_Imports_Data (Info (NewInstallationBase cyc_a)))
    with [ {| di_Name := "a.in"; di_DataRef := "a.in" |} ].
  cbn [checkImports].
  rewrite (checkImport_completed _ _ _ _ _ cyc_b) by (vm_compute; reflexivity).
  cbn [recursiveCall]. unfold CreateInternalInstallationBase.
  by destruct (CheckCompletedSiblingDependents _ fuel _ _) as [[[] []]|].
Qed.

Lemma cycle_step_b fuel :
  CheckCompletedSiblingDependents (fakeClient cycleStore) (S fuel) "" (Some (NewInstallationBase cyc_b))
  = match CheckCompletedSiblingDependents (fakeClient cycleStore) fuel ""
            (Some (NewInstallationBase cyc_a)) with
    | None => None
    | Some (_, Some err) => Some (false, Some err)
    | Some (false, None) => Some (false, None)
    | Some (true, None) => Some (true, None)
    end.
Proof.
  rewrite Check_unfold.
  change (inst_Spec_Imports_Data (Info (NewInstallationBase cyc_b)))
    with [ {| di_Name := "b.in"; di_DataRef := "b.in" |} ].
  cbn [checkImports].
  rewrite (checkImport_completed _ _ _ _ _ cyc_a) by (vm_compute; reflexivity).
  cbn [recursiveCall]. unfold CreateInternalInstallationBase.
  by destruct (CheckCompletedSiblingDependents _ fuel _ _) as [[[] []]|].
Qed.

Lemma cycle_out_of_fuel fuel :
  CheckCompletedSiblingDependents (fakeClient cycleStore) fuel "" (Some (NewInstallationBase cyc_a)) = None
  /\ CheckCompletedSiblingDependents (fakeClient cycleStore) fuel "" (Some (NewInstallationBase cyc_b)) = None.
Proof.
  induction fuel as [|fuel [IHa IHb]].
  - split; vm_compute; reflexivity.
  - rewrite cycle_step_a, cycle_step_b, IHa, IHb. done.
Qed.

(** C8, as stated, fails: on the store in which the completed
    installations [a] and [b] import from one another, neither
    [CheckCompletedSiblingDependents] nor
    [CheckCompletedSiblingDependentsOfParent] returns on [a], whatever the
    depth of recursion allowed. *)
Lemma cyclic_sources_never_return :
  ~ (exists fuel r,
        CheckCompletedSiblingDependents (fakeClient cycleStore) fuel ""
          (Some (NewInstallationBase cyc_a)) = Some r)
  /\ ~ (exists fuel r,
        CheckCompletedSiblingDependentsOfParent (fakeClient cycleStore) fuel
          (Some (NewInstallationBase cyc_a)) = Some r).
Proof.
  split.
  - intros (fuel & r & H). destruct (cycle_out_of_fuel fuel) as [Ha _]. congruence.
  - intros ([|fuel] & r & H); [discriminate|].
    rewrite CheckOfParent_unfold in H.
    change (GetInstallationContextName (fakeClient cycleStore) (Info (NewInstallationBase cyc_a)))
      with "" in H.
    destruct (cycle_out_of_fuel fuel) as [Ha _]. rewrite Ha in H. discriminate.
Qed.

Lemma terminates_on_acyclic_store_witness :
  (exists fuel r,
      CheckCompletedSiblingDependents (fakeClient chainStore) fuel "Inst.root"
        (Some (NewInstallationBase chain_a)) = Some r)
  /\ (exists fuel r,
      CheckCompletedSiblingDependentsOfParent (fakeClient chainStore) fuel
        (Some (NewInstallationBase chain_a)) = Some r)
  /\ ~ (exists fuel r,
        CheckCompletedSiblingDependents (fakeClient cycleStore) fuel ""
          (Some (NewInstallationBase cyc_b)) = Some r)
  /\ ~ (exists fuel r,
        CheckCompletedSiblingDependentsOfParent (fakeClient cycleStore) fuel
          (Some (NewInstallationBase cyc_b)) = Some r).
Proof.
  destruct (proj1 (terminates_on_acyclic_store (fakeClient chainStore))
              chain_sources_well_founded chain_parents_well_founded) as [Hs Hp].
  assert (~ (exists fuel r,
        CheckCompletedSiblingDependents (fakeClient cycleStore) fuel ""
          (Some (NewInstallationBase cyc_b)) = Some r)) as Hb.
  { apply (proj1 (proj2 (terminates_on_acyclic_store (fakeClient cycleStore))) ""
             (fun inst => inst = NewInstallationBase cyc_a \/ inst = NewInstallationBase cyc_b)).
    - intros inst [->| ->].
      + exists cyc_b. split; [|by right].
        exists [], {| di_Name := "a.in"; di_DataRef := "a.in" |}, [].
        split; [reflexivity|]. split; [intros; constructor|]. split; reflexivity.
      + exists cyc_a. split; [|by left].
        exists [], {| di_Name := "b.in"; di_DataRef := "b.in" |}, [].
        split; [reflexivity|]. split; [intros; constructor|]. split; reflexivity.
    - by right. }
  split; [apply Hs|]. split; [apply Hp|]. split; [exact Hb|].
  apply (proj2 (proj2 (terminates_on_acyclic_store (fakeClient cycleStore)))). exact Hb.
Defined.

Lemma incomplete_sibling_short_circuits_witness :
  CheckCompletedSiblingDependents (fakeClient incompleteStore) 1 "Inst.root"
    (Some (NewInstallationBase inc_a)) = Some (false, None)
  /\ CheckCompletedSiblingDependents (fakeClient lostStore) 0 "Inst.root"
    (Some (NewInstallationBase lost_a)) = Some (false, Some (ApiError ReasonNotFound "gone")).
Proof.
  split.
  - apply (proj1 (incomplete_sibling_short_circuits (fakeClient incompleteStore)
                    "Inst.root" (NewInstallationBase inc_a))
             1 [ {| di_Name := "a.c"; di_DataRef := "a.c" |} ]
             {| di_Name := "a.b"; di_DataRef := "a.b" |}
             [ {| di_Name := "a.later"; di_DataRef := "a.later" |} ]
             inc_b).
    + reflexivity.
    + repeat constructor.
    + reflexivity.
    + discriminate.
  - apply (proj1 (proj2 (proj2 (incomplete_sibling_short_circuits (fakeClient lostStore)
                    "Inst.root" (NewInstallationBase lost_a))))
             0 [] {| di_Name := "a.gone"; di_DataRef := "a.gone" |} []).
    + reflexivity.
    + constructor.
    + reflexivity.
Defined.

Lemma chain_a_dependsOn_c :
  dependsOn (fakeClient chainStore) "Inst.root" (NewInstallationBase chain_a) chain_c.
Proof.
  eapply (dependsOn_trans _ _ _ {| di_Name := "a.in"; di_DataRef := "a.in" |} chain_b).
  - apply list_elem_of_further, list_elem_of_here.
  - reflexivity.
  - eapply (dependsOn_direct _ _ _ {| di_Name := "b.in"; di_DataRef := "b.in" |}).
    + apply list_elem_of_here.
    + reflexivity.
Qed.

Lemma true_only_if_all_dependencies_completed_witness :
  inst_Status_Phase chain_c = PhaseCompleted
  /\ CheckCompletedSiblingDependents (fakeClient deepStore) 1 "Inst.root"
       (Some (NewInstallationBase deep_a)) = Some (false, None).
Proof.
  split.
  - apply (proj1 (proj1 (true_only_if_all_dependencies_completed (fakeClient chainStore)
                    "Inst.root" (NewInstallationBase chain_a)) 2 eq_refl)).
    exact chain_a_dependsOn_c.
  - apply (proj2 (true_only_if_all_dependencies_completed (fakeClient deepStore)
                    "Inst.root" (NewInstallationBase deep_a))
             0 [] {| di_Name := "a.in"; di_DataRef := "a.in" |} [] deep_b).
    + reflexivity.
    + constructor.
    + reflexivity.
    + reflexivity.
    + reflexivity.
Defined.

Lemma up_unsatisfiedLevel :
  unsatisfiedLevel (fakeClient upStore) (NewInstallationBase up_p).
Proof.
  eapply unsatisfied_above.
  - exists 1. reflexivity.
  - reflexivity.
  - apply unsatisfied_here. exists 0. reflexivity.
Qed.

Lemma ancestors_checked_upwards_witness :
  parentReturns (fakeClient chainStore) (Some (NewInstallationBase chain_a)) (true, None)
  /\ parentReturns (fakeClient upStore) (Some (NewInstallationBase up_p)) (false, None).
Proof.
  split.
  - apply (proj1 (proj2 (ancestors_checked_upwards (fakeClient chainStore)))).
    exists [NewInstallationBase chain_a; NewInstallationBase root]. split.
    + eapply ancestors_next; [reflexivity|]. apply ancestors_last. reflexivity.
    + repeat constructor.
      * exists 2. reflexivity.
      * exists 0. reflexivity.
  - apply (proj1 (proj2 (proj2 (ancestors_checked_upwards (fakeClient upStore))))).
    exact up_unsatisfiedLevel.
Defined.

End imports_examples.

(* ===================================================================== *)
(** ** Properties of the execution controller *)
(* ===================================================================== *)

Module execution_proofs.
Import execution execution_spec.
Local Open Scope list_scope.

Section Proofs.
Context (c : Cluster).

Ltac run :=
  unfold Writer_UpdateExecutionStatus, Writer_UpdateExecution, Writer_PatchExecution,
    eventRecorder_Event, Operation_Delete, Operation_HandleDeployItemPhaseAndGenerationChanges,
    Operation_Reconcile, mbind, mret, M_bind, M_ret, getExec, setExec, emit;
  cbv beta iota zeta delta [fst snd].

(** *** The functions, written out *)

Lemma HandleAnnotationsAndGeneration_eq exec tr :
  HandleAnnotationsAndGeneration c (exec, tr) =
  if reconcileRequired exec then
    let exec1 := set_Status exec (normalizedStatus exec) in
    match writeError c W000033 with
    | Some err =>
      (Some (NewWrappedError err "HandleAnnotationsAndGeneration" "update execution status"
               (Error_string err)),
       (exec1, tr ++ [UpdateExecutionStatus W000033 exec1]))
    | None =>
      if HasOperation exec ReconcileOperation then
        let exec2 := set_Annotations exec1 (delete OperationAnnotation (Annotations exec)) in
        (match writeError c W000027 with
         | Some err => Some (NewWrappedError err "HandleAnnotationsAndGeneration"
                               "update execution" (Error_string err))
         | None => None
         end,
         (exec2, tr ++ [UpdateExecutionStatus W000033 exec1; UpdateExecution W000027 exec2]))
      else (None, (exec1, tr ++ [UpdateExecutionStatus W000033 exec1]))
    end
  else (None, (exec, tr)).
Proof.
  unfold HandleAnnotationsAndGeneration, reconcileRequired. run.
  destruct (HasOperation exec ReconcileOperation) eqn:Hr; cbn.
  - destruct (writeError c W000033); cbn; [reflexivity|].
    rewrite <- app_assoc. reflexivity.
  - destruct (HasOperation exec ForceReconcileOperation || _); cbn; [|reflexivity].
    destruct (writeError c W000033); reflexivity.
Qed.

Lemma mainWork_eq exec tr :
  mainWork c (exec, tr) =
  let force := HasOperation exec ForceReconcileOperation in
  if negb (IsZero (DeletionTimestamp exec)) then
    ((op_Delete c force exec).2, ((op_Delete c force exec).1, tr ++ [OpDelete force exec]))
  else if IsCompletedExecutionPhase (Phase (Status exec)) then
    let exec' := (op_HandleDeployItemPhaseAndGenerationChanges c force exec).1 in
    match (op_HandleDeployItemPhaseAndGenerationChanges c force exec).2 with
    | Some err =>
      (Some (NewWrappedError err "Reconcile" "HandleDeployItemPhaseAndGenerationChanges"
               (Error_string err)),
       (exec', tr ++ [OpHandleDeployItemPhaseAndGenerationChanges force exec]))
    | None =>
      if IsCompletedExecutionPhase (Phase (Status exec')) then
        (None, (exec', tr ++ [OpHandleDeployItemPhaseAndGenerationChanges force exec]))
      else
        ((op_Reconcile c force exec').2,
         ((op_Reconcile c force exec').1,
          tr ++ [OpHandleDeployItemPhaseAndGenerationChanges force exec;
                 OpReconcile force exec']))
    end
  else
    ((op_Reconcile c force exec).2, ((op_Reconcile c force exec).1, tr ++ [OpReconcile force exec])).
Proof.
  unfold mainWork. run. cbv zeta.
  destruct (negb (IsZero (DeletionTimestamp exec))).
  { by destruct (op_Delete c _ exec). }
  destruct (IsCompletedExecutionPhase (Phase (Status exec))).
  2: { by destruct (op_Reconcile c _ exec). }
  destruct (op_HandleDeployItemPhaseAndGenerationChanges c _ exec) as [exec' [err|]]; cbn;
    [reflexivity|].
  destruct (IsCompletedExecutionPhase (Phase (Status exec'))); [reflexivity|].
  destruct (op_Reconcile c _ exec'). cbn. by rewrite <- app_assoc.
Qed.

Lemma Ensure_eq exec tr :
  Ensure c (exec, tr) =
  match HandleAnnotationsAndGeneration c (exec, tr) with
  | (Some err, s) => (Some err, s)
  | (None, (exec1, tr1)) =>
    if IsZero (DeletionTimestamp exec1) && negb (HasFinalizer exec1 LandscaperFinalizer) then
      let exec2 := AddFinalizer exec1 LandscaperFinalizer in
      match writeError c W000025 with
      | Some err =>
        (Some (NewError "Reconcile" "AddFinalizer" (Error_string err)),
         (exec2, tr1 ++ [UpdateExecution W000025 exec2]))
      | None => mainWork c (exec2, tr1 ++ [UpdateExecution W000025 exec2])
      end
    else mainWork c (exec1, tr1)
  end.
Proof.
  unfold Ensure, mainWork. run.
  destruct (HandleAnnotationsAndGeneration c (exec, tr)) as [[err|] [exec1 tr1]]; [reflexivity|].
  cbn.
  destruct (IsZero (DeletionTimestamp exec1) && negb (HasFinalizer exec1 LandscaperFinalizer)); cbn;
    [|reflexivity].
  destruct (writeError c W000025); reflexivity.
Qed.

Lemma removeForceReconcileAnnotation_eq exec tr :
  removeForceReconcileAnnotation c (exec, tr) =
  if HasOperation exec ForceReconcileOperation then
    let exec' := set_Annotations exec (delete OperationAnnotation (Annotations exec)) in
    match writeError c W000029 with
    | Some err =>
      (Some (NewWrappedError err "Reconcile" "RemoveForceReconcileAnnotation" (Error_string err)),
       (exec', tr ++ [PatchExecution W000029 exec' exec;
                      Event exec' EventTypeWarning "RemoveForceReconcileAnnotation"
                        (Error_string err)]))
    | None => (None, (exec', tr ++ [PatchExecution W000029 exec' exec]))
    end
  else (None, (exec, tr)).
Proof.
  unfold removeForceReconcileAnnotation. run.
  destruct (HasOperation exec ForceReconcileOperation); [|reflexivity]. cbn.
  destruct (writeError c W000029); cbn; [|reflexivity]. by rewrite <- app_assoc.
Qed.

Lemma handleError_eq err oldExec isDelete exec tr :
  handleError c err oldExec isDelete (exec, tr) =
  if isDelete && bool_decide (err = None) then (None, (exec, tr))
  else
    let exec' := set_Status exec (handledStatus c err exec) in
    if bool_decide (Status oldExec ≠ handledStatus c err exec) then
      (match writeError c W000031 with
       | Some updateErr => Some (ApiErr updateErr)
       | None => LsErr <$> err
       end,
       (exec', tr ++ lastErrorEvents exec' ++ [UpdateExecutionStatus W000031 exec']))
    else (LsErr <$> err, (exec', tr ++ lastErrorEvents exec')).
Proof.
  unfold handleError, handledStatus, lastErrorEvents, mergedLastError. run.
  destruct (isDelete && bool_decide (err = None)); [reflexivity|].
  destruct err as [err'|]; cbn.
  - unfold TryUpdateLsError at 1 3 5. cbn.
    destruct (bool_decide _); cbn.
    + destruct (writeError c W000031); by rewrite <- app_assoc.
    + reflexivity.
  - destruct exec as [n ns g a f d [og ph [le|]]]; cbn.
    + destruct (bool_decide _); cbn; [|reflexivity].
      destruct (writeError c W000031); by rewrite <- app_assoc.
    + rewrite app_nil_r. destruct (bool_decide _); cbn; [|reflexivity].
      destruct (writeError c W000031); reflexivity.
Qed.


(** *** The end of the invocation: [handleError] *)

Lemma handleError_exec err oldExec isDelete exec tr :
  (isDelete && bool_decide (err = None)) = false ->
  (handleError c err oldExec isDelete (exec, tr)).2.1 = set_Status exec (handledStatus c err exec).
Proof.
  intros H. rewrite handleError_eq, H. cbv zeta.
  by destruct (bool_decide (Status oldExec ≠ handledStatus c err exec)).
Qed.

(** C5. At the end of an invocation, with the threshold of five minutes:
    if no error occurred and none was recorded, the phase stands as the
    main reconcile left it. If an error occurred it is merged into
    [Status.LastError]: the recorded error takes its operation, reason and
    message, is updated now, and has persisted since the recorded error of
    the same operation was first seen (since now, if there is none). The
    phase is left unchanged as long as that error has not persisted past
    the threshold (in particular while it has persisted for less), is
    [Failed] once it has persisted past the threshold, and changes only to
    [Failed], and only once the error has persisted past the threshold. *)
Theorem error_escalates_after_threshold err oldExec isDelete exec tr :
  let exec' := (handleError c err oldExec isDelete (exec, tr)).2.1 in
  (err = None -> LastError (Status exec) = None ->
     Phase (Status exec') = Phase (Status exec) /\ LastError (Status exec') = None)
  /\ (forall e, err = Some e ->
       exists merged,
         LastError (Status exec') = Some merged
         /\ Operation merged = ls_Operation e
         /\ Reason merged = ls_Reason e
         /\ Message merged = ls_Message e
         /\ LastUpdateTime merged = Now c
         /\ persistedFor merged =
            match LastError (Status exec) with
            | Some l => if bool_decide (Operation l = ls_Operation e)
                        then (Now c - LastTransitionTime l)%Z else 0%Z
            | None => 0%Z
            end
         /\ ((persistedFor merged <= 5 * Minute)%Z ->
                Phase (Status exec') = Phase (Status exec))
         /\ ((5 * Minute < persistedFor merged)%Z ->
                Phase (Status exec') = PhaseFailed)
         /\ (Phase (Status exec') <> Phase (Status exec) ->
                Phase (Status exec') = PhaseFailed /\ (5 * Minute < persistedFor merged)%Z)).
Proof.
  cbv zeta. split.
  - intros -> Hnone. rewrite handleError_eq. cbn.
    destruct isDelete; cbn; [done|].
    unfold handledStatus, mergedLastError. rewrite Hnone.
    by destruct (bool_decide _).
  - intros e ->. rewrite handleError_exec by (by rewrite andb_false_r).
    cbn. eexists. split; [reflexivity|]. cbn.
    repeat split.
    + unfold persistedFor. cbn.
      destruct (LastError (Status exec)) as [l|]; [|lia].
      destruct (bool_decide (Operation l = ls_Operation e)); lia.
    + intros Hle. rewrite bool_decide_eq_false_2; [done|lia].
    + intros Hgt. by rewrite bool_decide_eq_true_2.
    + revert H. case_bool_decide; done.
    + revert H. by case_bool_decide.
Qed.

(** C10. If the status write at the end of the invocation fails,
    [handleError] returns the error of that write, not the primary error
    of the invocation, which is then visible as the merged
    [Status.LastError] and in its warning event; the primary error is
    what [handleError] returns when the write succeeds or is skipped
    because the status is unchanged, and only then. *)
Theorem write_error_replaces_primary_error err oldExec isDelete exec tr :
  let r := handleError c err oldExec isDelete (exec, tr) in
  (forall updateErr,
      (isDelete && bool_decide (err = None)) = false ->
      Status oldExec <> Status r.2.1 ->
      writeError c W000031 = Some updateErr ->
      r.1 = Some (ApiErr updateErr)
      /\ UpdateExecutionStatus W000031 r.2.1 ∈ r.2.2
      /\ (forall e, err = Some e ->
            exists merged,
              LastError (Status r.2.1) = Some merged
              /\ LastError (Status r.2.1) = TryUpdateLsError (Now c) (LastError (Status exec)) e
              /\ Reason merged = ls_Reason e /\ Message merged = ls_Message e
              /\ Event r.2.1 EventTypeWarning (ls_Reason e) (ls_Message e) ∈ r.2.2))
  /\ (writeError c W000031 = None \/ Status oldExec = Status r.2.1 -> r.1 = LsErr <$> err)
  /\ (forall e, r.1 = Some (LsErr e) ->
        err = Some e /\ (writeError c W000031 = None \/ Status oldExec = Status r.2.1)).
Proof.
  cbv zeta. rewrite handleError_eq.
  destruct (isDelete && bool_decide (err = None)) eqn:Hearly.
  { apply andb_true_iff in Hearly as [_ ->%bool_decide_eq_true]. cbn.
    split; [done|]. split; [done|]. intros e [=]. }
  cbv zeta.
  destruct (bool_decide (Status oldExec ≠ handledStatus c err exec)) eqn:Hdiff;
    [apply bool_decide_eq_true in Hdiff | apply bool_decide_eq_false in Hdiff];
    cbn [fst snd] in *.
  - split; [|split].
    + intros updateErr _ _ ->. split; [reflexivity|]. split; [set_solver|].
      intros e ->. eexists. split; [reflexivity|]. split; [reflexivity|].
      split; [reflexivity|]. split; [reflexivity|].
      unfold lastErrorEvents. cbn. set_solver.
    + intros [->|Heq]; [reflexivity|]. cbn in Heq. done.
    + destruct (writeError c W000031) as [u|]; [intros e' [=]|].
      destruct err as [e'|]; intros e'' [= <-]. split; [reflexivity | by left].
  - apply dec_stable in Hdiff. split; [|split].
    + intros updateErr _ Hne _. cbn in Hne. done.
    + done.
    + destruct err as [e'|]; intros e'' [= <-]. split; [reflexivity | by right].
Qed.


(** *** The beginning of the invocation: [Ensure] *)

Lemma HasOperation_exclusive exec :
  HasOperation exec ReconcileOperation = true ->
  HasOperation exec ForceReconcileOperation = false.
Proof.
  unfold HasOperation. intros H%bool_decide_eq_true.
  apply bool_decide_eq_false. rewrite H. discriminate.
Qed.

Lemma HasOperation_deleted exec op :
  HasOperation (set_Annotations exec (delete OperationAnnotation (Annotations exec))) op = false.
Proof.
  unfold HasOperation. cbn. apply bool_decide_eq_false.
  rewrite lookup_delete_eq. discriminate.
Qed.

Lemma HasFinalizer_AddFinalizer exec finalizer :
  HasFinalizer (AddFinalizer exec finalizer) finalizer = true.
Proof.
  unfold AddFinalizer. destruct (HasFinalizer exec finalizer) eqn:E; [exact E|].
  unfold HasFinalizer. cbn. apply bool_decide_eq_true. set_solver.
Qed.

Lemma HasFinalizer_ext exec exec' finalizer :
  Finalizers exec = Finalizers exec' ->
  HasFinalizer exec finalizer = HasFinalizer exec' finalizer.
Proof. unfold HasFinalizer. by intros ->. Qed.

(** [HandleAnnotationsAndGeneration] only writes, and changes neither
    the deletion timestamp nor the finalizers. *)
Lemma HandleAnnotationsAndGeneration_shape exec tr :
  let h := HandleAnnotationsAndGeneration c (exec, tr) in
  (exists W, h.2.2 = tr ++ W /\ Forall plainWrite W)
  /\ DeletionTimestamp h.2.1 = DeletionTimestamp exec
  /\ Finalizers h.2.1 = Finalizers exec
  /\ (HasOperation exec ForceReconcileOperation = true ->
       Annotations h.2.1 = Annotations exec).
Proof.
  cbv zeta. rewrite HandleAnnotationsAndGeneration_eq.
  destruct (reconcileRequired exec); cbn.
  2: { split; [|done]. exists []. by rewrite app_nil_r. }
  destruct (writeError c W000033); cbn.
  { split; [|done]. eexists. split; [reflexivity|]. by repeat constructor. }
  destruct (HasOperation exec ReconcileOperation) eqn:Hr; cbn.
  - split; [|split; [done|split; [done|]]].
    + eexists. split; [reflexivity|]. by repeat constructor.
    + intros Hf. rewrite (HasOperation_exclusive _ Hr) in Hf. discriminate.
  - split; [|done]. eexists. split; [reflexivity|]. by repeat constructor.
Qed.

(** The operation calls of the main work: the first is handed the
    execution as it is, all carry the flag computed from it. *)
Lemma mainWork_shape exec tr :
  exists o O,
    (mainWork c (exec, tr)).2.2 = tr ++ o :: O
    /\ opCallExec o = Some exec
    /\ Forall (fun e => isOpCall e = true /\ isPatch e = false
                       /\ opCallForce e = Some (HasOperation exec ForceReconcileOperation))
         (o :: O).
Proof.
  rewrite mainWork_eq. cbv zeta.
  destruct (negb (IsZero (DeletionTimestamp exec))).
  { do 2 eexists. split; [reflexivity|]. split; [reflexivity|]. by repeat constructor. }
  destruct (IsCompletedExecutionPhase (Phase (Status exec))).
  2: { do 2 eexists. split; [reflexivity|]. split; [reflexivity|]. by repeat constructor. }
  destruct (op_HandleDeployItemPhaseAndGenerationChanges c _ exec).2.
  { do 2 eexists. split; [reflexivity|]. split; [reflexivity|]. by repeat constructor. }
  destruct (IsCompletedExecutionPhase _).
  { do 2 eexists. split; [reflexivity|]. split; [reflexivity|]. by repeat constructor. }
  do 2 eexists. split; [reflexivity|]. split; [reflexivity|]. by repeat constructor.
Qed.

(** [Ensure] either stops after writes only, with an error, or does its
    writes and then calls the operation, first on the execution [x] that
    was normalized and given the finalizer. *)
Lemma Ensure_shape exec :
  let r := Ensure c (exec, []) in
  let h := HandleAnnotationsAndGeneration c (exec, []) in
  let addFinalizer :=
    IsZero (DeletionTimestamp exec) && negb (HasFinalizer exec LandscaperFinalizer) in
  let x := if addFinalizer then AddFinalizer h.2.1 LandscaperFinalizer else h.2.1 in
  let W := h.2.2 ++ (if addFinalizer then [UpdateExecution W000025 x] else []) in
  Forall plainWrite W
  /\ match h.1 with
     | Some err => r = h
     | None =>
       match (if addFinalizer then writeError c W000025 else None) with
       | Some err =>
         r = (Some (NewError "Reconcile" "AddFinalizer" (Error_string err)), (x, W))
       | None =>
         r = mainWork c (x, W)
         /\ exists o O,
             r.2.2 = W ++ o :: O
             /\ opCallExec o = Some x
             /\ Forall (fun e => isOpCall e = true /\ isPatch e = false
                                /\ opCallForce e = Some (HasOperation x ForceReconcileOperation))
                  (o :: O)
       end
     end.
Proof.
  cbv zeta.
  destruct (HandleAnnotationsAndGeneration_shape exec []) as ((W0 & HW0 & HallW0) & Hd & Hf & _).
  cbn in HW0. rewrite Ensure_eq.
  destruct (HandleAnnotationsAndGeneration c (exec, [])) as [[err|] [exec1 tr1]];
    cbn [fst snd] in *; subst tr1.
  { split; [|reflexivity].
    apply Forall_app. split; [done|].
    destruct (_ && _); by repeat constructor. }
  rewrite Hd, (HasFinalizer_ext exec1 exec _ Hf).
  destruct (IsZero (DeletionTimestamp exec) && negb (HasFinalizer exec LandscaperFinalizer)) eqn:Hadd.
  - split; [apply Forall_app; split; [done | by repeat constructor]|].
    destruct (writeError c W000025); [reflexivity|].
    split; [reflexivity|]. apply mainWork_shape.
  - rewrite app_nil_r. split; [done|]. split; [reflexivity|]. apply mainWork_shape.
Qed.

(** The first element of a list with a property is determined. *)
Lemma first_with_unique {A} (P : A -> bool) pre1 e1 post1 pre2 e2 post2 :
  pre1 ++ e1 :: post1 = pre2 ++ e2 :: post2 ->
  Forall (fun e => P e = false) pre1 -> P e1 = true ->
  Forall (fun e => P e = false) pre2 -> P e2 = true ->
  pre1 = pre2 /\ e1 = e2 /\ post1 = post2.
Proof.
  revert pre2. induction pre1 as [|a pre1 IH]; intros [|b pre2] Heq H1 He1 H2 He2;
    cbn in Heq; injection Heq as Hhd Htl.
  - by subst.
  - subst. apply Forall_cons in H2 as [? _]. congruence.
  - subst. apply Forall_cons in H1 as [? _]. congruence.
  - apply Forall_cons in H1 as [_ H1]. apply Forall_cons in H2 as [_ H2].
    destruct (IH _ Htl H1 He1 H2 He2) as (-> & -> & ->). by subst.
Qed.

Lemma plainWrite_not_opCall W :
  Forall plainWrite W -> Forall (fun e => isOpCall e = false) W.
Proof. intros H. eapply Forall_impl; [exact H|]. by intros e (? & _). Qed.


(** *** The whole invocation *)

Lemma Reconcile_fetched req exec :
  GetExecution c req = inl exec ->
  HasIgnoreAnnotation exec && IsCompletedExecutionPhase (Phase (Status exec)) = false ->
  Reconcile c req =
  let e := Ensure c (exec, []) in
  let f := removeForceReconcileAnnotation c e.2 in
  let lsError := match e.1 with None => f.1 | Some _ => e.1 end in
  let h := handleError c lsError exec (negb (IsZero (DeletionTimestamp f.2.1))) f.2 in
  (h.1, Some h.2.1, h.2.2).
Proof.
  intros Hget Hign. unfold Reconcile. rewrite Hget, Hign. run.
  destruct (Ensure c (exec, [])) as [e1 s1].
  destruct (removeForceReconcileAnnotation c s1) as [f1 [exec2 tr2]]. cbn [fst snd].
  by destruct (handleError c _ exec _ (exec2, tr2)) as [h1 [exec3 tr3]].
Qed.

Lemma HasOperation_ext exec exec' op :
  Annotations exec = Annotations exec' -> HasOperation exec op = HasOperation exec' op.
Proof. unfold HasOperation. by intros ->. Qed.

Lemma Annotations_AddFinalizer exec finalizer :
  Annotations (AddFinalizer exec finalizer) = Annotations exec.
Proof. unfold AddFinalizer. by destruct (HasFinalizer exec finalizer). Qed.

(** The effects of [Ensure]: writes, then the calls of the operation. *)
Lemma Ensure_trace exec :
  let h := HandleAnnotationsAndGeneration c (exec, []) in
  let x := if IsZero (DeletionTimestamp exec) && negb (HasFinalizer exec LandscaperFinalizer)
           then AddFinalizer h.2.1 LandscaperFinalizer else h.2.1 in
  exists W O,
    (Ensure c (exec, [])).2.2 = W ++ O
    /\ Forall plainWrite W
    /\ Forall (fun e => isOpCall e = true /\ isPatch e = false
                       /\ opCallForce e = Some (HasOperation x ForceReconcileOperation)) O
    /\ (forall o O', O = o :: O' -> opCallExec o = Some x).
Proof.
  destruct (Ensure_shape exec) as [HW Hshape]. cbv zeta in *.
  destruct (HandleAnnotationsAndGeneration c (exec, [])) as [[herr|] [exec1 tr1]];
    cbn [fst snd] in *.
  { eexists _, []. rewrite Hshape, app_nil_r. cbn [fst snd].
    apply Forall_app in HW as [HW _]. done. }
  destruct (IsZero (DeletionTimestamp exec) && negb (HasFinalizer exec LandscaperFinalizer)).
  - destruct (writeError c W000025).
    + eexists _, []. rewrite Hshape, app_nil_r. done.
    + destruct Hshape as [_ (o & O & -> & Ho & Hall)].
      eexists _, _. split; [reflexivity|]. split; [done|]. split; [done|].
      by intros o' O' [= <- <-].
  - destruct Hshape as [_ (o & O & -> & Ho & Hall)].
    eexists _, _. split; [reflexivity|]. split; [done|]. split; [done|].
    by intros o' O' [= <- <-].
Qed.

Lemma Ensure_no_patch exec :
  Forall (fun e => isPatch e = false) (Ensure c (exec, [])).2.2.
Proof.
  destruct (Ensure_trace exec) as (W & O & -> & HW & HO & _).
  apply Forall_app. split.
  - eapply Forall_impl; [exact HW|]. by intros e (_ & ? & _).
  - eapply Forall_impl; [exact HO|]. by intros e (_ & ? & _).
Qed.

Lemma removeForceReconcileAnnotation_frame exec tr :
  exists R, (removeForceReconcileAnnotation c (exec, tr)).2.2 = tr ++ R
            /\ Forall (fun e => isOpCall e = false) R.
Proof.
  rewrite removeForceReconcileAnnotation_eq.
  destruct (HasOperation exec ForceReconcileOperation); cbn.
  - destruct (writeError c W000029); eexists; (split; [reflexivity|]); by repeat constructor.
  - exists []. by rewrite app_nil_r.
Qed.

Lemma handleError_frame err oldExec isDelete exec tr :
  exists H, (handleError c err oldExec isDelete (exec, tr)).2.2 = tr ++ H
            /\ Forall (fun e => isOpCall e = false) H.
Proof.
  rewrite handleError_eq.
  assert (forall x, Forall (fun e => isOpCall e = false) (lastErrorEvents x)) as Hev.
  { intros x. unfold lastErrorEvents. destruct (LastError (Status x)); by repeat constructor. }
  destruct (isDelete && bool_decide (err = None)); cbn.
  { exists []. by rewrite app_nil_r. }
  destruct (bool_decide _); cbn; eexists; (split; [reflexivity|]).
  - apply Forall_app. split; [apply Hev | by repeat constructor].
  - apply Hev.
Qed.

(** What follows an element that the first part of a list cannot hold
    lies in the second part. *)
Lemma after_first_part {A} (P : A -> bool) (l1 l2 pre post : list A) e :
  l1 ++ l2 = pre ++ e :: post ->
  Forall (fun x => P x = false) l1 -> P e = true ->
  exists pre', l2 = pre' ++ e :: post.
Proof.
  revert pre. induction l1 as [|a l1 IH]; intros pre Heq Hl1 He.
  - by exists pre.
  - apply Forall_cons in Hl1 as [Ha Hl1].
    destruct pre as [|b pre]; cbn in Heq; injection Heq as -> Heq; [congruence|].
    by apply (IH pre).
Qed.

(** The effects of an invocation are those of [Ensure], followed by
    effects that are no calls of the operation; a skipped invocation has
    none. *)
Lemma Reconcile_trace req exec :
  GetExecution c req = inl exec ->
  (Reconcile c req).2 = []
  \/ exists RH, (Reconcile c req).2 = (Ensure c (exec, [])).2.2 ++ RH
                /\ Forall (fun e => isOpCall e = false) RH.
Proof.
  intros Hget.
  destruct (HasIgnoreAnnotation exec && IsCompletedExecutionPhase (Phase (Status exec)))
    eqn:Hign.
  - left. unfold Reconcile. by rewrite Hget, Hign.
  - right. rewrite (Reconcile_fetched req exec Hget Hign). cbv zeta. cbn [snd].
    destruct (Ensure c (exec, [])) as [e1 [exec1 tr1]]. cbn [fst snd].
    destruct (removeForceReconcileAnnotation_frame exec1 tr1) as (R & HR & HRop).
    destruct (removeForceReconcileAnnotation c (exec1, tr1)) as [f1 [exec2 tr2]].
    cbn [fst snd] in *. subst tr2.
    match goal with
    | |- exists _, (handleError c ?err ?old ?del ?s).2.2 = _ /\ _ =>
      destruct (handleError_frame err old del exec2 (tr1 ++ R)) as (H & HH & HHop);
      rewrite HH
    end.
    exists (R ++ H). rewrite app_assoc. split; [reflexivity|]. by apply Forall_app.
Qed.

(** An element that the second part of a list cannot hold lies in the
    first part. *)
Lemma before_second_part {A} (P : A -> bool) (l1 l2 pre post : list A) e :
  l1 ++ l2 = pre ++ e :: post ->
  Forall (fun x => P x = false) l2 -> P e = true ->
  exists post', l1 = pre ++ e :: post'.
Proof.
  revert pre. induction l1 as [|a l1 IH]; intros pre Heq Hl2 He.
  - cbn in Heq. rewrite Heq in Hl2.
    apply Forall_app in Hl2 as [_ Hl2]. apply Forall_cons in Hl2 as [? _]. congruence.
  - destruct pre as [|b pre]; cbn in Heq; injection Heq as -> Heq.
    + by exists l1.
    + destruct (IH pre Heq Hl2 He) as (post' & ->). by exists post'.
Qed.


(** The finalizer in [Ensure]. *)
Lemma Ensure_finalizer exec :
  IsZero (DeletionTimestamp exec) = true ->
  let r := Ensure c (exec, []) in
  let h := HandleAnnotationsAndGeneration c (exec, []) in
  (forall pre e post,
      r.2.2 = pre ++ e :: post ->
      isOpCall e = true -> Forall (fun e' => isOpCall e' = false) pre ->
      exists x,
        opCallExec e = Some x
        /\ HasFinalizer x LandscaperFinalizer = true
        /\ (HasFinalizer exec LandscaperFinalizer = false ->
             writeError c W000025 = None /\ UpdateExecution W000025 x ∈ pre))
  /\ (h.1 = None -> HasFinalizer exec LandscaperFinalizer = false ->
       UpdateExecution W000025 (AddFinalizer h.2.1 LandscaperFinalizer) ∈ r.2.2
       /\ HasFinalizer (AddFinalizer h.2.1 LandscaperFinalizer) LandscaperFinalizer = true)
  /\ (forall err,
       h.1 = None -> HasFinalizer exec LandscaperFinalizer = false ->
       writeError c W000025 = Some err ->
       r.1 = Some (NewError "Reconcile" "AddFinalizer" (Error_string err))
       /\ Forall (fun e => isOpCall e = false) r.2.2)
  /\ (h.1 <> None -> r = h /\ Forall (fun e => isOpCall e = false) r.2.2).
Proof.
  intros Hzero. cbv zeta.
  destruct (Ensure_shape exec) as [HW Hshape]. rewrite Hzero in *. cbn [andb] in *.
  destruct (HandleAnnotationsAndGeneration_shape exec []) as (_ & _ & Hfin & _).
  destruct (HandleAnnotationsAndGeneration c (exec, [])) as [[herr|] [exec1 tr1]];
    cbn [fst snd] in *.
  { rewrite Hshape. cbn [fst snd].
    apply Forall_app in HW as [HW _]. apply plainWrite_not_opCall in HW.
    split; [|split; [done|split; [done|done]]].
    intros pre e post -> He _.
    apply Forall_app in HW as [_ HW]. apply Forall_cons in HW as [? _]. congruence. }
  destruct (HasFinalizer exec LandscaperFinalizer) eqn:Hhas; cbn [negb] in *.
  - destruct Hshape as [_ (o & O & Htr & Ho & Hall)].
    rewrite app_nil_r in *. split; [|done].
    intros pre e post Heq He Hpre. rewrite Htr in Heq.
    apply Forall_cons in Hall as [(Hop & _) _].
    destruct (first_with_unique isOpCall _ _ _ _ _ _ Heq
                (plainWrite_not_opCall _ HW) Hop Hpre He) as (<- & <- & _).
    exists exec1. split; [done|]. split; [|done].
    by rewrite (HasFinalizer_ext exec1 exec _ Hfin).
  - destruct (writeError c W000025) as [werr|] eqn:Hw.
    + rewrite Hshape. cbn [fst snd].
      pose proof (plainWrite_not_opCall _ HW) as HnoOp.
      split; [|split; [|split; [|done]]].
      * intros pre e post Heq He _. rewrite Heq in HnoOp.
        apply Forall_app in HnoOp as [_ HnoOp]. apply Forall_cons in HnoOp as [? _]. congruence.
      * intros _ _. split; [set_solver | apply HasFinalizer_AddFinalizer].
      * by intros err _ _ [= <-].
    + destruct Hshape as [_ (o & O & Htr & Ho & Hall)].
      split; [|split; [|split; [done|done]]].
      * intros pre e post Heq He Hpre. rewrite Htr in Heq.
        apply Forall_cons in Hall as [(Hop & _) _].
        destruct (first_with_unique isOpCall _ _ _ _ _ _ Heq
                    (plainWrite_not_opCall _ HW) Hop Hpre He) as (<- & <- & _).
        eexists. split; [exact Ho|]. split; [apply HasFinalizer_AddFinalizer|].
        intros _. split; [reflexivity | set_solver].
      * intros _ _. split; [rewrite Htr; set_solver | apply HasFinalizer_AddFinalizer].
Qed.

(** C9. On an invocation for an execution without deletion timestamp the
    finalizer is ensured before any reconcile work: the execution handed
    to the first call of the operation has the Landscaper finalizer; if
    the finalizer was missing, the execution with the finalizer added was
    written by [UpdateExecution] before that call, and accepted; the write
    is issued whenever the normalization before it did not fail; and if it
    fails, [Ensure] returns an error without any call of the operation.
    The first call of the operation in the effects of [Reconcile] is that
    of [Ensure]. *)
Theorem finalizer_before_reconcile_work exec :
  IsZero (DeletionTimestamp exec) = true ->
  let r := Ensure c (exec, []) in
  let h := HandleAnnotationsAndGeneration c (exec, []) in
  (forall pre e post,
      r.2.2 = pre ++ e :: post ->
      isOpCall e = true -> Forall (fun e' => isOpCall e' = false) pre ->
      exists x,
        opCallExec e = Some x
        /\ HasFinalizer x LandscaperFinalizer = true
        /\ (HasFinalizer exec LandscaperFinalizer = false ->
             writeError c W000025 = None /\ UpdateExecution W000025 x ∈ pre))
  /\ (h.1 = None -> HasFinalizer exec LandscaperFinalizer = false ->
       UpdateExecution W000025 (AddFinalizer h.2.1 LandscaperFinalizer) ∈ r.2.2
       /\ HasFinalizer (AddFinalizer h.2.1 LandscaperFinalizer) LandscaperFinalizer = true)
  /\ (forall err,
       h.1 = None -> HasFinalizer exec LandscaperFinalizer = false ->
       writeError c W000025 = Some err ->
       r.1 = Some (NewError "Reconcile" "AddFinalizer" (Error_string err))
       /\ Forall (fun e => isOpCall e = false) r.2.2)
  /\ (h.1 <> None -> r = h /\ Forall (fun e => isOpCall e = false) r.2.2)
  /\ (forall req pre e post,
       GetExecution c req = inl exec ->
       (Reconcile c req).2 = pre ++ e :: post ->
       isOpCall e = true -> Forall (fun e' => isOpCall e' = false) pre ->
       exists x, opCallExec e = Some x /\ HasFinalizer x LandscaperFinalizer = true).
Proof.
  intros Hzero. cbv zeta.
  destruct (Ensure_finalizer exec Hzero) as (Hfirst & Hwrite & Hfail & Habort).
  split; [exact Hfirst|]. split; [exact Hwrite|]. split; [exact Hfail|].
  split; [exact Habort|].
  intros req pre e post Hget Heq He Hpre.
  destruct (Reconcile_trace req exec Hget) as [Hnil|(RH & HRH & HnoOp)].
  { rewrite Hnil in Heq. by destruct pre. }
  rewrite HRH in Heq.
  destruct (before_second_part isOpCall _ _ _ _ _ Heq HnoOp He) as (post' & HE).
  destruct (Hfirst _ _ _ HE He Hpre) as (x & Hx & Hfin & _). eauto.
Qed.

Lemma handleError_Annotations err oldExec isDelete exec tr :
  Annotations (handleError c err oldExec isDelete (exec, tr)).2.1 = Annotations exec.
Proof.
  rewrite handleError_eq. destruct (isDelete && bool_decide (err = None)); [reflexivity|].
  cbv zeta. by destruct (bool_decide _).
Qed.

(** [handleError] adds events and a status write: no call of the
    operation and no patch. *)
Lemma handleError_tail err oldExec isDelete exec tr :
  exists H, (handleError c err oldExec isDelete (exec, tr)).2.2 = tr ++ H
            /\ Forall (fun e => isOpCall e = false /\ isPatch e = false) H.
Proof.
  rewrite handleError_eq.
  assert (forall x, Forall (fun e => isOpCall e = false /\ isPatch e = false)
                      (lastErrorEvents x)) as Hev.
  { intros x. unfold lastErrorEvents. destruct (LastError (Status x)); by repeat constructor. }
  destruct (isDelete && bool_decide (err = None)); cbn.
  { exists []. by rewrite app_nil_r. }
  destruct (bool_decide _); cbn; eexists; (split; [reflexivity|]).
  - apply Forall_app. split; [apply Hev | by repeat constructor].
  - apply Hev.
Qed.

Lemma mainWork_Annotations exec tr :
  operationKeepsAnnotations c ->
  Annotations (mainWork c (exec, tr)).2.1 = Annotations exec.
Proof.
  intros (Hd & Hh & Hr). rewrite mainWork_eq. cbv zeta.
  destruct (negb (IsZero (DeletionTimestamp exec))); [apply Hd|].
  destruct (IsCompletedExecutionPhase (Phase (Status exec))); [|apply Hr].
  destruct (op_HandleDeployItemPhaseAndGenerationChanges c _ exec).2; [apply Hh|].
  destruct (IsCompletedExecutionPhase _); cbn [fst snd]; [apply Hh|].
  rewrite Hr. apply Hh.
Qed.

(** [Ensure] itself leaves a force-reconcile annotation where it is. *)
Lemma Ensure_Annotations exec :
  operationKeepsAnnotations c ->
  HasOperation exec ForceReconcileOperation = true ->
  Annotations (Ensure c (exec, [])).2.1 = Annotations exec.
Proof.
  intros Hkeep Hforce. rewrite Ensure_eq.
  destruct (HandleAnnotationsAndGeneration_shape exec []) as (_ & _ & _ & Hann).
  specialize (Hann Hforce). cbv zeta in Hann.
  destruct (HandleAnnotationsAndGeneration c (exec, [])) as [[err|] [exec1 tr1]];
    cbn [fst snd] in *; [exact Hann|].
  destruct (IsZero (DeletionTimestamp exec1) && negb (HasFinalizer exec1 LandscaperFinalizer)).
  - cbv zeta. destruct (writeError c W000025); cbn [fst snd].
    + by rewrite Annotations_AddFinalizer.
    + by rewrite mainWork_Annotations, Annotations_AddFinalizer.
  - by rewrite mainWork_Annotations.
Qed.

(** C4. Whenever a reconcile annotation, a force-reconcile annotation or
    an outdated generation is observed, [HandleAnnotationsAndGeneration]
    sets [Status.ObservedGeneration] to the generation and [Status.Phase]
    to Init and writes the status, first of all. Afterwards, the status
    write accepted, the plain reconcile annotation is removed and the
    execution updated. The force-reconcile annotation is left in place: it
    is on the execution handed to the first call of the operation, every
    call of the operation carries the force flag, and [Ensure] leaves it
    on the execution when the operation does. It is
    [removeForceReconcileAnnotation] that deletes it, and [Reconcile]
    removes it that way: in an invocation that is not skipped, when the
    annotation is on the execution after [Ensure], the effects of
    [Reconcile] are those of [Ensure], then the patch [W000029] of the
    execution without the annotation, then neither a call of the operation
    nor another patch; and the execution at the end of [Reconcile] has no
    force-reconcile annotation. *)
Theorem annotations_and_generation_normalized exec tr :
  reconcileRequired exec = true ->
  let h := HandleAnnotationsAndGeneration c (exec, tr) in
  let normalized := set_Status exec (normalizedStatus exec) in
  (ObservedGeneration (Status h.2.1) = Generation exec
   /\ Phase (Status h.2.1) = PhaseInit
   /\ exists rest,
        h.2.2 = tr ++ UpdateExecutionStatus W000033 normalized :: rest
        /\ Forall (fun e => isStatusWrite e = false) rest)
  /\ (HasOperation exec ReconcileOperation = true -> writeError c W000033 = None ->
       Annotations h.2.1 = delete OperationAnnotation (Annotations exec)
       /\ HasOperation h.2.1 ReconcileOperation = false
       /\ h.2.2 = tr ++ [UpdateExecutionStatus W000033 normalized; UpdateExecution W000027 h.2.1])
  /\ (HasOperation exec ReconcileOperation = false ->
       Annotations h.2.1 = Annotations exec
       /\ h.2.2 = tr ++ [UpdateExecutionStatus W000033 normalized])
  /\ (HasOperation exec ForceReconcileOperation = true ->
       HasOperation h.2.1 ForceReconcileOperation = true
       /\ (forall e, e ∈ (Ensure c (exec, [])).2.2 -> isOpCall e = true ->
             opCallForce e = Some true)
       /\ (forall pre e post,
             (Ensure c (exec, [])).2.2 = pre ++ e :: post ->
             isOpCall e = true -> Forall (fun e' => isOpCall e' = false) pre ->
             exists x, opCallExec e = Some x /\ HasOperation x ForceReconcileOperation = true))
  /\ (forall exec0 tr0,
       HasOperation exec0 ForceReconcileOperation = true ->
       let f := removeForceReconcileAnnotation c (exec0, tr0) in
       Annotations f.2.1 = delete OperationAnnotation (Annotations exec0)
       /\ HasOperation f.2.1 ForceReconcileOperation = false
       /\ exists rest,
            f.2.2 = tr0 ++ PatchExecution W000029 f.2.1 exec0 :: rest
            /\ Forall (fun e => isEvent e = true) rest)
  /\ (forall req pre e post,
       (Reconcile c req).2 = pre ++ e :: post -> isPatch e = true ->
       Forall (fun e' => isOpCall e' = false) post)
  /\ (forall req,
       GetExecution c req = inl exec ->
       HasIgnoreAnnotation exec && IsCompletedExecutionPhase (Phase (Status exec)) = false ->
       let e := Ensure c (exec, []) in
       let patched := set_Annotations e.2.1 (delete OperationAnnotation (Annotations e.2.1)) in
       (exists x, (Reconcile c req).1.2 = Some x
                  /\ HasOperation x ForceReconcileOperation = false)
       /\ (HasOperation e.2.1 ForceReconcileOperation = true ->
            exists rest,
              (Reconcile c req).2 = e.2.2 ++ PatchExecution W000029 patched e.2.1 :: rest
              /\ Forall (fun e' => isOpCall e' = false /\ isPatch e' = false) rest)
       /\ (HasOperation exec ForceReconcileOperation = true -> operationKeepsAnnotations c ->
            HasOperation e.2.1 ForceReconcileOperation = true)).
Proof.
  intros Hreq. cbv zeta.
  split; [|split; [|split; [|split; [|split; [|split]]]]].
  - rewrite HandleAnnotationsAndGeneration_eq, Hreq. cbv zeta.
    destruct (writeError c W000033); cbn.
    { repeat split; eauto. }
    destruct (HasOperation exec ReconcileOperation); cbn.
    + repeat split. eexists. split; [reflexivity|]. by repeat constructor.
    + repeat split; eauto.
  - intros Hr Hw. rewrite HandleAnnotationsAndGeneration_eq, Hreq, Hw, Hr. cbn.
    repeat split. apply (HasOperation_deleted (set_Status exec (normalizedStatus exec))).
  - intros Hr. rewrite HandleAnnotationsAndGeneration_eq, Hreq, Hr. cbv zeta.
    by destruct (writeError c W000033).
  - intros Hforce.
    destruct (HandleAnnotationsAndGeneration_shape exec tr) as (_ & _ & _ & Hann).
    specialize (Hann Hforce). cbv zeta in Hann.
    split; [by rewrite (HasOperation_ext _ exec _ Hann)|].
    destruct (HandleAnnotationsAndGeneration_shape exec []) as (_ & _ & _ & Hann0).
    specialize (Hann0 Hforce). cbv zeta in Hann0.
    destruct (Ensure_trace exec) as (W & O & -> & HW & HO & Hfirst). cbv zeta in *.
    set (x := if IsZero (DeletionTimestamp exec) && negb (HasFinalizer exec LandscaperFinalizer)
              then AddFinalizer (HandleAnnotationsAndGeneration c (exec, [])).2.1
                     LandscaperFinalizer
              else (HandleAnnotationsAndGeneration c (exec, [])).2.1) in *.
    assert (HasOperation x ForceReconcileOperation = true) as Hx.
    { rewrite <- Hforce. apply HasOperation_ext. subst x.
      destruct (_ && _); [rewrite Annotations_AddFinalizer|]; exact Hann0. }
    pose proof (plainWrite_not_opCall _ HW) as HnoOp.
    split.
    + intros e He Hop. apply elem_of_app in He as [He|He].
      * rewrite Forall_forall in HnoOp. specialize (HnoOp _ He). congruence.
      * rewrite Forall_forall in HO. destruct (HO _ He) as (_ & _ & ->). by rewrite Hx.
    + intros pre e post Heq Hop Hpre.
      destruct O as [|o O'].
      { rewrite app_nil_r in Heq. rewrite Heq in HnoOp.
        apply Forall_app in HnoOp as [_ HnoOp]. apply Forall_cons in HnoOp as [? _]. congruence. }
      pose proof HO as HO'. apply Forall_cons in HO' as [(Hop' & _) _].
      destruct (first_with_unique isOpCall _ _ _ _ _ _ Heq HnoOp Hop' Hpre Hop) as (_ & <- & _).
      exists x. split; [by apply (Hfirst o O')|exact Hx].
  - intros exec0 tr0 Hforce. cbv zeta.
    rewrite removeForceReconcileAnnotation_eq, Hforce. cbv zeta.
    destruct (writeError c W000029); cbn.
    + split; [done|]. split; [apply HasOperation_deleted|].
      eexists. split; [reflexivity|]. by repeat constructor.
    + split; [done|]. split; [apply HasOperation_deleted|].
      eexists. split; [reflexivity|]. constructor.
  - intros req pre e post Heq Hpatch.
    unfold Reconcile in Heq.
    destruct (GetExecution c req) as [exec0|gerr] eqn:Hget.
    2: { destruct (IsNotFound gerr); cbn in Heq; by destruct pre. }
    destruct (HasIgnoreAnnotation exec0 && IsCompletedExecutionPhase (Phase (Status exec0)))
      eqn:Hign.
    { cbn in Heq. by destruct pre. }
    pose proof (Reconcile_fetched req exec0 Hget Hign) as HR.
    unfold Reconcile in HR. rewrite Hget, Hign in HR. rewrite HR in Heq. clear HR.
    cbv zeta in Heq. cbn [snd] in Heq.
    pose proof (Ensure_no_patch exec0) as HE.
    destruct (Ensure c (exec0, [])) as [e1 [exec1 tr1]]. cbn [fst snd] in *.
    destruct (removeForceReconcileAnnotation_frame exec1 tr1) as (R & HR & HRop).
    destruct (removeForceReconcileAnnotation c (exec1, tr1)) as [f1 [exec2 tr2]].
    cbn [fst snd] in *. subst tr2.
    match type of Heq with
    | (handleError c ?err ?old ?del ?s).2.2 = _ =>
      destruct (handleError_frame err old del exec2 (tr1 ++ R)) as (H & HH & HHop);
      rewrite HH in Heq
    end.
    rewrite <- app_assoc in Heq.
    destruct (after_first_part isPatch _ _ _ _ _ Heq HE Hpatch) as (pre' & Hsplit).
    assert (Forall (fun e' => isOpCall e' = false) (R ++ H)) as Hall
      by (apply Forall_app; done).
    rewrite Hsplit in Hall. apply Forall_app in Hall as [_ Hall].
    by apply Forall_cons in Hall as [_ Hall].
  - intros req Hget Hign.
    pose proof (Ensure_Annotations exec) as HA.
    rewrite (Reconcile_fetched req exec Hget Hign). cbv zeta. cbn [fst snd].
    destruct (Ensure c (exec, [])) as [e1 [exec1 tr1]]. cbn [fst snd] in *.
    split; [|split].
    + eexists. split; [reflexivity|].
      rewrite removeForceReconcileAnnotation_eq.
      destruct (HasOperation exec1 ForceReconcileOperation) eqn:Hf; cbv zeta.
      * destruct (writeError c W000029); cbn [fst snd];
          rewrite (HasOperation_ext _ _ _ (handleError_Annotations _ _ _ _ _));
          apply HasOperation_deleted.
      * cbn [fst snd]. rewrite (HasOperation_ext _ _ _ (handleError_Annotations _ _ _ _ _)).
        exact Hf.
    + intros Hf. rewrite removeForceReconcileAnnotation_eq, Hf. cbv zeta.
      destruct (writeError c W000029) as [perr|]; cbn [fst snd].
      * match goal with
        | |- context [handleError c ?err ?old ?del (?x, ?t)] =>
          destruct (handleError_tail err old del x t) as (H & -> & HH)
        end.
        eexists. rewrite <- !app_assoc. split; [reflexivity|].
        constructor; [done|exact HH].
      * match goal with
        | |- context [handleError c ?err ?old ?del (?x, ?t)] =>
          destruct (handleError_tail err old del x t) as (H & -> & HH)
        end.
        eexists. rewrite <- !app_assoc. split; [reflexivity|]. exact HH.
    + intros Hforce Hkeep. rewrite <- Hforce. apply HasOperation_ext. by apply HA.
Qed.


Lemma Status_AddFinalizer exec finalizer :
  Status (AddFinalizer exec finalizer) = Status exec.
Proof. unfold AddFinalizer. by destruct (HasFinalizer exec finalizer). Qed.

Lemma DeletionTimestamp_of_AddFinalizer exec finalizer :
  DeletionTimestamp (AddFinalizer exec finalizer) = DeletionTimestamp exec.
Proof. unfold AddFinalizer. by destruct (HasFinalizer exec finalizer). Qed.

(** The fast path, written out.  The invocation finds the execution
    completed, without deletion timestamp and without a reason to
    reconcile, and its deploy items unchanged; [x] is the execution with
    the finalizer, which is written when it was missing. *)
Lemma Reconcile_fast_path req exec :
  let x := AddFinalizer exec LandscaperFinalizer in
  let final := set_Status x (handledStatus c None x) in
  GetExecution c req = inl exec ->
  Phase (Status exec) = PhaseCompleted ->
  IsZero (DeletionTimestamp exec) = true ->
  reconcileRequired exec = false ->
  HasFinalizer exec LandscaperFinalizer = true \/ writeError c W000025 = None ->
  op_HandleDeployItemPhaseAndGenerationChanges c false x = (x, None) ->
  Reconcile c req =
  if HasIgnoreAnnotation exec then (None, Some exec, [])
  else
    (if bool_decide (Status exec ≠ Status final)
     then match writeError c W000031 with
          | Some updateErr => Some (ApiErr updateErr)
          | None => None
          end
     else None,
     Some final,
     (if HasFinalizer exec LandscaperFinalizer then [] else [UpdateExecution W000025 x])
     ++ OpHandleDeployItemPhaseAndGenerationChanges false x
        :: lastErrorEvents final
        ++ (if bool_decide (Status exec ≠ Status final)
            then [UpdateExecutionStatus W000031 final] else [])).
Proof.
  intros x final Hget Hphase Hzero Hreq Hfin Hop.
  destruct (HasIgnoreAnnotation exec) eqn:Hign.
  { unfold Reconcile. rewrite Hget, Hign, Hphase. reflexivity. }
  rewrite (Reconcile_fetched req exec Hget) by (by rewrite Hign).
  assert (HasOperation exec ForceReconcileOperation = false) as Hforce.
  { unfold reconcileRequired in Hreq. apply orb_false_iff in Hreq as [Hreq _].
    by apply orb_false_iff in Hreq as [_ ?]. }
  assert (Annotations x = Annotations exec) as HAx by apply Annotations_AddFinalizer.
  assert (Status x = Status exec) as HSx by apply Status_AddFinalizer.
  assert (DeletionTimestamp x = DeletionTimestamp exec) as HDx
    by apply DeletionTimestamp_of_AddFinalizer.
  assert (mainWork c (x, (if HasFinalizer exec LandscaperFinalizer then []
                          else [UpdateExecution W000025 x])) =
          (None, (x, (if HasFinalizer exec LandscaperFinalizer then []
                      else [UpdateExecution W000025 x])
                     ++ [OpHandleDeployItemPhaseAndGenerationChanges false x]))) as HM.
  { rewrite mainWork_eq. cbv zeta.
    rewrite HDx, Hzero, (HasOperation_ext x exec _ HAx), Hforce, HSx, Hphase, Hop.
    cbn. by rewrite HSx, Hphase. }
  assert (Ensure c (exec, []) =
          (None, (x, (if HasFinalizer exec LandscaperFinalizer then []
                      else [UpdateExecution W000025 x])
                     ++ [OpHandleDeployItemPhaseAndGenerationChanges false x]))) as HE.
  { rewrite Ensure_eq, HandleAnnotationsAndGeneration_eq, Hreq, Hzero. cbn [andb].
    rewrite <- HM.
    destruct (HasFinalizer exec LandscaperFinalizer) eqn:Hf; cbn [negb].
    - assert (x = exec) as -> by (subst x; unfold AddFinalizer; by rewrite Hf). reflexivity.
    - destruct Hfin as [?|Hw]; [discriminate|]. cbv zeta. rewrite Hw. reflexivity. }
  rewrite HE. cbv zeta. cbn [fst snd].
  rewrite removeForceReconcileAnnotation_eq, (HasOperation_ext x exec _ HAx), Hforce.
  cbn [fst snd].
  rewrite handleError_eq, HDx, Hzero. cbn [negb andb]. cbv zeta. fold final.
  change (Status final) with (handledStatus c None x).
  destruct (bool_decide (Status exec ≠ handledStatus c None x)); cbn [fst snd].
  - rewrite <- app_assoc. by destruct (writeError c W000031).
  - by rewrite <- app_assoc, app_nil_r.
Qed.

(** On the fast path the status changes only by an error on record that
    has persisted past the threshold. *)
Lemma fast_path_status x :
  Phase (Status x) = PhaseCompleted ->
  handledStatus c None x =
  match LastError (Status x) with
  | Some lastErr =>
    if bool_decide (5 * Minute < persistedFor lastErr)%Z
    then {| ObservedGeneration := ObservedGeneration (Status x);
            Phase := PhaseFailed;
            LastError := Some lastErr |}
    else Status x
  | None => Status x
  end.
Proof.
  intros Hphase. unfold handledStatus, mergedLastError, GetPhaseForLastError.
  destruct (Status x) as [og ph [le|]]; cbn in *; subst ph; [|reflexivity].
  by destruct (bool_decide _).
Qed.

End Proofs.

Lemma afterInvocation_fields c req :
  writeError (afterInvocation c req) = writeError c
  /\ Now (afterInvocation c req) = Now c
  /\ op_HandleDeployItemPhaseAndGenerationChanges (afterInvocation c req)
     = op_HandleDeployItemPhaseAndGenerationChanges c.
Proof. unfold afterInvocation. by destruct (GetExecution c req). Qed.

(** C6 (amended). Whatever the first invocation did, when the second of
    two invocations of [Reconcile] in succession finds the execution on
    the already-completed fast path (phase Completed, no deletion
    timestamp, the generation observed, neither a reconcile nor a
    force-reconcile annotation, the deploy items unchanged, and the
    finalizer set or its update accepted), then: with the ignore
    annotation it does nothing at all; otherwise it updates the execution
    with the finalizer if that was missing, calls the check of the deploy
    items and nothing else of the operation, and ends in [handleError].
    With no error on record it performs no status write and emits no
    event. With an error on record it emits the warning event for that
    error again; it writes the status only when that error has persisted
    past the threshold, and the status written then has the phase Failed;
    as long as the error has not persisted past the threshold there is no
    status write. *)
Theorem second_invocation_on_fast_path c req exec :
  let c2 := afterInvocation c req in
  let x := AddFinalizer exec LandscaperFinalizer in
  let final := set_Status x (handledStatus c None x) in
  GetExecution c2 req = inl exec ->
  Phase (Status exec) = PhaseCompleted ->
  IsZero (DeletionTimestamp exec) = true ->
  reconcileRequired exec = false ->
  HasFinalizer exec LandscaperFinalizer = true \/ writeError c W000025 = None ->
  op_HandleDeployItemPhaseAndGenerationChanges c false x = (x, None) ->
  (HasIgnoreAnnotation exec = true -> Reconcile c2 req = (None, Some exec, []))
  /\ (HasIgnoreAnnotation exec = false ->
       Reconcile c2 req =
       (if bool_decide (Status exec ≠ Status final)
        then match writeError c W000031 with
             | Some updateErr => Some (ApiErr updateErr)
             | None => None
             end
        else None,
        Some final,
        (if HasFinalizer exec LandscaperFinalizer then [] else [UpdateExecution W000025 x])
        ++ OpHandleDeployItemPhaseAndGenerationChanges false x
           :: lastErrorEvents final
           ++ (if bool_decide (Status exec ≠ Status final)
               then [UpdateExecutionStatus W000031 final] else [])))
  /\ (LastError (Status exec) = None -> final = x /\ silent (Reconcile c2 req).2)
  /\ (forall lastErr,
        LastError (Status exec) = Some lastErr -> HasIgnoreAnnotation exec = false ->
        Event final EventTypeWarning (Reason lastErr) (Message lastErr) ∈ (Reconcile c2 req).2
        /\ ((persistedFor lastErr <= 5 * Minute)%Z ->
              final = x /\ Forall (fun e => isStatusWrite e = false) (Reconcile c2 req).2)
        /\ ((5 * Minute < persistedFor lastErr)%Z ->
              Phase (Status final) = PhaseFailed
              /\ UpdateExecutionStatus W000031 final ∈ (Reconcile c2 req).2)).
Proof.
  intros c2 x final Hget Hphase Hzero Hreq Hfin Hop.
  destruct (afterInvocation_fields c req) as (Hw & Hn & Hh). fold c2 in Hw, Hn, Hh.
  assert (Hfin2 : HasFinalizer exec LandscaperFinalizer = true \/ writeError c2 W000025 = None)
    by (by rewrite Hw).
  assert (Hop2 : op_HandleDeployItemPhaseAndGenerationChanges c2 false x = (x, None))
    by (by rewrite Hh).
  pose proof (Reconcile_fast_path c2 req exec Hget Hphase Hzero Hreq Hfin2 Hop2) as HR.
  cbv zeta in HR. rewrite Hw in HR.
  change (handledStatus c2 None (AddFinalizer exec LandscaperFinalizer))
    with (handledStatus c None x) in HR.
  fold x in HR. fold final in HR.
  assert (Status x = Status exec) as HSx by apply Status_AddFinalizer.
  assert (Phase (Status x) = PhaseCompleted) as Hphx by (by rewrite HSx).
  pose proof (fast_path_status c x Hphx) as Hst. rewrite HSx in Hst.
  assert (forall st, st = Status exec -> set_Status x st = x) as Hsame.
  { intros st ->. rewrite <- HSx. by destruct x. }
  split; [|split; [|split]].
  - intros Hign. by rewrite HR, Hign.
  - intros Hign. by rewrite HR, Hign.
  - intros Hnone. rewrite Hnone in Hst.
    assert (final = x) as Hfx by (by apply Hsame).
    split; [exact Hfx|].
    rewrite HR. destruct (HasIgnoreAnnotation exec); [constructor|]. cbn [snd].
    rewrite Hfx. unfold lastErrorEvents. rewrite HSx, Hnone.
    rewrite bool_decide_eq_false_2 by (intros H; by apply H).
    destruct (HasFinalizer exec LandscaperFinalizer); by repeat constructor.
  - intros lastErr Hsome Hign. rewrite Hsome in Hst. rewrite HR, Hign. cbn [snd].
    assert (LastError (Status final) = Some lastErr) as Hle.
    { subst final. cbn. unfold mergedLastError. by rewrite HSx. }
    split; [|split].
    + apply elem_of_app. right. apply list_elem_of_further, elem_of_app. left.
      unfold lastErrorEvents. rewrite Hle. apply list_elem_of_here.
    + intros Hwithin. rewrite bool_decide_eq_false_2 in Hst by lia.
      assert (final = x) as Hfx by (by apply Hsame).
      split; [exact Hfx|]. rewrite Hfx, HSx.
      rewrite bool_decide_eq_false_2 by (intros H; by apply H).
      unfold lastErrorEvents. rewrite HSx, Hsome.
      destruct (HasFinalizer exec LandscaperFinalizer); by repeat constructor.
    + intros Hpast. rewrite bool_decide_eq_true_2 in Hst by lia.
      assert (Phase (Status final) = PhaseFailed) as Hfailed.
      { subst final. cbn [Status set_Status]. by rewrite Hst. }
      split; [exact Hfailed|].
      rewrite bool_decide_eq_true_2.
      2: { intros Heq. rewrite Heq, Hfailed in Hphase. discriminate. }
      apply elem_of_app. right. apply list_elem_of_further, elem_of_app. right.
      apply list_elem_of_here.
Qed.

End execution_proofs.

(* --------------------------------------------------------------------- *)
(** *** The controller on concrete executions *)
(* --------------------------------------------------------------------- *)

Module execution_examples.
Import execution execution_spec execution_proofs execution_fixtures.
Local Open Scope list_scope.

(** C6, as stated, fails: the execution is Completed and up to date,
    nothing is requested and nothing changes, and an error younger than
    the threshold is on record. The first invocation takes the fast path,
    writes nothing and emits the warning event for that error; the store
    is as it was, and the second invocation emits the event again. And
    when the error on record has persisted past the threshold and the
    API server rejects the status write of the first invocation, the
    store is as it was and the second invocation writes the status
    again. *)
Lemma settled_with_error_emits_event_again :
  (Reconcile (fakeCluster settledWithError allAccepted) req).2 =
    [OpHandleDeployItemPhaseAndGenerationChanges false settledWithError;
     Event settledWithError EventTypeWarning
       "HandleDeployItemPhaseAndGenerationChanges" "deploy item not found"]
  /\ GetExecution (afterInvocation (fakeCluster settledWithError allAccepted) req) req
     = inl settledWithError
  /\ (Reconcile (afterInvocation (fakeCluster settledWithError allAccepted) req) req).2 =
    [OpHandleDeployItemPhaseAndGenerationChanges false settledWithError;
     Event settledWithError EventTypeWarning
       "HandleDeployItemPhaseAndGenerationChanges" "deploy item not found"]
  /\ ~ secondInvocationSilent (fakeCluster settledWithError allAccepted) req
  /\ GetExecution (afterInvocation (fakeCluster settledWithOldError (rejecting W000031)) req) req
     = inl settledWithOldError
  /\ (Reconcile (afterInvocation (fakeCluster settledWithOldError (rejecting W000031)) req)
        req).2 =
    [OpHandleDeployItemPhaseAndGenerationChanges false settledWithOldError;
     Event escalatedExec EventTypeWarning "DeployItems" "deploy item failed";
     UpdateExecutionStatus W000031 escalatedExec]
  /\ ~ secondInvocationSilent (fakeCluster settledWithOldError (rejecting W000031)) req.
Proof.
  assert ((Reconcile (afterInvocation (fakeCluster settledWithError allAccepted) req) req).2 =
    [OpHandleDeployItemPhaseAndGenerationChanges false settledWithError;
     Event settledWithError EventTypeWarning
       "HandleDeployItemPhaseAndGenerationChanges" "deploy item not found"]) as E
    by (vm_compute; reflexivity).
  assert ((Reconcile (afterInvocation (fakeCluster settledWithOldError (rejecting W000031)) req)
             req).2 =
    [OpHandleDeployItemPhaseAndGenerationChanges false settledWithOldError;
     Event escalatedExec EventTypeWarning "DeployItems" "deploy item failed";
     UpdateExecutionStatus W000031 escalatedExec]) as E'
    by (vm_compute; reflexivity).
  split; [vm_compute; reflexivity|]. split; [vm_compute; reflexivity|].
  split; [exact E|]. split; [|split; [vm_compute; reflexivity|split; [exact E'|]]].
  - unfold secondInvocationSilent, silent. rewrite E. intros H.
    apply Forall_cons in H as [_ H]. apply Forall_cons in H as [[_ H] _]. discriminate.
  - unfold secondInvocationSilent, silent. rewrite E'. intros H.
    apply Forall_cons in H as [_ H]. apply Forall_cons in H as [[_ H] _]. discriminate.
Qed.

Lemma second_invocation_on_fast_path_witness :
  Event settledWithError EventTypeWarning
    "HandleDeployItemPhaseAndGenerationChanges" "deploy item not found"
    ∈ (Reconcile (afterInvocation (fakeCluster settledWithError allAccepted) req) req).2
  /\ Forall (fun e => isStatusWrite e = false)
       (Reconcile (afterInvocation (fakeCluster settledWithError allAccepted) req) req).2
  /\ silent (Reconcile (afterInvocation (fakeCluster settledExec allAccepted) req) req).2
  /\ UpdateExecutionStatus W000031 escalatedExec
     ∈ (Reconcile (afterInvocation (fakeCluster settledWithOldError (rejecting W000031)) req)
          req).2.
Proof.
  destruct (second_invocation_on_fast_path (fakeCluster settledWithError allAccepted) req
              settledWithError eq_refl eq_refl eq_refl eq_refl (or_introl eq_refl) eq_refl)
    as (_ & _ & _ & Hev).
  destruct (Hev recentError eq_refl eq_refl) as (Hevent & Hwithin & _).
  destruct (second_invocation_on_fast_path (fakeCluster settledExec allAccepted) req
              settledExec eq_refl eq_refl eq_refl eq_refl (or_introl eq_refl) eq_refl)
    as (_ & _ & Hsilent & _).
  destruct (second_invocation_on_fast_path (fakeCluster settledWithOldError (rejecting W000031))
              req settledWithOldError eq_refl eq_refl eq_refl eq_refl (or_introl eq_refl)
              eq_refl)
    as (_ & _ & _ & Hold).
  destruct (Hold oldError eq_refl eq_refl) as (_ & _ & Hpast).
  split; [exact Hevent|]. split; [apply Hwithin; vm_compute; discriminate|].
  split; [exact (proj2 (Hsilent eq_refl))|].
  apply Hpast. vm_compute. reflexivity.
Defined.

Lemma annotations_and_generation_normalized_witness :
  (Phase (Status (HandleAnnotationsAndGeneration (fakeCluster forceExec allAccepted)
                    (forceExec, [])).2.1) = PhaseInit
   /\ HasOperation (HandleAnnotationsAndGeneration (fakeCluster forceExec allAccepted)
                      (forceExec, [])).2.1 ForceReconcileOperation = true)
  /\ HasOperation (HandleAnnotationsAndGeneration (fakeCluster reconcileExec allAccepted)
                     (reconcileExec, [])).2.1 ReconcileOperation = false
  /\ (exists x, (Reconcile (fakeCluster forceExec allAccepted) req).1.2 = Some x
                 /\ HasOperation x ForceReconcileOperation = false)
  /\ (exists rest,
        (Reconcile (fakeCluster forceExec allAccepted) req).2 =
          (Ensure (fakeCluster forceExec allAccepted) (forceExec, [])).2.2
          ++ PatchExecution W000029
               (set_Annotations (Ensure (fakeCluster forceExec allAccepted) (forceExec, [])).2.1
                  (delete OperationAnnotation
                     (Annotations (Ensure (fakeCluster forceExec allAccepted)
                                     (forceExec, [])).2.1)))
               (Ensure (fakeCluster forceExec allAccepted) (forceExec, [])).2.1 :: rest
        /\ Forall (fun e' => isOpCall e' = false /\ isPatch e' = false) rest).
Proof.
  destruct (annotations_and_generation_normalized (fakeCluster forceExec allAccepted)
              forceExec [] eq_refl) as ((_ & Hphase & _) & _ & _ & Hforce & _ & _ & Hrem).
  destruct (annotations_and_generation_normalized (fakeCluster reconcileExec allAccepted)
              reconcileExec [] eq_refl) as (_ & Hrec & _).
  destruct (Hrem req eq_refl eq_refl) as (Hend & Hpatch & Hkept).
  split; [split|split; [|split]].
  - exact Hphase.
  - exact (proj1 (Hforce eq_refl)).
  - exact (proj1 (proj2 (Hrec eq_refl eq_refl))).
  - exact Hend.
  - apply Hpatch, Hkept; [reflexivity|].
    split; [|split]; intros f x; reflexivity.
Defined.

Lemma error_escalates_after_threshold_witness :
  Phase (Status (handleError (fakeCluster progressingRecent allAccepted) (Some failure)
                   progressingRecent false (progressingRecent, [])).2.1) = PhaseProgressing
  /\ Phase (Status (handleError (fakeCluster progressingAtThreshold allAccepted) (Some failure)
                      progressingAtThreshold false (progressingAtThreshold, [])).2.1)
     = PhaseProgressing
  /\ Phase (Status (handleError (fakeCluster progressingOld allAccepted) (Some failure)
                      progressingOld false (progressingOld, [])).2.1) = PhaseFailed.
Proof.
  split; [|split].
  - destruct (proj2 (error_escalates_after_threshold
                       (fakeCluster progressingRecent allAccepted) (Some failure)
                       progressingRecent false progressingRecent []) failure eq_refl)
      as (merged & _ & _ & _ & _ & _ & Hp & Hle & _).
    apply Hle. rewrite Hp. discriminate.
  - destruct (proj2 (error_escalates_after_threshold
                       (fakeCluster progressingAtThreshold allAccepted) (Some failure)
                       progressingAtThreshold false progressingAtThreshold []) failure eq_refl)
      as (merged & _ & _ & _ & _ & _ & Hp & Hle & _).
    apply Hle. rewrite Hp. discriminate.
  - destruct (proj2 (error_escalates_after_threshold
                       (fakeCluster progressingOld allAccepted) (Some failure)
                       progressingOld false progressingOld []) failure eq_refl)
      as (merged & _ & _ & _ & _ & _ & Hp & _ & Hgt & _).
    apply Hgt. rewrite Hp. reflexivity.
Defined.

Lemma finalizer_before_reconcile_work_witness :
  UpdateExecution W000025 (AddFinalizer bareExec LandscaperFinalizer)
    ∈ (Ensure (fakeCluster bareExec allAccepted) (bareExec, [])).2.2
  /\ (Ensure (fakeCluster bareExec (rejecting W000025)) (bareExec, [])).1
     = Some (NewError "Reconcile" "AddFinalizer" "the object has been modified").
Proof.
  split.
  - exact (proj1 (proj1 (proj2 (finalizer_before_reconcile_work
                                  (fakeCluster bareExec allAccepted) bareExec eq_refl))
                    eq_refl eq_refl)).
  - exact (proj1 (proj1 (proj2 (proj2 (finalizer_before_reconcile_work
                                         (fakeCluster bareExec (rejecting W000025))
                                         bareExec eq_refl)))
                    (ApiError ReasonConflict "the object has been modified")
                    eq_refl eq_refl eq_refl)).
Defined.

Lemma write_error_replaces_primary_error_witness :
  (handleError (fakeCluster bareExec (rejecting W000031)) (Some failure) bareExec false
     (bareExec, [])).1
  = Some (ApiErr (ApiError ReasonConflict "the object has been modified"))
  /\ (handleError (fakeCluster bareExec allAccepted) (Some failure) bareExec false
        (bareExec, [])).1
     = Some (LsErr failure).
Proof.
  split.
  - apply (proj1 (write_error_replaces_primary_error
                    (fakeCluster bareExec (rejecting W000031)) (Some failure) bareExec false
                    bareExec [])
             (ApiError ReasonConflict "the object has been modified")).
    + reflexivity.
    + discriminate.
    + reflexivity.
  - apply (proj1 (proj2 (write_error_replaces_primary_error
                           (fakeCluster bareExec allAccepted) (Some failure) bareExec false
                           bareExec []))).
    left. reflexivity.
Defined.

End execution_examples.

(* ===================================================================== *)
(** ** Properties of the export constructor *)
(* ===================================================================== *)

Module exports_proofs.
Import exports exports_fixtures lsv1alpha1helper.
Local Open Scope list_scope.

Lemma exporters_app key l1 l2 :
  exporters key (l1 ++ l2) = exporters key l1 ++ exporters key l2.
Proof.
  induction l1 as [|[sib exported] l1 IH]; cbn; [reflexivity|].
  destruct (IsCompletedInstallationPhase _); [|exact IH].
  destruct (exported !! key); [|exact IH]. cbn. by rewrite IH.
Qed.

Lemma exporters_none key l :
  Forall (fun s => IsCompletedInstallationPhase (inst_Status_Phase s.1) = false
                   \/ s.2 !! key = None) l ->
  exporters key l = [].
Proof.
  induction 1 as [|[sib exported] l [Hs|Hs] _ IH]; cbn in *; [reflexivity| |].
  - by rewrite Hs.
  - rewrite Hs. by destruct (IsCompletedInstallationPhase _).
Qed.

Lemma exporters_some key l :
  Exists (fun s => IsCompletedInstallationPhase (inst_Status_Phase s.1) = true
                   /\ is_Some (s.2 !! key)) l ->
  exists e es, exporters key l = e :: es.
Proof.
  induction 1 as [[sib exported] l [Hc [v Hv]]|[sib exported] l _ (e & es & IH)]; cbn in *.
  - rewrite Hc, Hv. eauto.
  - rewrite IH. destruct (IsCompletedInstallationPhase _); [|eauto].
    destruct (exported !! key); eauto.
Qed.

(** The keys of a constructed export set are the declared keys, in
    their order, each once. *)
Lemma constructKeys_keys ctx keys dos :
  constructKeys ctx keys = inl dos -> Key <$> dos = keys /\ NoDup keys.
Proof.
  revert dos. induction keys as [|key rest IH]; intros dos; cbn.
  - intros [= <-]. split; [reflexivity | constructor].
  - case_bool_decide as Hin; [discriminate|].
    destruct (resolveKey ctx key) as [do|err] eqn:Hres; [|discriminate].
    destruct (constructKeys ctx rest) as [dos'|err]; [|discriminate].
    intros [= <-]. destruct (IH dos' eq_refl) as [Hk Hnd]. cbn.
    assert (Key do = key) as ->.
    { unfold resolveKey, fromSiblings in Hres.
      destruct (executionOutput ctx !! key); [by injection Hres as <-|].
      destruct (exporters key (siblings ctx)) as [|[sib v] [|? ?]]; try discriminate.
      by injection Hres as <-. }
    split; [by rewrite Hk | by constructor].
Qed.

(** The states of the tests, constructed: the data, the keys and the one
    source type that the tests expect. *)
Lemma Construct_as_the_tests_expect :
  Construct test2Root =
    inl [ {| Key := "root.y"; Data := "val-exec";
             Metadata_SourceType := ExportDataObjectSourceType; SourceRef := None |};
          {| Key := "root.z"; Data := "val-exec";
             Metadata_SourceType := ExportDataObjectSourceType; SourceRef := None |} ]
  /\ Construct test1Root =
    inl [ {| Key := "root.y"; Data := "val-c";
             Metadata_SourceType := ExportDataObjectSourceType;
             SourceRef := Some {| ref_Name := "c"; ref_Namespace := "test1" |} |};
          {| Key := "root.z"; Data := "val-b";
             Metadata_SourceType := ExportDataObjectSourceType;
             SourceRef := Some {| ref_Name := "b"; ref_Namespace := "test1" |} |} ]
  /\ Construct test3Root =
    inl [ {| Key := "root.y"; Data := "val-exec";
             Metadata_SourceType := ExportDataObjectSourceType; SourceRef := None |};
          {| Key := "root.z"; Data := "val-a";
             Metadata_SourceType := ExportDataObjectSourceType;
             SourceRef := Some {| ref_Name := "a"; ref_Namespace := "test1" |} |} ].
Proof. repeat split; vm_compute; reflexivity. Qed.

(** C7 (amended). For an installation that declares the export keys
    [root.y] and [root.z], whose own execution produced [valExec] under
    [root.y] and nothing under [root.z], and whose completed sibling [b]
    exports [valB] under [root.z]: when [b] is the only completed sibling
    that exports [root.z], [Construct] returns exactly two data objects,
    in the order of the declared keys, [root.y] with [valExec] and
    [root.z] with [valB] and a source reference to [b], and both carry
    the one source type [ExportDataObjectSourceType]; when another
    completed sibling exports [root.z] as well, [Construct] fails. *)
Theorem construct_execution_and_sibling ctx valExec valB pre b exported post :
  declaredExports ctx = ["root.y"; "root.z"] ->
  executionOutput ctx !! "root.y" = Some valExec ->
  executionOutput ctx !! "root.z" = None ->
  siblings ctx = pre ++ (b, exported) :: post ->
  inst_Status_Phase b = PhaseCompleted ->
  exported !! "root.z" = Some valB ->
  (Forall (fun s => IsCompletedInstallationPhase (inst_Status_Phase s.1) = false
                    \/ s.2 !! "root.z" = None) (pre ++ post) ->
     Construct ctx =
     inl [ {| Key := "root.y"; Data := valExec;
              Metadata_SourceType := ExportDataObjectSourceType; SourceRef := None |};
           {| Key := "root.z"; Data := valB;
              Metadata_SourceType := ExportDataObjectSourceType;
              SourceRef := Some (refOf b) |} ])
  /\ (Exists (fun s => IsCompletedInstallationPhase (inst_Status_Phase s.1) = true
                       /\ is_Some (s.2 !! "root.z")) (pre ++ post) ->
       exists err, Construct ctx = inr err).
Proof.
  intros Hkeys Hy Hz Hsibs Hphase Hb.
  assert (exporters "root.z" (siblings ctx) =
          exporters "root.z" pre ++ (b, valB) :: exporters "root.z" post) as Hex.
  { rewrite Hsibs, exporters_app. cbn.
    unfold IsCompletedInstallationPhase. rewrite bool_decide_eq_true_2 by done.
    by rewrite Hb. }
  assert (Construct ctx =
          match fromSiblings "root.z" (siblings ctx) with
          | inl z => inl [ {| Key := "root.y"; Data := valExec;
                              Metadata_SourceType := ExportDataObjectSourceType;
                              SourceRef := None |}; z ]
          | inr err => inr err
          end) as HC.
  { unfold Construct. rewrite Hkeys. cbn [constructKeys].
    rewrite bool_decide_eq_false_2 by (intros H; by apply list_elem_of_singleton in H).
    rewrite bool_decide_eq_false_2 by (intros H; by apply elem_of_nil in H).
    unfold resolveKey. rewrite Hy, Hz.
    by destruct (fromSiblings "root.z" (siblings ctx)). }
  rewrite HC. unfold fromSiblings. rewrite Hex. split.
  - intros Hothers. apply Forall_app in Hothers as [Hpre Hpost].
    by rewrite (exporters_none _ _ Hpre), (exporters_none _ _ Hpost).
  - intros Hother. apply Exists_app in Hother as [Hother|Hother];
      apply exporters_some in Hother as (e & es & ->).
    + destruct e as [sib v]. cbn. destruct es; cbn; eauto.
    + destruct (exporters "root.z" pre) as [|[sib v] [|? ?]]; cbn; eauto.
Qed.

(** C7, as stated, fails.  In the state it describes the two data
    objects carry one and the same source type, the one the tests of the
    constructor expect on every object, so that the source type does not
    tell the producers apart; and with a second completed sibling that
    exports [root.z], [Construct] returns no export set at all. *)
Lemma source_type_is_not_per_key :
  Construct rootContext =
    inl [ {| Key := "root.y"; Data := "val-exec";
             Metadata_SourceType := ExportDataObjectSourceType; SourceRef := None |};
          {| Key := "root.z"; Data := "val-b";
             Metadata_SourceType := ExportDataObjectSourceType;
             SourceRef := Some {| ref_Name := "b"; ref_Namespace := "test1" |} |} ]
  /\ ~ attributedPerKey (Construct rootContext) "val-exec" "val-b" sibling_b
  /\ (exists err, Construct twoExportersContext = inr err)
  /\ ~ attributedPerKey (Construct twoExportersContext) "val-exec" "val-b" sibling_b.
Proof.
  assert (Construct rootContext =
    inl [ {| Key := "root.y"; Data := "val-exec";
             Metadata_SourceType := ExportDataObjectSourceType; SourceRef := None |};
          {| Key := "root.z"; Data := "val-b";
             Metadata_SourceType := ExportDataObjectSourceType;
             SourceRef := Some {| ref_Name := "b"; ref_Namespace := "test1" |} |} ]) as E1
    by (vm_compute; reflexivity).
  assert (exists err, Construct twoExportersContext = inr err) as [err E2]
    by (eexists; vm_compute; reflexivity).
  split; [exact E1|]. split; [|split; [eauto|]].
  - rewrite E1. intros (y & z & [= <- <-] & _ & _ & _ & _ & _ & Hne). by apply Hne.
  - rewrite E2. intros (y & z & [=] & _).
Qed.

Lemma construct_execution_and_sibling_witness :
  Construct rootContext =
    inl [ {| Key := "root.y"; Data := "val-exec";
             Metadata_SourceType := ExportDataObjectSourceType; SourceRef := None |};
          {| Key := "root.z"; Data := "val-b";
             Metadata_SourceType := ExportDataObjectSourceType;
             SourceRef := Some {| ref_Name := "b"; ref_Namespace := "test1" |} |} ]
  /\ exists err, Construct twoExportersContext = inr err.
Proof.
  split.
  - apply (construct_execution_and_sibling rootContext "val-exec" "val-b"
             [(sibling_c, {[ "root.z" := "val-c" ]})] sibling_b {[ "root.z" := "val-b" ]} []
             eq_refl eq_refl eq_refl eq_refl eq_refl eq_refl).
    constructor; [left; reflexivity | constructor].
  - apply (construct_execution_and_sibling twoExportersContext "val-exec" "val-b"
             [] sibling_b {[ "root.z" := "val-b" ]} [(sibling_d, {[ "root.z" := "val-d" ]})]
             eq_refl eq_refl eq_refl eq_refl eq_refl eq_refl).
    constructor. split; [reflexivity | by eexists].
Defined.

End exports_proofs.

(* ===================================================================== *)
(** ** Further properties of the resolver *)
(* ===================================================================== *)

Module imports_more.
Import imports imports_spec imports_proofs more_spec more_fixtures fixtures lsv1alpha1helper.
Local Open Scope list_scope.

Lemma checkImports_all_continue kubeClient rec contextName inst data :
  Forall (fun d => checkImport kubeClient rec contextName inst d = Continue) data ->
  checkImports kubeClient rec contextName inst data = Some (true, None).
Proof. induction 1 as [|d data Hd _ IH]; cbn; [reflexivity|]. by rewrite Hd. Qed.

Lemma checkImport_fromSelfOrParent kubeClient rec contextName inst d :
  fromSelfOrParent kubeClient contextName inst d ->
  checkImport kubeClient rec contextName inst d = Continue.
Proof.
  unfold fromSelfOrParent, checkImport.
  destruct (getImportSource kubeClient contextName inst d) as [[sourceRef|]|]; [|done|done].
  intros [Hself|(p & Hp & Hparent)].
  - by rewrite Hself.
  - destruct (ReferenceIsObject sourceRef (Info inst)); [reflexivity|].
    by rewrite Hp, Hparent.
Qed.

(** Imports whose source is the installation itself or its direct parent,
    and imports without an installation as source, are skipped: when all
    declared data imports are such, [CheckCompletedSiblingDependents]
    returns [(true, nil)] at every depth of recursion allowed, even none,
    and the loop passes every import whatever a recursive check would
    answer: no sibling is checked. *)
Theorem self_and_parent_imports_are_skipped kubeClient contextName inst :
  Forall (fromSelfOrParent kubeClient contextName inst) (inst_Spec_Imports_Data (Info inst)) ->
  (forall fuel,
      CheckCompletedSiblingDependents kubeClient fuel contextName (Some inst) = Some (true, None))
  /\ (forall rec,
        Forall (fun d => checkImport kubeClient rec contextName inst d = Continue)
          (inst_Spec_Imports_Data (Info inst))
        /\ checkImports kubeClient rec contextName inst (inst_Spec_Imports_Data (Info inst))
           = Some (true, None)).
Proof.
  intros Hall.
  assert (forall rec,
             Forall (fun d => checkImport kubeClient rec contextName inst d = Continue)
               (inst_Spec_Imports_Data (Info inst))) as Hcont.
  { intros rec. eapply Forall_impl; [exact Hall|].
    intros d Hd. by apply checkImport_fromSelfOrParent. }
  split.
  - intros fuel. rewrite Check_unfold. apply checkImports_all_continue, Hcont.
  - intros rec. split; [apply Hcont | apply checkImports_all_continue, Hcont].
Qed.

Lemma self_and_parent_imports_are_skipped_witness :
  CheckCompletedSiblingDependents (fakeClient chainStore) 0 "Inst.root"
    (Some (NewInstallationBase chain_c))
  = Some (true, None).
Proof.
  apply self_and_parent_imports_are_skipped.
  constructor; [|constructor]. hnf. right. exists root. split; reflexivity.
Defined.

Lemma getImportSource_manuallyProvided kubeClient contextName inst d :
  manuallyProvided kubeClient contextName inst d ->
  getImportSource kubeClient contextName inst d = inl None.
Proof.
  unfold manuallyProvided, getImportSource, GetData. intros [Hst Hown].
  assert (match GetDataImport kubeClient contextName inst d with
          | inr err => inr err
          | inl None => inl None
          | inl (Some owner) =>
            if bool_decide (owner_Kind owner ≠ "Installation") then inl None
            else inl (Some {| ref_Name := owner_Name owner;
                              ref_Namespace := inst_Namespace (Info inst) |})
          end = (inl None : option ObjectReference + error)) as E.
  { destruct (GetDataImport kubeClient contextName inst d) as [[owner|]|]; [|done|done].
    by rewrite bool_decide_eq_true_2. }
  destruct (ImportStatus_Data inst !! di_Name d) as [[n [ref|] g]|]; cbn in *; done.
Qed.

(** A data import for which no source is recorded and which the store
    attributes to no owner, or to an owner that is not an installation, is
    no dependency: when all declared data imports are such,
    [CheckCompletedSiblingDependents] returns [(true, nil)] and asks
    neither for an installation nor for the parent. *)
Theorem manual_imports_are_no_dependency kubeClient get getParent fuel contextName inst :
  Forall (manuallyProvided kubeClient contextName inst) (inst_Spec_Imports_Data (Info inst)) ->
  CheckCompletedSiblingDependents (withGetAndGetParent kubeClient get getParent)
    fuel contextName (Some inst)
  = Some (true, None).
Proof.
  intros Hall. rewrite Check_unfold. apply checkImports_all_continue.
  eapply Forall_impl; [exact Hall|]. intros d Hd. unfold checkImport.
  change (getImportSource (withGetAndGetParent kubeClient get getParent))
    with (getImportSource kubeClient).
  by rewrite (getImportSource_manuallyProvided _ _ _ _ Hd).
Qed.

Lemma manual_imports_are_no_dependency_witness :
  CheckCompletedSiblingDependents
    (withGetAndGetParent
       (ownersOnly (Some {| owner_Kind := "DataObject"; owner_Name := "x" |}))
       (fun _ => inr (ApiError ReasonOther "unreachable"))
       (fun _ => inr (ApiError ReasonOther "unreachable")))
    0 "" (Some (NewInstallationBase manual_a))
  = Some (true, None).
Proof.
  apply manual_imports_are_no_dependency.
  constructor; [|constructor; [|constructor]]; (split; [exact I | hnf; discriminate]).
Defined.

(** The verdict of the loop over the data imports does not depend on
    their order: a loop that succeeds on a list of imports succeeds on
    every permutation of it, and two permutations on which the loop
    returns give the same boolean (an error can take the place of a plain
    [false], or another error's). *)
Theorem verdict_independent_of_import_order kubeClient fuel contextName inst l l' :
  l ≡ₚ l' ->
  (checkImports kubeClient (recursiveCall kubeClient fuel) contextName inst l = Some (true, None) ->
   checkImports kubeClient (recursiveCall kubeClient fuel) contextName inst l' = Some (true, None))
  /\ (forall r r',
        checkImports kubeClient (recursiveCall kubeClient fuel) contextName inst l = Some r ->
        checkImports kubeClient (recursiveCall kubeClient fuel) contextName inst l' = Some r' ->
        r.1 = r'.1).
Proof.
  intros Hperm.
  assert (forall a b, a ≡ₚ b ->
            checkImports kubeClient (recursiveCall kubeClient fuel) contextName inst a
              = Some (true, None) ->
            checkImports kubeClient (recursiveCall kubeClient fuel) contextName inst b
              = Some (true, None)) as Htrue.
  { intros a b Hab Ha. apply checkImports_true in Ha as [_ Hall].
    apply checkImports_all_continue. by rewrite <- Hab. }
  split; [by apply Htrue|].
  intros [[] e] [[] e'] Hr Hr'; try reflexivity.
  - destruct (checkImports_true _ _ _ _ _ _ Hr) as [-> _].
    rewrite (Htrue _ _ Hperm Hr) in Hr'. discriminate.
  - destruct (checkImports_true _ _ _ _ _ _ Hr') as [-> _].
    symmetry in Hperm. rewrite (Htrue _ _ Hperm Hr') in Hr. discriminate.
Qed.

Lemma verdict_independent_of_import_order_witness :
  checkImports (fakeClient chainStore) (recursiveCall (fakeClient chainStore) 2) "Inst.root"
    (NewInstallationBase chain_a)
    [ {| di_Name := "a.in"; di_DataRef := "a.in" |};
      {| di_Name := "a.self"; di_DataRef := "a.self" |} ]
  = Some (true, None).
Proof.
  apply (proj1 (verdict_independent_of_import_order (fakeClient chainStore) 2 "Inst.root"
                  (NewInstallationBase chain_a)
                  [ {| di_Name := "a.self"; di_DataRef := "a.self" |};
                    {| di_Name := "a.in"; di_DataRef := "a.in" |} ]
                  _ (Permutation_swap _ _ []))).
  reflexivity.
Defined.

Lemma CheckOfParent_error_false kubeClient fuel : forall parent b err,
  CheckCompletedSiblingDependentsOfParent kubeClient fuel parent = Some (b, Some err) ->
  b = false.
Proof.
  induction fuel as [|fuel IH]; intros [parent|] b err H; try discriminate.
  rewrite CheckOfParent_unfold in H.
  destruct (CheckCompletedSiblingDependents kubeClient fuel _ (Some parent))
    as [[[] [e|]]|]; simplify_eq; try reflexivity.
  destruct (GetParent kubeClient (Info parent)) as [[pp|]|]; simplify_eq; try reflexivity.
  by eapply IH.
Qed.

(** The errors of the walk over the ancestors: an error of the check of
    the parent's siblings is returned as it is, an error of the lookup of
    the parent's parent is returned wrapped as "unable to get parent of
    parent"; and a result that carries an error is never [true]. *)
Theorem ancestor_walk_errors kubeClient parent :
  (forall b err,
      siblingsReturn kubeClient (GetInstallationContextName kubeClient (Info parent)) parent
        (b, Some err) ->
      parentReturns kubeClient (Some parent) (false, Some err))
  /\ (forall err,
        satisfied kubeClient parent ->
        GetParent kubeClient (Info parent) = inr err ->
        parentReturns kubeClient (Some parent)
          (false, Some (Wrapf "unable to get parent of parent" err)))
  /\ (forall fuel b err,
        CheckCompletedSiblingDependentsOfParent kubeClient fuel (Some parent) = Some (b, Some err) ->
        b = false).
Proof.
  split; [|split].
  - intros b err [fuel H]. exists (S fuel). rewrite CheckOfParent_unfold, H. by destruct b.
  - intros err [fuel H] Hp. exists (S fuel). by rewrite CheckOfParent_unfold, H, Hp.
  - intros fuel b err. apply CheckOfParent_error_false.
Qed.

Lemma ancestor_walk_errors_witness :
  parentReturns (fakeClient lostStore) (Some (NewInstallationBase lost_a))
    (false, Some (ApiError ReasonNotFound "gone"))
  /\ parentReturns (fakeClient []) (Some (NewInstallationBase inc_c))
    (false, Some (Wrapf "unable to get parent of parent" (ApiError ReasonNotFound "root"))).
Proof.
  split.
  - apply (proj1 (ancestor_walk_errors (fakeClient lostStore) (NewInstallationBase lost_a)) false).
    exists 0. reflexivity.
  - apply (proj1 (proj2 (ancestor_walk_errors (fakeClient []) (NewInstallationBase inc_c)))).
    + exists 0. reflexivity.
    + reflexivity.
Defined.

(** Where a source reference comes from. A reference returned by
    [getImportSource] is the one recorded in the import status of the
    installation, or else, nothing being recorded, names the owner that
    the store gives for the import, an Installation, in the namespace of
    the importing installation. An error is the error of that lookup in
    the store, and occurs only if no source is recorded. *)
Theorem getImportSource_sources kubeClient contextName inst dataImport :
  let recorded :=
    match ImportStatus_Data inst !! di_Name dataImport with
    | Some st => is_SourceRef st
    | None => None
    end in
  (forall sourceRef,
      getImportSource kubeClient contextName inst dataImport = inl (Some sourceRef) ->
      recorded = Some sourceRef
      \/ (recorded = None
          /\ exists owner,
               GetDataImport kubeClient contextName inst dataImport = inl (Some owner)
               /\ owner_Kind owner = "Installation"
               /\ sourceRef = {| ref_Name := owner_Name owner;
                                 ref_Namespace := inst_Namespace (Info inst) |}))
  /\ (forall err,
        getImportSource kubeClient contextName inst dataImport = inr err ->
        recorded = None
        /\ GetDataImport kubeClient contextName inst dataImport = inr err)
  /\ (forall sourceRef,
        recorded = Some sourceRef ->
        getImportSource kubeClient contextName inst dataImport = inl (Some sourceRef)).
Proof.
  cbv zeta. unfold getImportSource, GetData.
  destruct (ImportStatus_Data inst !! di_Name dataImport) as [[n [ref|] g]|]; cbn.
  - split; [|split].
    + intros sourceRef [= <-]. by left.
    + intros err [=].
    + by intros sourceRef [= <-].
  - split; [|split; [|done]].
    + intros sourceRef H. right. split; [reflexivity|].
      destruct (GetDataImport kubeClient contextName inst dataImport) as [[owner|]|]; try done.
      case_bool_decide as Hk; [done|].
      injection H as <-. eauto.
    + intros err H. split; [reflexivity|].
      destruct (GetDataImport kubeClient contextName inst dataImport) as [[owner|]|]; try done.
      * by case_bool_decide.
      * by injection H as <-.
  - split; [|split; [|done]].
    + intros sourceRef H. right. split; [reflexivity|].
      destruct (GetDataImport kubeClient contextName inst dataImport) as [[owner|]|]; try done.
      case_bool_decide as Hk; [done|].
      injection H as <-. eauto.
    + intros err H. split; [reflexivity|].
      destruct (GetDataImport kubeClient contextName inst dataImport) as [[owner|]|]; try done.
      * by case_bool_decide.
      * by injection H as <-.
Qed.

Lemma getImportSource_sources_witness :
  getImportSource (ownersOnly (Some {| owner_Kind := "Installation"; owner_Name := "elsewhere" |}))
    "" (NewInstallationBase chain_b) {| di_Name := "b.in"; di_DataRef := "b.in" |}
  = inl (Some {| ref_Name := "c"; ref_Namespace := "test1" |}).
Proof.
  apply (proj2 (proj2 (getImportSource_sources
                         (ownersOnly (Some {| owner_Kind := "Installation";
                                              owner_Name := "elsewhere" |}))
                         "" (NewInstallationBase chain_b)
                         {| di_Name := "b.in"; di_DataRef := "b.in" |}))).
  reflexivity.
Defined.

End imports_more.

(* ===================================================================== *)
(** ** Further properties of the execution controller *)
(* ===================================================================== *)

Module execution_more.
Import execution execution_spec execution_proofs execution_more_spec execution_fixtures
  more_fixtures.
Local Open Scope list_scope.

Section More.
Context (c : Cluster).

(** After a normalization that returned no error the generation is
    observed and no reconcile is requested any more; without the
    force-reconcile annotation a second normalization does nothing, with
    it the execution stays in need of a reconcile. *)
Theorem normalization_settles exec tr exec' tr' :
  HandleAnnotationsAndGeneration c (exec, tr) = (None, (exec', tr')) ->
  ObservedGeneration (Status exec') = Generation exec'
  /\ HasOperation exec' ReconcileOperation = false
  /\ (HasOperation exec ForceReconcileOperation = false ->
       HandleAnnotationsAndGeneration c (exec', tr') = (None, (exec', tr')))
  /\ (HasOperation exec ForceReconcileOperation = true -> reconcileRequired exec' = true).
Proof.
  rewrite HandleAnnotationsAndGeneration_eq.
  destruct (reconcileRequired exec) eqn:Hreq.
  - cbv zeta. destruct (writeError c W000033); [discriminate|].
    destruct (HasOperation exec ReconcileOperation) eqn:Hrec.
    + destruct (writeError c W000027); intros [= <- <-].
      split; [reflexivity|].
      pose proof (HasOperation_deleted (set_Status exec (normalizedStatus exec))) as Hdel.
      split; [apply Hdel|]. split.
      * intros _. rewrite HandleAnnotationsAndGeneration_eq.
        unfold reconcileRequired. rewrite !Hdel. cbn.
        by rewrite bool_decide_eq_false_2 by (intros H; by apply H).
      * intros Hforce. rewrite (HasOperation_exclusive _ Hrec) in Hforce. discriminate.
    + intros [= <- <-]. split; [reflexivity|]. split; [exact Hrec|]. split.
      * intros Hforce. rewrite HandleAnnotationsAndGeneration_eq.
        unfold reconcileRequired.
        change (HasOperation (set_Status exec (normalizedStatus exec)) ReconcileOperation)
          with (HasOperation exec ReconcileOperation).
        change (HasOperation (set_Status exec (normalizedStatus exec)) ForceReconcileOperation)
          with (HasOperation exec ForceReconcileOperation).
        rewrite Hrec, Hforce. cbn.
        by rewrite bool_decide_eq_false_2 by (intros H; by apply H).
      * intros Hforce. unfold reconcileRequired.
        change (HasOperation (set_Status exec (normalizedStatus exec)) ForceReconcileOperation)
          with (HasOperation exec ForceReconcileOperation).
        rewrite Hforce. by rewrite orb_true_r.
  - intros [= <- <-]. unfold reconcileRequired in Hreq.
    apply orb_false_iff in Hreq as [Hreq Hgen]. apply orb_false_iff in Hreq as [Hrec Hforce].
    apply bool_decide_eq_false in Hgen. apply dec_stable in Hgen.
    split; [exact Hgen|]. split; [exact Hrec|]. split.
    + intros _. rewrite HandleAnnotationsAndGeneration_eq.
      unfold reconcileRequired. rewrite Hrec, Hforce. cbn.
      by rewrite bool_decide_eq_false_2 by (intros H; by apply H).
    + intros H. congruence.
Qed.

(** When the status update of the normalization fails, the error names
    the operation and the failed step, the reconcile annotation stays on
    the execution and no further write is made; when the status update is
    accepted and the update that removes the reconcile annotation fails,
    both writes were made and the error names that step. *)
Theorem failed_normalization_reports_step exec tr :
  reconcileRequired exec = true ->
  let h := HandleAnnotationsAndGeneration c (exec, tr) in
  let normalized := set_Status exec (normalizedStatus exec) in
  (forall err,
      writeError c W000033 = Some err ->
      h.1 = Some (NewWrappedError err "HandleAnnotationsAndGeneration"
                    "update execution status" (Error_string err))
      /\ Annotations h.2.1 = Annotations exec
      /\ h.2.2 = tr ++ [UpdateExecutionStatus W000033 normalized])
  /\ (forall err,
        writeError c W000033 = None ->
        HasOperation exec ReconcileOperation = true ->
        writeError c W000027 = Some err ->
        h.1 = Some (NewWrappedError err "HandleAnnotationsAndGeneration"
                      "update execution" (Error_string err))
        /\ h.2.2 = tr ++ [UpdateExecutionStatus W000033 normalized;
                          UpdateExecution W000027 h.2.1])
  /\ (h.1 <> None ->
        exists err, writeError c W000033 = Some err \/ writeError c W000027 = Some err).
Proof.
  intros Hreq. cbv zeta. rewrite HandleAnnotationsAndGeneration_eq, Hreq. cbv zeta.
  split; [|split].
  - by intros err ->.
  - by intros err -> -> ->.
  - destruct (writeError c W000033) as [e|]; [eauto|].
    destruct (HasOperation exec ReconcileOperation); [|done].
    destruct (writeError c W000027) as [e|]; [eauto|done].
Qed.


(** Every effect of [Ensure] is a write of the normalization, the write of
    the finalizer or a call of the operation, and there is at least one. *)
Lemma Ensure_effects exec :
  (Ensure c (exec, [])).2.2 <> []
  /\ Forall (fun e => isFinalStatusWrite e = false /\ isEvent e = false /\ isPatch e = false)
       (Ensure c (exec, [])).2.2.
Proof.
  rewrite Ensure_eq, HandleAnnotationsAndGeneration_eq.
  assert (forall x tr,
    Forall (fun e => isFinalStatusWrite e = false /\ isEvent e = false /\ isPatch e = false) tr ->
    (mainWork c (x, tr)).2.2 <> []
    /\ Forall (fun e => isFinalStatusWrite e = false /\ isEvent e = false /\ isPatch e = false)
         (mainWork c (x, tr)).2.2) as Hmain.
  { intros x tr Htr. destruct (mainWork_shape c x tr) as (o & O & -> & _ & HO). split.
    - by destruct tr.
    - apply Forall_app. split; [exact Htr|].
      eapply Forall_impl; [exact HO|]. intros e (Hop & Hp & _). by destruct e. }
  destruct (reconcileRequired exec); cbv zeta.
  - destruct (writeError c W000033); cbn [fst snd].
    { split; [done | by repeat constructor]. }
    destruct (HasOperation exec ReconcileOperation); cbn [fst snd].
    + destruct (writeError c W000027); cbn [fst snd].
      { split; [done | by repeat constructor]. }
      destruct (_ && _).
      * destruct (writeError c W000025); cbn [fst snd].
        { split; [done | by repeat constructor]. }
        apply Hmain. by repeat constructor.
      * apply Hmain. by repeat constructor.
    + destruct (_ && _).
      * destruct (writeError c W000025); cbn [fst snd].
        { split; [done | by repeat constructor]. }
        apply Hmain. by repeat constructor.
      * apply Hmain. by repeat constructor.
  - destruct (_ && _).
    + destruct (writeError c W000025); cbn [fst snd].
      { split; [done | by repeat constructor]. }
      apply Hmain. by repeat constructor.
    + apply Hmain. constructor.
Qed.

(** An invocation has no effect at all exactly when the execution could
    not be fetched or is ignored while completed; then it returns nil,
    except for a fetch error other than not-found, which it returns as it
    is. An ignored, completed execution is left alone even if it is marked
    for deletion or asked to reconcile. *)
Theorem nothing_done_iff_skipped req :
  ((Reconcile c req).2 = [] <->
     (exists err, GetExecution c req = inr err)
     \/ (exists exec, GetExecution c req = inl exec
                     /\ HasIgnoreAnnotation exec = true
                     /\ Phase (Status exec) = PhaseCompleted))
  /\ (forall err, GetExecution c req = inr err ->
        Reconcile c req = (if IsNotFound err then None else Some (ApiErr err), None, []))
  /\ (forall exec, GetExecution c req = inl exec ->
        HasIgnoreAnnotation exec = true -> Phase (Status exec) = PhaseCompleted ->
        Reconcile c req = (None, Some exec, [])).
Proof.
  split; [|split].
  - split.
    + intros Hnil. destruct (GetExecution c req) as [exec|err] eqn:Hget; [|eauto].
      right. exists exec. split; [reflexivity|].
      destruct (HasIgnoreAnnotation exec && IsCompletedExecutionPhase (Phase (Status exec)))
        eqn:Hign.
      { apply andb_true_iff in Hign as [? ?%bool_decide_eq_true]. done. }
      rewrite (Reconcile_fetched c req exec Hget Hign) in Hnil. cbv zeta in Hnil. cbn [snd] in Hnil.
      destruct (Ensure_effects exec) as [Hne _].
      destruct (Ensure c (exec, [])) as [e1 [exec1 tr1]]. cbn [fst snd] in *.
      destruct (removeForceReconcileAnnotation_frame c exec1 tr1) as (R & HR & _).
      destruct (removeForceReconcileAnnotation c (exec1, tr1)) as [f1 [exec2 tr2]].
      cbn [fst snd] in *. subst tr2.
      match type of Hnil with
      | (handleError c ?err ?old ?del ?s).2.2 = _ =>
        destruct (handleError_frame c err old del exec2 (tr1 ++ R)) as (H & HH & _);
        rewrite HH in Hnil
      end.
      by destruct tr1.
    + intros [[err Hget]|(exec & Hget & Hign & Hphase)]; unfold Reconcile; rewrite Hget.
      * by destruct (IsNotFound err).
      * by rewrite Hign, Hphase.
  - intros err Hget. unfold Reconcile. rewrite Hget. by destruct (IsNotFound err).
  - intros exec Hget Hign Hphase. unfold Reconcile. by rewrite Hget, Hign, Hphase.
Qed.


Lemma DeletionTimestamp_AddFinalizer exec finalizer :
  DeletionTimestamp (AddFinalizer exec finalizer) = DeletionTimestamp exec.
Proof. unfold AddFinalizer. by destruct (HasFinalizer exec finalizer). Qed.

(** The lifecycle branch. For an execution marked for deletion, [Ensure]
    neither adds the finalizer nor calls any method of the operation but
    [Delete]; the normalization done, it calls [Delete] once, on the
    normalized execution, and returns its error. For an execution not
    marked for deletion [Delete] is never called. *)
Theorem deletion_branch_is_exclusive exec :
  let r := Ensure c (exec, []) in
  let h := HandleAnnotationsAndGeneration c (exec, []) in
  let force := HasOperation h.2.1 ForceReconcileOperation in
  (IsZero (DeletionTimestamp exec) = false ->
     Forall (fun e => isFinalizerWrite e = false
                      /\ (isOpCall e = true -> isDeleteCall e = true)) r.2.2
     /\ (h.1 = None ->
          r = ((op_Delete c force h.2.1).2,
               ((op_Delete c force h.2.1).1, h.2.2 ++ [OpDelete force h.2.1]))))
  /\ (IsZero (DeletionTimestamp exec) = true ->
       Forall (fun e => isDeleteCall e = false) r.2.2).
Proof.
  cbv zeta.
  destruct (HandleAnnotationsAndGeneration_shape c exec []) as ((W0 & HW0 & HallW0) & Hd & _).
  cbn in HW0. split.
  - intros Hdel. rewrite Ensure_eq.
    assert (Forall (fun e => isFinalizerWrite e = false
                             /\ (isOpCall e = true -> isDeleteCall e = true)) W0) as HW.
    { rewrite <- HW0. rewrite HandleAnnotationsAndGeneration_eq.
      destruct (reconcileRequired exec); cbv zeta; [|constructor].
      destruct (writeError c W000033); cbn [fst snd]; [by repeat constructor|].
      destruct (HasOperation exec ReconcileOperation); by repeat constructor. }
    destruct (HandleAnnotationsAndGeneration c (exec, [])) as [[herr|] [exec1 tr1]];
      cbn [fst snd] in *; subst tr1.
    { split; [exact HW | done]. }
    rewrite Hd, Hdel. cbn [andb].
    rewrite mainWork_eq. cbv zeta. rewrite Hd, Hdel. cbn [negb fst snd].
    split; [|done].
    apply Forall_app. split; [exact HW | by repeat constructor].
  - intros Hzero.
    destruct (Ensure_shape c exec) as [HW Hshape]. cbv zeta in *.
    rewrite Hzero in *. cbn [andb] in *.
    assert (forall W, Forall plainWrite W -> Forall (fun e => isDeleteCall e = false) W) as Hplain.
    { intros W H. eapply Forall_impl; [exact H|]. intros e (Hop & _). by destruct e. }
    destruct (HandleAnnotationsAndGeneration c (exec, [])) as [[herr|] [exec1 tr1]];
      cbn [fst snd] in *; subst tr1.
    { rewrite Hshape. cbn [fst snd]. apply Forall_app in HW as [HW _]. by apply Hplain. }
    set (x := if negb (HasFinalizer exec LandscaperFinalizer)
              then AddFinalizer exec1 LandscaperFinalizer else exec1) in *.
    assert (IsZero (DeletionTimestamp x) = true) as Hx.
    { subst x. destruct (negb _); [rewrite DeletionTimestamp_AddFinalizer|]; by rewrite Hd. }
    assert (forall tr, Forall (fun e => isDeleteCall e = false) tr ->
              Forall (fun e => isDeleteCall e = false) (mainWork c (x, tr)).2.2) as Hmain.
    { intros tr Htr. rewrite mainWork_eq. cbv zeta. rewrite Hx. cbn [negb].
      destruct (IsCompletedExecutionPhase (Phase (Status x))); cbn [fst snd].
      2: { apply Forall_app. split; [exact Htr | by repeat constructor]. }
      destruct (op_HandleDeployItemPhaseAndGenerationChanges c _ x).2; cbn [fst snd].
      { apply Forall_app. split; [exact Htr | by repeat constructor]. }
      destruct (IsCompletedExecutionPhase _); cbn [fst snd];
        (apply Forall_app; split; [exact Htr | by repeat constructor]). }
    destruct (negb (HasFinalizer exec LandscaperFinalizer)).
    + destruct (writeError c W000025).
      * rewrite Hshape. cbn [fst snd]. by apply Hplain.
      * destruct Hshape as [-> _]. apply Hmain. by apply Hplain.
    + destruct Hshape as [-> _]. apply Hmain. by apply Hplain.
Qed.

(** [handleError] changes nothing of an execution but the phase and the
    recorded error of its status; without an error of the invocation the
    recorded error stays as it is: an error once on record is not cleared.
    After a deletion that succeeded it changes nothing, writes nothing
    and emits nothing, whatever the status is. *)
Theorem handleError_touches_phase_and_error_only err oldExec isDelete exec tr :
  let r := handleError c err oldExec isDelete (exec, tr) in
  (Name r.2.1 = Name exec /\ Namespace r.2.1 = Namespace exec
   /\ Generation r.2.1 = Generation exec /\ Annotations r.2.1 = Annotations exec
   /\ Finalizers r.2.1 = Finalizers exec /\ DeletionTimestamp r.2.1 = DeletionTimestamp exec
   /\ ObservedGeneration (Status r.2.1) = ObservedGeneration (Status exec))
  /\ (err = None -> LastError (Status r.2.1) = LastError (Status exec))
  /\ (isDelete = true -> err = None -> r = (None, (exec, tr))).
Proof.
  cbv zeta. rewrite handleError_eq. split; [|split].
  - destruct (isDelete && bool_decide (err = None)); [done|].
    cbv zeta. by destruct (bool_decide _).
  - intros ->. destruct (isDelete && bool_decide (None = None)); [done|].
    cbv zeta. by destruct (bool_decide _).
  - by intros -> ->.
Qed.

Lemma Ensure_effects_no_final exec tr1 :
  tr1 = (Ensure c (exec, [])).2.2 -> Forall (fun e => isFinalStatusWrite e = false) tr1.
Proof.
  intros ->. destruct (Ensure_effects exec) as [_ H].
  eapply Forall_impl; [exact H|]. by intros e (? & _).
Qed.

(** The status write at the end. Whatever [Reconcile] did, the status
    update [W000031] occurs at most once among its effects, as the last
    of them, and the object it writes is the execution as the invocation
    leaves it, whose status differs from the status fetched; if the API
    server rejects it, [Reconcile] returns that error. *)
Theorem final_status_write_is_last req exec r exec' pre x post :
  GetExecution c req = inl exec ->
  Reconcile c req = (r, Some exec', pre ++ UpdateExecutionStatus W000031 x :: post) ->
  post = [] /\ x = exec'
  /\ Forall (fun e => isFinalStatusWrite e = false) pre
  /\ Status exec <> Status exec'
  /\ (forall updateErr, writeError c W000031 = Some updateErr -> r = Some (ApiErr updateErr)).
Proof.
  intros Hget HR.
  destruct (HasIgnoreAnnotation exec && IsCompletedExecutionPhase (Phase (Status exec)))
    eqn:Hign.
  { unfold Reconcile in HR. rewrite Hget, Hign in HR. injection HR as _ _ HR. by destruct pre. }
  rewrite (Reconcile_fetched c req exec Hget Hign) in HR. cbv zeta in HR.
  pose proof (Ensure_effects_no_final exec _ eq_refl) as HE.
  destruct (Ensure c (exec, [])) as [e1 [exec1 tr1]]. cbn [fst snd] in *.
  assert (exists R, (removeForceReconcileAnnotation c (exec1, tr1)).2.2 = tr1 ++ R
                    /\ Forall (fun e => isFinalStatusWrite e = false) R) as (R & HR' & HRf).
  { rewrite removeForceReconcileAnnotation_eq.
    destruct (HasOperation exec1 ForceReconcileOperation); cbv zeta.
    - destruct (writeError c W000029); eexists; (split; [reflexivity|]); by repeat constructor.
    - exists []. by rewrite app_nil_r. }
  destruct (removeForceReconcileAnnotation c (exec1, tr1)) as [f1 [exec2 tr2]].
  cbn [fst snd] in *. subst tr2.
  rewrite handleError_eq in HR.
  assert (Forall (fun e => isFinalStatusWrite e = false) (tr1 ++ R)) as Hbefore
    by (by apply Forall_app).
  assert (forall y, Forall (fun e => isFinalStatusWrite e = false) (lastErrorEvents y)) as Hev.
  { intros y. unfold lastErrorEvents. destruct (LastError (Status y)); by repeat constructor. }
  destruct (_ && bool_decide _).
  { injection HR as _ _ HR. rewrite HR in Hbefore.
    apply Forall_app in Hbefore as [_ Hbefore]. by apply Forall_cons in Hbefore as [? _]. }
  cbv zeta in HR.
  destruct (bool_decide (Status exec ≠ _)) eqn:Hdiff.
  2: { injection HR as _ Hexec HR. rewrite Hexec in HR.
       assert (Forall (fun e => isFinalStatusWrite e = false)
                 ((tr1 ++ R) ++ lastErrorEvents exec')) as Hall
         by (apply Forall_app; split; [exact Hbefore | apply Hev]).
       rewrite HR in Hall.
       apply Forall_app in Hall as [_ Hall]. by apply Forall_cons in Hall as [? _]. }
  apply bool_decide_eq_true in Hdiff.
  injection HR as Hr Hexec HR. rewrite app_assoc in HR.
  assert (Forall (fun e => isFinalStatusWrite e = false)
            ((tr1 ++ R) ++ lastErrorEvents exec')) as Hall
    by (apply Forall_app; split; [exact Hbefore | apply Hev]).
  rewrite Hexec in HR.
  assert (pre = (tr1 ++ R) ++ lastErrorEvents exec'
          /\ UpdateExecutionStatus W000031 x = UpdateExecutionStatus W000031 exec'
          /\ post = []) as (-> & [= ->] & ->).
  { destruct (after_first_part isFinalStatusWrite _ _ _ _ _ HR Hall eq_refl) as (pre' & Hsplit).
    destruct pre' as [|a pre']; [|by destruct pre'].
    injection Hsplit as <- <-. apply app_inv_tail in HR. done. }
  split; [reflexivity|]. split; [reflexivity|]. split; [exact Hall|]. split.
  - by rewrite <- Hexec.
  - intros updateErr Hw. by rewrite Hw in Hr.
Qed.

(** The error of the invocation. [Reconcile] hands to [handleError] the
    error of [Ensure], or else that of removing the force-reconcile
    annotation; unless the status write at the end is rejected, this is
    the error [Reconcile] returns (nil if there is none). *)
Theorem primary_error_is_returned req exec :
  GetExecution c req = inl exec ->
  HasIgnoreAnnotation exec && IsCompletedExecutionPhase (Phase (Status exec)) = false ->
  (writeError c W000031 = None -> (Reconcile c req).1.1 = LsErr <$> primaryError c exec)
  /\ (forall err, (Ensure c (exec, [])).1 = Some err -> primaryError c exec = Some err)
  /\ (forall err, (Reconcile c req).1.1 = Some (LsErr err) -> primaryError c exec = Some err).
Proof.
  intros Hget Hign. rewrite (Reconcile_fetched c req exec Hget Hign). cbv zeta.
  unfold primaryError. cbv zeta.
  destruct (Ensure c (exec, [])) as [e1 [exec1 tr1]]. cbn [fst snd].
  destruct (removeForceReconcileAnnotation c (exec1, tr1)) as [f1 [exec2 tr2]]. cbn [fst snd].
  assert (match e1 with Some _ => e1 | None => f1 end
          = match e1 with Some err => Some err | None => f1 end) as -> by (by destruct e1).
  rewrite handleError_eq. split; [|split].
  - intros Hw. destruct (_ && bool_decide _) eqn:Hearly.
    { apply andb_true_iff in Hearly as [_ ->%bool_decide_eq_true]. done. }
    cbv zeta. destruct (bool_decide (Status exec ≠ _)); [by rewrite Hw | done].
  - by intros err ->.
  - intros err. destruct (_ && bool_decide _); [done|].
    cbv zeta. destruct (bool_decide (Status exec ≠ _)); cbn [fst].
    + destruct (writeError c W000031); [done|].
      destruct (match e1 with Some err0 => Some err0 | None => f1 end); by intros [= ->].
    + destruct (match e1 with Some err0 => Some err0 | None => f1 end); by intros [= ->].
Qed.

(** After a deletion that succeeded nothing is written: for an execution
    marked for deletion, with nothing to normalize, whose [Delete] returns
    no error and leaves the deletion mark, the only effect of [Reconcile]
    is the call of [Delete]; whatever [Delete] did to the status is
    neither written nor turned into an event. *)
Theorem successful_deletion_writes_nothing req exec exec' :
  GetExecution c req = inl exec ->
  HasIgnoreAnnotation exec && IsCompletedExecutionPhase (Phase (Status exec)) = false ->
  reconcileRequired exec = false ->
  IsZero (DeletionTimestamp exec) = false ->
  op_Delete c false exec = (exec', None) ->
  HasOperation exec' ForceReconcileOperation = false ->
  IsZero (DeletionTimestamp exec') = false ->
  Reconcile c req = (None, Some exec', [OpDelete false exec]).
Proof.
  intros Hget Hign Hreq Hdel Hop Hforce' Hdel'.
  assert (HasOperation exec ForceReconcileOperation = false) as Hforce.
  { unfold reconcileRequired in Hreq.
    apply orb_false_iff in Hreq as [Hreq _]. by apply orb_false_iff in Hreq as [_ ?]. }
  rewrite (Reconcile_fetched c req exec Hget Hign). cbv zeta.
  rewrite Ensure_eq, HandleAnnotationsAndGeneration_eq, Hreq, Hdel. cbn [andb].
  rewrite mainWork_eq. cbv zeta. rewrite Hdel, Hforce, Hop. cbn [negb fst snd app].
  rewrite removeForceReconcileAnnotation_eq, Hforce'. cbn [fst snd].
  rewrite handleError_eq, Hdel'. reflexivity.
Qed.

(** A completed execution, up to date and with its finalizer: if the check
    of the deploy items fails, [Ensure] returns the error wrapped under
    the reason HandleDeployItemPhaseAndGenerationChanges and does not
    reconcile; if the check moved the execution out of the completed
    phase, [Ensure] goes on to reconcile the execution as the check left
    it and returns the result of that. *)
Theorem deploy_item_check_decides_reconcile exec exec' :
  reconcileRequired exec = false ->
  IsZero (DeletionTimestamp exec) = true ->
  HasFinalizer exec LandscaperFinalizer = true ->
  Phase (Status exec) = PhaseCompleted ->
  (forall err,
      op_HandleDeployItemPhaseAndGenerationChanges c false exec = (exec', Some err) ->
      Ensure c (exec, []) =
      (Some (NewWrappedError err "Reconcile" "HandleDeployItemPhaseAndGenerationChanges"
               (Error_string err)),
       (exec', [OpHandleDeployItemPhaseAndGenerationChanges false exec])))
  /\ (op_HandleDeployItemPhaseAndGenerationChanges c false exec = (exec', None) ->
       Phase (Status exec') <> PhaseCompleted ->
       Ensure c (exec, []) =
       ((op_Reconcile c false exec').2,
        ((op_Reconcile c false exec').1,
         [OpHandleDeployItemPhaseAndGenerationChanges false exec; OpReconcile false exec']))).
Proof.
  intros Hreq Hzero Hfin Hphase.
  assert (HasOperation exec ForceReconcileOperation = false) as Hforce.
  { unfold reconcileRequired in Hreq.
    apply orb_false_iff in Hreq as [Hreq _]. by apply orb_false_iff in Hreq as [_ ?]. }
  split.
  - intros err Hop.
    rewrite Ensure_eq, HandleAnnotationsAndGeneration_eq, Hreq, Hzero, Hfin. cbn [negb andb].
    rewrite mainWork_eq. cbv zeta. by rewrite Hzero, Hforce, Hphase, Hop.
  - intros Hop Hphase'.
    rewrite Ensure_eq, HandleAnnotationsAndGeneration_eq, Hreq, Hzero, Hfin. cbn [negb andb].
    rewrite mainWork_eq. cbv zeta. rewrite Hzero, Hforce, Hphase, Hop. cbn [fst snd negb].
    change (IsCompletedExecutionPhase PhaseCompleted) with true. cbv iota.
    unfold IsCompletedExecutionPhase. by rewrite bool_decide_eq_false_2.
Qed.

End More.

Lemma normalization_settles_witness :
  HandleAnnotationsAndGeneration (fakeCluster reconcileExec allAccepted)
    (HandleAnnotationsAndGeneration (fakeCluster reconcileExec allAccepted) (reconcileExec, [])).2
  = (None,
     (HandleAnnotationsAndGeneration (fakeCluster reconcileExec allAccepted) (reconcileExec, [])).2).
Proof.
  exact (proj1 (proj2 (proj2 (normalization_settles (fakeCluster reconcileExec allAccepted)
                                reconcileExec [] _ _ eq_refl))) eq_refl).
Defined.

Lemma failed_normalization_reports_step_witness :
  Annotations (HandleAnnotationsAndGeneration (fakeCluster reconcileExec (rejecting W000033))
                 (reconcileExec, [])).2.1
  = Annotations reconcileExec.
Proof.
  exact (proj1 (proj2 (proj1 (failed_normalization_reports_step
                                (fakeCluster reconcileExec (rejecting W000033))
                                reconcileExec [] eq_refl)
                         (ApiError ReasonConflict "the object has been modified") eq_refl))).
Defined.

Lemma nothing_done_iff_skipped_witness :
  Reconcile (fakeCluster ignoredExec allAccepted) req = (None, Some ignoredExec, []).
Proof.
  exact (proj2 (proj2 (nothing_done_iff_skipped (fakeCluster ignoredExec allAccepted) req))
           ignoredExec eq_refl eq_refl eq_refl).
Defined.

Lemma deletion_branch_is_exclusive_witness :
  Ensure (fakeCluster deletingExec allAccepted) (deletingExec, [])
  = (None, (deletingExec, [OpDelete false deletingExec])).
Proof.
  exact (proj2 (proj1 (deletion_branch_is_exclusive (fakeCluster deletingExec allAccepted)
                         deletingExec) eq_refl) eq_refl).
Defined.

Lemma handleError_touches_phase_and_error_only_witness :
  LastError (Status (handleError (fakeCluster settledWithError allAccepted) None settledExec false
                       (settledWithError, [])).2.1)
  = Some recentError.
Proof.
  exact (proj1 (proj2 (handleError_touches_phase_and_error_only
                         (fakeCluster settledWithError allAccepted) None settledExec false
                         settledWithError [])) eq_refl).
Defined.

Lemma final_status_write_is_last_witness :
  fst (fst (Reconcile (reconcileFailing bareExec (rejecting W000031)) req))
  = Some (ApiErr (ApiError ReasonConflict "the object has been modified")).
Proof.
  destruct (Reconcile (reconcileFailing bareExec (rejecting W000031)) req)
    as [[r [exec'|]] effects] eqn:E; [|vm_compute in E; discriminate].
  assert (exists pre x, effects = pre ++ UpdateExecutionStatus W000031 x :: [])
    as (pre & x & ->).
  { vm_compute in E. injection E as _ _ <-. eexists [_; _; _], _. reflexivity. }
  exact (proj2 (proj2 (proj2 (proj2
           (final_status_write_is_last (reconcileFailing bareExec (rejecting W000031)) req bareExec
              r exec' pre x [] eq_refl E))))
           (ApiError ReasonConflict "the object has been modified") eq_refl).
Defined.

Lemma primary_error_is_returned_witness :
  (Reconcile (reconcileFailing forceProgressing (rejecting W000029)) req).1.1
  = Some (LsErr failure).
Proof.
  rewrite (proj1 (primary_error_is_returned
                    (reconcileFailing forceProgressing (rejecting W000029)) req forceProgressing
                    eq_refl eq_refl) eq_refl).
  reflexivity.
Defined.

Lemma successful_deletion_writes_nothing_witness :
  Reconcile (fakeCluster deletingExec allAccepted) req
  = (None, Some deletingExec, [OpDelete false deletingExec]).
Proof.
  exact (successful_deletion_writes_nothing (fakeCluster deletingExec allAccepted) req
           deletingExec deletingExec eq_refl eq_refl eq_refl eq_refl eq_refl eq_refl eq_refl).
Defined.

Lemma deploy_item_check_decides_reconcile_witness :
  (Ensure (deployItemsFailing settledExec) (settledExec, [])).1
  = Some (NewWrappedError (ApiError ReasonOther "deploy item not found") "Reconcile"
            "HandleDeployItemPhaseAndGenerationChanges" "deploy item not found").
Proof.
  rewrite (proj1 (deploy_item_check_decides_reconcile (deployItemsFailing settledExec)
                    settledExec settledExec eq_refl eq_refl eq_refl eq_refl)
             (ApiError ReasonOther "deploy item not found") eq_refl).
  reflexivity.
Defined.

End execution_more.


(* ===================================================================== *)
(** ** Properties of the helm chart registry client *)
(* ===================================================================== *)

Module registry_proofs.
Import registry more_fixtures.
Local Open Scope list_scope.

Section Proofs.
Context {Chart : Type}.
Context (HelmChartContentLayerMediaType : string).
Context (LoadArchive : list Byte.byte -> Chart + error).
Context (c : Client).

Lemma single_layer (l : list Descriptor) :
  length l = 1 -> exists layer, l = [layer].
Proof. destruct l as [|layer [|]]; try discriminate. eauto. Qed.

(** [GetChart] returns a chart exactly when the manifest of the reference
    was read and has a single layer, of the media type of a helm chart,
    that layer was fetched and its content loads as that chart. It never
    indexes the layers out of range. *)
Theorem GetChart_loads_the_single_chart_layer ref :
  (forall chart,
      (GetChart HelmChartContentLayerMediaType LoadArchive c ref).1 = Loaded chart <->
      exists layer data,
        oci_GetManifest (oci c) ref = inl {| Layers := [layer] |}
        /\ MediaType layer = HelmChartContentLayerMediaType
        /\ oci_Fetch (oci c) ref layer = inl data
        /\ LoadArchive data = inl chart)
  /\ (GetChart HelmChartContentLayerMediaType LoadArchive c ref).1 <> IndexOutOfRange.
Proof.
  unfold GetChart.
  destruct (oci_GetManifest (oci c) ref) as [[layers]|merr] eqn:Hm; cbn [Layers].
  2: { split; [|done]. intros chart. split; [done|]. by intros (? & ? & ? & _). }
  case_bool_decide as Hlen.
  { split; [|done]. intros chart. split; [done|].
    intros (layer & data & [= ->] & _). by destruct Hlen. }
  destruct (single_layer _ Hlen) as [layer ->]. cbn.
  case_bool_decide as Hmedia.
  { split; [|done]. intros chart. split; [done|].
    intros (layer' & data & [= <-] & Hmt & _). done. }
  destruct (oci_Fetch (oci c) ref layer) as [data|ferr] eqn:Hf; cbn.
  2: { split; [|done]. intros chart. split; [done|].
       intros (layer' & data & [= <-] & _ & Hf' & _). congruence. }
  destruct (LoadArchive data) as [chart'|lerr] eqn:Hl.
  - split; [|done]. intros chart. split.
    + intros [= <-]. eauto 10.
    + intros (layer' & data' & [= <-] & _ & Hf' & Hl'). congruence.
  - split; [|done]. intros chart. split; [done|].
    intros (layer' & data' & [= <-] & _ & Hf' & Hl'). congruence.
Qed.

(** The calls of [GetChart] on the OCI client: it reads the manifest of
    the reference, once and first; it fetches at most one layer, and only
    the single layer of a manifest whose media type is that of a helm
    chart, from the same reference. *)
Theorem GetChart_fetches_only_the_chart_layer ref :
  (exists rest, (GetChart HelmChartContentLayerMediaType LoadArchive c ref).2 = CallGetManifest ref :: rest
                /\ (rest = [] \/ exists layer, rest = [CallFetch ref layer]))
  /\ (forall ref' layer,
        CallFetch ref' layer ∈ (GetChart HelmChartContentLayerMediaType LoadArchive c ref).2 ->
        ref' = ref
        /\ oci_GetManifest (oci c) ref = inl {| Layers := [layer] |}
        /\ MediaType layer = HelmChartContentLayerMediaType).
Proof.
  unfold GetChart.
  destruct (oci_GetManifest (oci c) ref) as [[layers]|merr] eqn:Hm; cbn [Layers].
  2: { split; [eauto|]. intros ref' layer H. by apply list_elem_of_singleton in H. }
  case_bool_decide as Hlen.
  { split; [eauto|]. intros ref' layer H. by apply list_elem_of_singleton in H. }
  destruct (single_layer _ Hlen) as [layer ->]. cbn.
  case_bool_decide as Hmedia.
  { split; [eauto|]. intros ref' layer' H. by apply list_elem_of_singleton in H. }
  destruct (oci_Fetch (oci c) ref layer) as [data|ferr]; cbn.
  - split; [eauto 10|]. intros ref' layer' H.
    apply elem_of_cons in H as [[=]|H]. apply list_elem_of_singleton in H as [= -> ->]. done.
  - split; [eauto 10|]. intros ref' layer' H.
    apply elem_of_cons in H as [[=]|H]. apply list_elem_of_singleton in H as [= -> ->]. done.
Qed.

(** The errors of [GetChart]. The errors it makes itself are "unexpected
    number of layers", exactly when the manifest read does not have one
    layer, and "unexpected media type of content", exactly when its single
    layer is not of the media type of a helm chart; in both cases nothing
    is fetched. An error of reading the manifest, of fetching or of
    loading is passed on as it is. *)
Theorem GetChart_errors ref :
  (forall msg,
      (GetChart HelmChartContentLayerMediaType LoadArchive c ref).1 = Failed (ErrorsNew msg) ->
      (GetChart HelmChartContentLayerMediaType LoadArchive c ref).2 = [CallGetManifest ref]
      /\ exists manifest,
           oci_GetManifest (oci c) ref = inl manifest
           /\ ((msg = "unexpected number of layers" /\ length (Layers manifest) <> 1)
               \/ (msg = "unexpected media type of content"
                   /\ exists layer, Layers manifest = [layer]
                                    /\ MediaType layer <> HelmChartContentLayerMediaType)))
  /\ (forall manifest,
        oci_GetManifest (oci c) ref = inl manifest -> length (Layers manifest) <> 1 ->
        GetChart HelmChartContentLayerMediaType LoadArchive c ref = (Failed (ErrorsNew "unexpected number of layers"), [CallGetManifest ref]))
  /\ (forall layer,
        oci_GetManifest (oci c) ref = inl {| Layers := [layer] |} ->
        MediaType layer <> HelmChartContentLayerMediaType ->
        GetChart HelmChartContentLayerMediaType LoadArchive c ref = (Failed (ErrorsNew "unexpected media type of content"),
                        [CallGetManifest ref]))
  /\ (forall err,
        (GetChart HelmChartContentLayerMediaType LoadArchive c ref).1 = Failed (Passed err) ->
        oci_GetManifest (oci c) ref = inr err
        \/ (exists layer, oci_Fetch (oci c) ref layer = inr err)
        \/ (exists data, LoadArchive data = inr err)).
Proof.
  unfold GetChart.
  destruct (oci_GetManifest (oci c) ref) as [[layers]|merr] eqn:Hm; cbn [Layers].
  2: { split; [done|]. split; [done|]. split; [done|]. intros err [= <-]. by left. }
  case_bool_decide as Hlen.
  { split; [|split; [|split]].
    - intros msg [= <-]. split; [reflexivity|]. eexists. split; [reflexivity|]. by left.
    - done.
    - intros layer [= ->] _. by destruct Hlen.
    - done. }
  destruct (single_layer _ Hlen) as [layer ->]. cbn.
  case_bool_decide as Hmedia.
  { split; [|split; [|split]].
    - intros msg [= <-]. split; [reflexivity|]. eexists. split; [reflexivity|]. right. eauto.
    - intros manifest [= <-] Hne. by destruct Hne.
    - done.
    - done. }
  destruct (oci_Fetch (oci c) ref layer) as [data|ferr] eqn:Hf; cbn.
  - split; [|split; [|split]].
    + intros msg. by destruct (LoadArchive data).
    + intros manifest [= <-] Hne. by destruct Hne.
    + intros layer' [= <-] Hne. done.
    + intros err. destruct (LoadArchive data) as [|lerr] eqn:Hl; [done|].
      intros [= <-]. right. right. eauto.
  - split; [done|]. split; [|split].
    + intros manifest [= <-] Hne. by destruct Hne.
    + intros layer' [= <-] Hne. done.
    + intros err [= <-]. right. left. eauto.
Qed.

End Proofs.

Lemma GetChart_loads_the_single_chart_layer_witness :
  (GetChart helmMediaType loadAny {| oci := fakeOci [chartLayer] |} "charts/a:1").1
  = Loaded "chart".
Proof.
  apply (proj1 (GetChart_loads_the_single_chart_layer helmMediaType loadAny
                  {| oci := fakeOci [chartLayer] |} "charts/a:1")).
  exists chartLayer, []. repeat split.
Defined.

Lemma GetChart_fetches_only_the_chart_layer_witness :
  MediaType chartLayer = helmMediaType.
Proof.
  apply (proj2 (GetChart_fetches_only_the_chart_layer helmMediaType loadAny
                  {| oci := fakeOci [chartLayer] |} "charts/a:1") "charts/a:1" chartLayer).
  apply list_elem_of_further, list_elem_of_here.
Defined.

Lemma GetChart_errors_witness :
  GetChart helmMediaType loadAny {| oci := fakeOci [configLayer; chartLayer] |} "charts/a:1"
  = (Failed (ErrorsNew "unexpected number of layers"), [CallGetManifest "charts/a:1"])
  /\ GetChart helmMediaType loadAny {| oci := fakeOci [configLayer] |} "charts/a:1"
    = (Failed (ErrorsNew "unexpected media type of content"), [CallGetManifest "charts/a:1"]).
Proof.
  split.
  - apply (proj1 (proj2 (GetChart_errors helmMediaType loadAny
                           {| oci := fakeOci [configLayer; chartLayer] |} "charts/a:1"))
             {| Layers := [configLayer; chartLayer] |}); [reflexivity | discriminate].
  - apply (proj1 (proj2 (proj2 (GetChart_errors helmMediaType loadAny
                                  {| oci := fakeOci [configLayer] |} "charts/a:1")))
             configLayer); [reflexivity | discriminate].
Defined.

End registry_proofs.
